(** * Materialized view refresh (src/backend/commands/matview.c)

    A shallow embedding of [SetMatViewToPopulated], [ExecRefreshMatView],
    [refresh_matview_datafill] and the transient-relation [DestReceiver],
    written as programs of a state-and-error monad over a model of the
    backend's state, together with the properties of the refresh that the
    design document states. *)

From Stdlib Require Import ZArith String Ascii List Lia.
From stdpp Require Import gmap strings pretty list fin_maps.
Import ListNotations.

Local Open Scope Z_scope.

(** ** Scalar types *)

Abbreviation Oid := N (only parsing).
Abbreviation CommandId := N (only parsing).
Abbreviation TransactionId := N (only parsing).
Abbreviation MultiXactId := N (only parsing).
Abbreviation BlockNumber := N (only parsing).

Definition InvalidOid : Oid := 0%N.

(** Namespaces whose relations [IsSystemRelation] reports as system ones. *)
Definition PG_CATALOG_NAMESPACE : Oid := 11%N.
Definition PG_TOAST_NAMESPACE : Oid := 99%N.

Definition BLCKSZ : Z := 8192.
Definition SizeOfPageHeaderData : Z := 24.

Inductive ForkNumber := MAIN_FORKNUM | FSM_FORKNUM | VISIBILITYMAP_FORKNUM | INIT_FORKNUM.

Inductive LOCKMODE := NoLock | AccessShareLock | AccessExclusiveLock.

Inductive RelKind :=
| RELKIND_RELATION | RELKIND_INDEX | RELKIND_SEQUENCE | RELKIND_TOASTVALUE
| RELKIND_VIEW | RELKIND_MATVIEW | RELKIND_COMPOSITE_TYPE | RELKIND_FOREIGN_TABLE.

Inductive RelPersistence :=
| RELPERSISTENCE_PERMANENT | RELPERSISTENCE_UNLOGGED | RELPERSISTENCE_TEMP.

Inductive CmdType :=
| CMD_UNKNOWN | CMD_SELECT | CMD_UPDATE | CMD_INSERT | CMD_DELETE | CMD_UTILITY | CMD_NOTHING.

Inductive WalLevel := WAL_LEVEL_MINIMAL | WAL_LEVEL_ARCHIVE | WAL_LEVEL_HOT_STANDBY.

Inductive CommandDest := DestNone | DestRemote | DestIntoRel | DestTransientRel.

#[global] Instance RelKind_eq_dec : EqDecision RelKind.
Proof. solve_decision. Defined.
#[global] Instance RelPersistence_eq_dec : EqDecision RelPersistence.
Proof. solve_decision. Defined.
#[global] Instance CmdType_eq_dec : EqDecision CmdType.
Proof. solve_decision. Defined.
#[global] Instance WalLevel_eq_dec : EqDecision WalLevel.
Proof. solve_decision. Defined.

(** ** Errors

    [ereport(ERROR, ...)] and [elog(ERROR, ...)] leave the function by a
    non-local exit; the embedding returns [Raised] with the error data.  A
    failed [Assert] (in an assert-enabled build) or a dereferenced NULL
    pointer takes the backend down; that is [Trapped]. *)

Inductive SqlState :=
| ERRCODE_FEATURE_NOT_SUPPORTED
| ERRCODE_INTERNAL_ERROR
| ERRCODE_OBJECT_IN_USE
| ERRCODE_QUERY_CANCELED
| ERRCODE_UNDEFINED_TABLE
| ERRCODE_INSUFFICIENT_PRIVILEGE
| ERRCODE_WRONG_OBJECT_TYPE
| ERRCODE_OTHER (code : N).

#[global] Instance SqlState_eq_dec : EqDecision SqlState.
Proof. solve_decision. Defined.

Definition ERROR : Z := 20.

Record ErrorData := mkErrorData {
  elevel : Z;
  sqlerrcode : SqlState;
  message : string;          (* the format string *)
  message_args : list string (* its %s / %u arguments, printed *)
}.

Inductive Trap :=
| TrapFailedAssertion (condition : string)
| TrapNullPointer (expression : string).

Inductive Result (A : Type) : Type :=
| Ok (a : A)
| Raised (e : ErrorData)
| Trapped (t : Trap).
Arguments Ok {A} a.
Arguments Raised {A} e.
Arguments Trapped {A} t.

(** The double quote of the C format strings. *)
Definition dq : string := String "034"%char EmptyString.

(** ** Parse trees and rules *)

Record Alias := mkAlias { aliasname : string }.

Record RangeTblEntry := mkRangeTblEntry {
  rte_relid : Oid;
  alias : option Alias;       (* NULL when the entry has no alias *)
  isResultRel : bool
}.

Record Query := mkQuery {
  commandType : CmdType;
  rtable : list RangeTblEntry;
  jointree : N                (* the rest of the tree, opaque here *)
}.

Record RewriteRule := mkRewriteRule {
  ruleId : Oid;
  event : CmdType;
  isInstead : bool;
  actions : list Query
}.

Record RuleLock := mkRuleLock {
  numLocks : Z;
  rules : list RewriteRule
}.

(** ** Relation descriptors *)

Record FormData_pg_class := mkPgClass {
  relname : string;
  relnamespace : Oid;
  relowner : Oid;
  relkind : RelKind;
  relpersistence : RelPersistence;
  relhasrules : bool;
  relhasoids : bool;
  reltablespace : Oid
}.

Record RelFileNode := mkRelFileNode {
  spcNode : Oid;
  relNode : Oid
}.

Record RelationData := mkRelation {
  rd_id : Oid;
  rd_rel : FormData_pg_class;
  rd_node : RelFileNode;
  rd_rules : option RuleLock;   (* NULL when the relation has no rules *)
  rd_ispopulated : bool
}.

Definition set_rd_node (n : RelFileNode) (r : RelationData) : RelationData :=
  mkRelation (rd_id r) (rd_rel r) n (rd_rules r) (rd_ispopulated r).
Definition set_rd_ispopulated (b : bool) (r : RelationData) : RelationData :=
  mkRelation (rd_id r) (rd_rel r) (rd_node r) (rd_rules r) b.

(** ** Pages, tuples and storage *)

Record Page := mkPage {
  pd_checksum : Z;
  pd_lower : Z;
  pd_upper : Z;
  pd_special : Z;
  pd_linp : list N             (* line pointers; none on an empty page *)
}.

Record HeapTuple := mkHeapTuple { t_values : list Z }.

Record TupleTableSlot := mkSlot { tts_tuple : HeapTuple }.

Definition TupleDesc := list Oid.

(** A tuple as [heap_insert] leaves it in the relation. *)
Record StoredTuple := mkStoredTuple {
  st_tuple : HeapTuple;
  st_cmin : CommandId;
  st_frozen : bool
}.

(** One relation's main fork as the storage manager and the heap access
    method see it. *)
Record Storage := mkStorage {
  blocks : list Page;             (* pages written through smgrextend *)
  tuples : list StoredTuple;      (* rows placed by heap_insert, in order *)
  smgr_targblock : option BlockNumber; (* None is InvalidBlockNumber *)
  synced : bool                   (* all writes so far reached stable storage *)
}.

Definition empty_storage : Storage := mkStorage [] [] None true.

Record SnapshotData := mkSnapshot {
  xmin : TransactionId;
  xmax : TransactionId;
  curcid : CommandId
}.

Definition PlannedStmt := N.

Record BulkInsertStateData := mkBulkInsertState { bi_id : N }.

Record RangeVar := mkRangeVar { rv_relname : string }.

Record RefreshMatViewStmt := mkRefreshMatViewStmt {
  skipData : bool;
  relation : RangeVar
}.

(** ** The observable calls

    Every call that leaves this file for a collaborator with an effect is
    recorded, in program order, in the [log] of the state. *)

Inductive Event :=
| EvLockRelation (relid : Oid) (mode : LOCKMODE)
| EvHeapOpen (relid : Oid)
| EvHeapClose (relid : Oid)
| EvMakeNewHeap (OIDOldHeap OIDNewHeap tablespace : Oid)
| EvQueryRewrite (q : Query)
| EvCheckForInterrupts
| EvPlanQuery (q : Query)
| EvPushSnapshot (s : SnapshotData)
| EvUpdateSnapshotCommandId (cid : CommandId)
| EvPopSnapshot
| EvExecutorStart (plan : PlannedStmt) (snap : SnapshotData)
| EvExecutorRun (plan : PlannedStmt)
| EvExecutorFinish (plan : PlannedStmt)
| EvExecutorEnd (plan : PlannedStmt)
| EvGetBulkInsertState
| EvFreeBulkInsertState
| EvLogNewPage (rnode : RelFileNode) (fork : ForkNumber) (blk : BlockNumber) (page : Page)
| EvSmgrExtend (rnode : RelFileNode) (fork : ForkNumber) (blk : BlockNumber)
               (page : Page) (skipFsync : bool)
| EvSmgrImmedSync (rnode : RelFileNode) (fork : ForkNumber)
| EvRelationCacheInvalidate (relid : Oid)
| EvHeapInsert (rnode : RelFileNode) (tup : HeapTuple) (cid : CommandId) (options : Z)
| EvXLogInsert (rnode : RelFileNode) (tup : HeapTuple)
| EvHeapSync (rnode : RelFileNode)
| EvFinishHeapSwap (OIDOldHeap OIDNewHeap : Oid)
                   (frozenXid : TransactionId) (cutoffMulti : MultiXactId).

(** ** The backend state *)

Record PgWorld := mkWorld {
  relnames : gmap string N;        (* name resolution in the search path *)
  relcache : gmap N RelationData;  (* relation descriptors by OID *)
  smgr : gmap N Storage;           (* storage by relNode *)
  in_use : gset N;                 (* relations with open scans or cursors *)
  userid : Oid;
  wal_level : WalLevel;
  QueryCancelPending : bool;
  currentCommandId : CommandId;
  ActiveSnapshot : list SnapshotData;  (* the active-snapshot stack, top first *)
  RecentXmin : TransactionId;
  nextMXact : MultiXactId;
  log : list Event
}.

Definition set_relcache (f : gmap N RelationData -> gmap N RelationData) (w : PgWorld) :=
  mkWorld (relnames w) (f (relcache w)) (smgr w) (in_use w) (userid w) (wal_level w)
          (QueryCancelPending w) (currentCommandId w) (ActiveSnapshot w)
          (RecentXmin w) (nextMXact w) (log w).
Definition set_smgr (f : gmap N Storage -> gmap N Storage) (w : PgWorld) :=
  mkWorld (relnames w) (relcache w) (f (smgr w)) (in_use w) (userid w) (wal_level w)
          (QueryCancelPending w) (currentCommandId w) (ActiveSnapshot w)
          (RecentXmin w) (nextMXact w) (log w).
Definition set_QueryCancelPending (b : bool) (w : PgWorld) :=
  mkWorld (relnames w) (relcache w) (smgr w) (in_use w) (userid w) (wal_level w)
          b (currentCommandId w) (ActiveSnapshot w)
          (RecentXmin w) (nextMXact w) (log w).
Definition set_ActiveSnapshot (f : list SnapshotData -> list SnapshotData) (w : PgWorld) :=
  mkWorld (relnames w) (relcache w) (smgr w) (in_use w) (userid w) (wal_level w)
          (QueryCancelPending w) (currentCommandId w) (f (ActiveSnapshot w))
          (RecentXmin w) (nextMXact w) (log w).
Definition set_log (f : list Event -> list Event) (w : PgWorld) :=
  mkWorld (relnames w) (relcache w) (smgr w) (in_use w) (userid w) (wal_level w)
          (QueryCancelPending w) (currentCommandId w) (ActiveSnapshot w)
          (RecentXmin w) (nextMXact w) (f (log w)).

(** ** The monad of backend code *)

Definition PG (A : Type) : Type := PgWorld -> Result A * PgWorld.

Definition ret {A} (a : A) : PG A := fun w => (Ok a, w).

Definition bind {A B} (c : PG A) (k : A -> PG B) : PG B :=
  fun w =>
    match c w with
    | (Ok a, w') => k a w'
    | (Raised e, w') => (Raised e, w')
    | (Trapped t, w') => (Trapped t, w')
    end.

Declare Scope pg_scope.
Delimit Scope pg_scope with pg.
Notation "'do' x <- c ; k" := (bind c (fun x => k))
  (at level 10, x name, c at level 100, k at level 200) : pg_scope.
Notation "'run' c ; k" := (bind c (fun _ => k))
  (at level 10, c at level 100, k at level 200) : pg_scope.
Local Open Scope pg_scope.

Definition ereport {A} (code : SqlState) (msg : string) (args : list string) : PG A :=
  fun w => (Raised (mkErrorData ERROR code msg args), w).

(** [elog(ERROR, ...)] reports with the internal-error SQLSTATE. *)
Definition elog {A} (msg : string) (args : list string) : PG A :=
  ereport ERRCODE_INTERNAL_ERROR msg args.

Definition rethrow {A} (e : ErrorData) : PG A := fun w => (Raised e, w).

Definition trap {A} (t : Trap) : PG A := fun w => (Trapped t, w).

Definition gets {A} (f : PgWorld -> A) : PG A := fun w => (Ok (f w), w).

Definition modify (f : PgWorld -> PgWorld) : PG unit := fun w => (Ok tt, f w).

Definition emit (e : Event) : PG unit := modify (set_log (fun l => l ++ [e])).

(** The events a run from [w] to [w'] added. *)
Definition new_events (w w' : PgWorld) : list Event := drop (length (log w)) (log w').

(** ** Constants of the headers this file includes *)

(** heap_insert options (access/heapam.h). *)
Definition HEAP_INSERT_SKIP_WAL : Z := 1.
Definition HEAP_INSERT_SKIP_FSM : Z := 2.
Definition HEAP_INSERT_FROZEN : Z := 4.

Definition EXEC_FLAG_WITHOUT_OIDS : Z := 64.

(** [strcmp]: zero exactly when the two strings are equal. *)
Definition strcmp (a b : string) : Z :=
  match String.compare a b with
  | Eq => 0
  | Lt => -1
  | Gt => 1
  end.

(** ** Pure helpers on relations and storage *)

(** [RelationNeedsWAL]: only permanent relations are WAL-logged. *)
Definition RelationNeedsWAL (rel : RelationData) : bool :=
  bool_decide (relpersistence (rd_rel rel) = RELPERSISTENCE_PERMANENT).

Definition RelationGetRelationName (rel : RelationData) : string := relname (rd_rel rel).

Definition IsSystemRelation (rel : RelationData) : bool :=
  bool_decide (relnamespace (rd_rel rel) = PG_CATALOG_NAMESPACE)
  || bool_decide (relnamespace (rd_rel rel) = PG_TOAST_NAMESPACE).

(** [XLogIsNeeded]: WAL is needed for archiving or streaming replication. *)
Definition XLogIsNeeded (w : PgWorld) : bool :=
  negb (bool_decide (wal_level w = WAL_LEVEL_MINIMAL)).

(** Modelled from the spec: the relation cache, which is not in this file,
    takes a storage object to be well-formed for scanning only if it has at
    least an initialized first page; that is how it fills [rd_ispopulated]
    of a materialized view when it builds the descriptor.  Other relation
    kinds are always populated. *)
Definition storage_is_populated (kind : RelKind) (st : option Storage) : bool :=
  if decide (kind = RELKIND_MATVIEW)
  then match st with
       | Some s => negb (bool_decide (blocks s = []))
       | None => false
       end
  else true.

(** [PageInit(page, pageSize, specialSize)]: a zeroed page with an
    initialized header and no line pointers. *)
Definition PageInit (pageSize specialSize : Z) : Page :=
  mkPage 0 SizeOfPageHeaderData (pageSize - specialSize) (pageSize - specialSize) [].

Definition zero_page : Page := mkPage 0 0 0 0 [].

(** Writing [page] as block [blk] of a fork that holds [bs]: blocks between
    the old end and [blk] read as zeroes. *)
Definition write_block (blk : nat) (page : Page) (bs : list Page) : list Page :=
  take blk bs ++ replicate (blk - length bs)%nat zero_page ++ [page] ++ drop (S blk) bs.

(** Identifiers [make_new_heap] must not reuse: the OIDs of the relations,
    the relNodes they point at and the relNodes that have storage. *)
Definition used_ids (w : PgWorld) : gset N :=
  {[ InvalidOid ]} ∪ dom (relcache w) ∪ dom (smgr w)
  ∪ map_img ((fun r => relNode (rd_node r)) <$> relcache w).

(** ** The transient-relation receiver's private state

    [DR_transientrel] without its leading [pub] member, which is the
    dispatch table [DestReceiver] below. *)

Record DR_transientrel := mkDR {
  transientoid : Oid;                       (* OID of new heap into which to store *)
  transientrel : option RelationData;       (* relation to write to; NULL until startup *)
  output_cid : CommandId;                   (* cmin to insert in output tuples *)
  hi_options : Z;                           (* heap_insert performance options *)
  bistate : option BulkInsertStateData      (* bulk insert state *)
}.

(** The publicly-known function pointers of a receiver whose private state
    has type [S]. *)
Record DestReceiver (S : Type) := mkDestReceiver {
  receiveSlot : TupleTableSlot -> S -> PG S;
  rStartup : S -> Z -> TupleDesc -> PG S;
  rShutdown : S -> PG S;
  rDestroy : S -> PG unit;
  mydest : CommandDest
}.
Arguments receiveSlot {S} _ _ _ _.
Arguments rStartup {S} _ _ _ _ _.
Arguments rShutdown {S} _ _ _.
Arguments rDestroy {S} _ _ _.
Arguments mydest {S} _.

(** A receiver object: the dispatch table and the state it is called on. *)
Record DestReceiverObj (S : Type) := mkDest {
  pub : DestReceiver S;
  self : S
}.
Arguments pub {S} _.
Arguments self {S} _.
Arguments mkDest {S} _ _.

Definition set_self {S} (s : S) (d : DestReceiverObj S) : DestReceiverObj S :=
  mkDest (pub d) s.

Record QueryDesc (S : Type) := mkQueryDesc {
  plannedstmt : PlannedStmt;
  sourceText : string;
  snapshot : SnapshotData;
  crosscheck_snapshot : option SnapshotData;
  dest : DestReceiverObj S;
  instrument_options : Z
}.
Arguments plannedstmt {S} _.
Arguments sourceText {S} _.
Arguments snapshot {S} _.
Arguments crosscheck_snapshot {S} _.
Arguments dest {S} _.
Arguments instrument_options {S} _.
Arguments mkQueryDesc {S} _ _ _ _ _ _.

(** What running a plan under a snapshot yields: a failure while starting
    up, or the rows it emits followed, possibly, by a failure in the run. *)
Record ExecOutcome := mkExecOutcome {
  exec_start_error : option ErrorData;
  exec_rows : list TupleTableSlot;
  exec_run_error : option ErrorData
}.

Section Backend.

(** Whether the build has assertions compiled in. *)
Variable USE_ASSERT_CHECKING : bool.

(** The page checksum function (storage/checksum), opaque here. *)
Variable pg_checksum_page : Page -> BlockNumber -> Z.

(** The rewriter's answer for a query tree. *)
Variable QueryRewrite_result : Query -> list Query.

(** The planner's answer for a query: a plan, or the error it raises. *)
Variable pg_plan_query_result : Query -> ErrorData + PlannedStmt.

(** What the executor does with a plan under a snapshot. *)
Variable ExecutePlan : PlannedStmt -> SnapshotData -> ExecOutcome.

(** [Assert(condition)]: nothing unless assertions are compiled in. *)
Definition Assert (cond : bool) (text : string) : PG unit :=
  if USE_ASSERT_CHECKING && negb cond then trap (TrapFailedAssertion text) else ret tt.

(** *** Collaborators outside this file *)

(** Modelled from the spec: [RangeVarCallbackOwnsTable], the ownership check
    of identity resolution, fails with a permission error unless the
    current user owns the relation. *)
Definition RangeVarCallbackOwnsTable (rv : RangeVar) (relid : Oid) : PG unit :=
  do rel <- gets (fun w => relcache w !! relid);
  do uid <- gets userid;
  match rel with
  | None => ret tt
  | Some r =>
      if bool_decide (relowner (rd_rel r) = uid) then ret tt
      else ereport ERRCODE_INSUFFICIENT_PRIVILEGE "must be owner of relation %s"
                   [rv_relname rv]
  end.

(** Modelled from the spec: [RangeVarGetRelidExtended] is
    [resolveAndLock(name, mode, ownershipCheck) -> identity | error]: it
    resolves the name, runs the ownership callback, takes the lock and
    returns the OID; an unknown name is an error unless [missing_ok]. *)
Definition RangeVarGetRelidExtended (rv : RangeVar) (lockmode : LOCKMODE)
    (missing_ok nowait : bool) (callback : RangeVar -> Oid -> PG unit) : PG Oid :=
  do found <- gets (fun w => relnames w !! rv_relname rv);
  match found with
  | None =>
      if missing_ok then ret InvalidOid
      else ereport ERRCODE_UNDEFINED_TABLE ("relation " ++ dq ++ "%s" ++ dq ++ " does not exist")
                   [rv_relname rv]
  | Some relid =>
      run callback rv relid;
      run emit (EvLockRelation relid lockmode);
      ret relid
  end.

(** Modelled from the spec: [heap_open] returns the descriptor of the
    relation with the given OID from the relation cache, and fails when
    there is none or when the relation is an index or a composite type. *)
Definition heap_open (relid : Oid) (lockmode : LOCKMODE) : PG RelationData :=
  do found <- gets (fun w => relcache w !! relid);
  match found with
  | None => elog "could not open relation with OID %u" [pretty relid]
  | Some r =>
      if bool_decide (relkind (rd_rel r) = RELKIND_INDEX)
      then ereport ERRCODE_WRONG_OBJECT_TYPE (dq ++ "%s" ++ dq ++ " is an index")
                   [RelationGetRelationName r]
      else if bool_decide (relkind (rd_rel r) = RELKIND_COMPOSITE_TYPE)
      then ereport ERRCODE_WRONG_OBJECT_TYPE (dq ++ "%s" ++ dq ++ " is a composite type")
                   [RelationGetRelationName r]
      else run emit (EvHeapOpen relid);
           ret r
  end.

Definition heap_close (rel : RelationData) (lockmode : LOCKMODE) : PG unit :=
  emit (EvHeapClose (rd_id rel)).

(** Modelled from the spec: [CheckTableNotInUse] fails with a concurrency
    error when the relation is in active use (open scans, cursors) within
    the current transaction. *)
Definition CheckTableNotInUse (rel : RelationData) (stmt : string) : PG unit :=
  do busy <- gets (fun w => bool_decide (rd_id rel ∈ in_use w));
  if busy
  then ereport ERRCODE_OBJECT_IN_USE
         ("cannot %s " ++ dq ++ "%s" ++ dq
          ++ " because it is being used by active queries in this session")
         [stmt; RelationGetRelationName rel]
  else ret tt.

(** Modelled from the spec: [RelationCacheInvalidateEntry] drops what the
    cache assumed about the relation; the descriptor is rebuilt and its
    [rd_ispopulated] is read again off the relation's storage. *)
Definition RelationCacheInvalidateEntry (relid : Oid) : PG unit :=
  run modify (fun w =>
        set_relcache
          (alter (fun r =>
                    set_rd_ispopulated
                      (storage_is_populated (relkind (rd_rel r))
                                            (smgr w !! relNode (rd_node r))) r)
                 relid) w);
  emit (EvRelationCacheInvalidate relid).

(** Modelled from the spec: the transient storage object has the row
    shape, kind and persistence of the old heap, lies in the requested
    tablespace, has no rules, and starts without any page. *)
Definition new_heap_of (OldHeap : RelationData) (OIDOldHeap OIDNewHeap NewTableSpace : Oid)
    : RelationData :=
  mkRelation OIDNewHeap
    (mkPgClass ("pg_temp_" ++ pretty OIDOldHeap)
               (relnamespace (rd_rel OldHeap)) (relowner (rd_rel OldHeap))
               (relkind (rd_rel OldHeap)) (relpersistence (rd_rel OldHeap))
               false (relhasoids (rd_rel OldHeap)) NewTableSpace)
    (mkRelFileNode NewTableSpace OIDNewHeap) None
    (storage_is_populated (relkind (rd_rel OldHeap)) (Some empty_storage)).

(** Modelled from the spec: [make_new_heap] creates a new, empty transient
    storage object in the given tablespace, under an internally generated
    identity distinct from every existing one. *)
Definition make_new_heap (OIDOldHeap NewTableSpace : Oid) : PG Oid :=
  do OldHeap <- heap_open OIDOldHeap AccessExclusiveLock;
  do OIDNewHeap <- gets (fun w => fresh (used_ids w));
  let NewHeap := new_heap_of OldHeap OIDOldHeap OIDNewHeap NewTableSpace in
  run modify (set_smgr (insert OIDNewHeap empty_storage));
  run modify (set_relcache (insert OIDNewHeap NewHeap));
  run emit (EvMakeNewHeap OIDOldHeap OIDNewHeap NewTableSpace);
  run heap_close OldHeap NoLock;
  ret OIDNewHeap.

(** Modelled from the spec: [finish_heap_swap] is the swap utility: the
    live relation takes over the transient one's storage, the transient
    relation is dropped and the storage the live relation had is reclaimed.
    To the caller it is indivisible. *)
Definition finish_heap_swap (OIDOldHeap OIDNewHeap : Oid)
    (is_system_catalog swap_toast_by_content check_constraints is_internal : bool)
    (frozenXid : TransactionId) (cutoffMulti : MultiXactId) : PG unit :=
  do old <- gets (fun w => relcache w !! OIDOldHeap);
  do new <- gets (fun w => relcache w !! OIDNewHeap);
  match old, new with
  | Some ro, Some rn =>
      run modify (set_relcache
                    (fun rc => delete OIDNewHeap (<[OIDOldHeap := set_rd_node (rd_node rn) ro]> rc)));
      run modify (set_smgr (delete (relNode (rd_node ro))));
      emit (EvFinishHeapSwap OIDOldHeap OIDNewHeap frozenXid cutoffMulti)
  | None, _ => elog "cache lookup failed for relation %u" [pretty OIDOldHeap]
  | _, None => elog "cache lookup failed for relation %u" [pretty OIDNewHeap]
  end.

Definition ReadNextMultiXactId : PG MultiXactId := gets nextMXact.

(** [log_newpage]: a WAL record holding a full image of the page. *)
Definition log_newpage (rnode : RelFileNode) (fork : ForkNumber)
    (blk : BlockNumber) (page : Page) : PG unit :=
  emit (EvLogNewPage rnode fork blk page).

(** [RelationOpenSmgr]: the storage-manager handle of the relation. *)
Definition RelationOpenSmgr (rel : RelationData) : RelFileNode := rd_node rel.

Definition PageSetChecksumInplace (page : Page) (blkno : BlockNumber) : Page :=
  mkPage (pg_checksum_page page blkno) (pd_lower page) (pd_upper page)
         (pd_special page) (pd_linp page).

(** Modelled from the spec: [smgrextend] is the storage manager's extend
    primitive: it writes the page as the given block of the relation's
    file, without syncing. *)
Definition smgrextend (reln : RelFileNode) (fork : ForkNumber) (blocknum : BlockNumber)
    (buffer : Page) (skipFsync : bool) : PG unit :=
  do st <- gets (fun w => smgr w !! relNode reln);
  match st with
  | None => ereport (ERRCODE_OTHER 58%N) "could not open file for relation %u"
                    [pretty (relNode reln)]
  | Some s =>
      run modify (set_smgr
            (insert (relNode reln)
               (mkStorage (write_block (N.to_nat blocknum) buffer (blocks s))
                          (tuples s) (smgr_targblock s) false)));
      emit (EvSmgrExtend reln fork blocknum buffer skipFsync)
  end.

(** Modelled from the spec: [smgrimmedsync] is the storage manager's sync
    primitive: when it returns, everything written to the relation's file
    is on stable storage. *)
Definition smgrimmedsync (reln : RelFileNode) (fork : ForkNumber) : PG unit :=
  run modify (set_smgr
        (alter (fun s => mkStorage (blocks s) (tuples s) (smgr_targblock s) true)
               (relNode reln)));
  emit (EvSmgrImmedSync reln fork).

Definition GetCurrentCommandId (used : bool) : PG CommandId := gets currentCommandId.

Definition GetBulkInsertState : PG BulkInsertStateData :=
  run emit EvGetBulkInsertState;
  ret (mkBulkInsertState 0).

Definition FreeBulkInsertState (b : option BulkInsertStateData) : PG unit :=
  match b with
  | None => trap (TrapNullPointer "bistate")
  | Some _ => emit EvFreeBulkInsertState
  end.

(** [RelationGetTargetBlock]: [smgr_targblock] of the relation's storage
    handle, [InvalidBlockNumber] when there is none. *)
Definition RelationGetTargetBlock (rel : RelationData) : PG (option BlockNumber) :=
  gets (fun w => match smgr w !! relNode (rd_node rel) with
                 | Some s => smgr_targblock s
                 | None => None
                 end).

Definition ExecMaterializeSlot (slot : TupleTableSlot) : HeapTuple := tts_tuple slot.

(** Modelled from the spec: [heap_insert] appends the tuple to the
    relation, stamped with the command id and frozen when the options say
    so; the insertion is WAL-logged unless the relation needs no WAL or
    the options say to skip it. *)
Definition heap_insert (rel : RelationData) (tup : HeapTuple) (cid : CommandId)
    (options : Z) (b : option BulkInsertStateData) : PG unit :=
  do st <- gets (fun w => smgr w !! relNode (rd_node rel));
  match st with
  | None => ereport (ERRCODE_OTHER 58%N) "could not open file for relation %u"
                    [pretty (relNode (rd_node rel))]
  | Some s =>
      let stored := mkStoredTuple tup cid (negb (Z.land options HEAP_INSERT_FROZEN =? 0)) in
      run modify (set_smgr
            (insert (relNode (rd_node rel))
               (mkStorage (blocks s) (tuples s ++ [stored]) (Some 0%N) false)));
      run emit (EvHeapInsert (rd_node rel) tup cid options);
      if (Z.land options HEAP_INSERT_SKIP_WAL =? 0) && RelationNeedsWAL rel
      then emit (EvXLogInsert (rd_node rel) tup)
      else ret tt
  end.

(** Modelled from the spec: [heap_sync] forces all data written to the
    relation to stable storage before it returns. *)
Definition heap_sync (rel : RelationData) : PG unit :=
  run modify (set_smgr
        (alter (fun s => mkStorage (blocks s) (tuples s) (smgr_targblock s) true)
               (relNode (rd_node rel))));
  emit (EvHeapSync (rd_node rel)).

(** [copyObject]: a deep copy; values have no identity here. *)
Definition copyObject (q : Query) : Query := q.

Definition QueryRewrite (q : Query) : PG (list Query) :=
  run emit (EvQueryRewrite q);
  ret (QueryRewrite_result q).

(** [CHECK_FOR_INTERRUPTS]: a pending query cancel is taken here. *)
Definition CHECK_FOR_INTERRUPTS : PG unit :=
  run emit EvCheckForInterrupts;
  do pending <- gets QueryCancelPending;
  if pending
  then run modify (set_QueryCancelPending false);
       ereport ERRCODE_QUERY_CANCELED "canceling statement due to user request" []
  else ret tt.

Definition pg_plan_query (q : Query) (cursorOptions : Z) : PG PlannedStmt :=
  run emit (EvPlanQuery q);
  match pg_plan_query_result q with
  | inl e => rethrow e
  | inr plan => ret plan
  end.

(** *** The active-snapshot stack (utils/snapmgr) *)

Definition GetActiveSnapshot : PG SnapshotData :=
  do stack <- gets ActiveSnapshot;
  match stack with
  | [] => trap (TrapNullPointer "ActiveSnapshot")
  | s :: _ => ret s
  end.

Definition PushCopiedSnapshot (s : SnapshotData) : PG unit :=
  run modify (set_ActiveSnapshot (cons s));
  emit (EvPushSnapshot s).

Definition UpdateActiveSnapshotCommandId : PG unit :=
  do stack <- gets ActiveSnapshot;
  do cid <- GetCurrentCommandId false;
  match stack with
  | [] => trap (TrapNullPointer "ActiveSnapshot")
  | s :: rest =>
      run modify (set_ActiveSnapshot (fun _ => mkSnapshot (xmin s) (xmax s) cid :: rest));
      emit (EvUpdateSnapshotCommandId cid)
  end.

Definition PopActiveSnapshot : PG unit :=
  do stack <- gets ActiveSnapshot;
  match stack with
  | [] => trap (TrapNullPointer "ActiveSnapshot")
  | _ :: rest =>
      run modify (set_ActiveSnapshot (fun _ => rest));
      emit EvPopSnapshot
  end.

(** *** The executor *)

Inductive ScanDirection :=
| BackwardScanDirection | NoMovementScanDirection | ForwardScanDirection.

Definition InvalidSnapshot : option SnapshotData := None.

Definition CreateQueryDesc {S} (plan : PlannedStmt) (text : string)
    (snap : SnapshotData) (crosscheck : option SnapshotData)
    (d : DestReceiverObj S) (instrument : Z) : QueryDesc S :=
  mkQueryDesc plan text snap crosscheck d instrument.

(** Modelled from the spec: [ExecutorStart] prepares the plan; a failure
    of the defining query while starting up is raised here. *)
Definition ExecutorStart {S} (queryDesc : QueryDesc S) (eflags : Z) : PG unit :=
  run emit (EvExecutorStart (plannedstmt queryDesc) (snapshot queryDesc));
  match exec_start_error (ExecutePlan (plannedstmt queryDesc) (snapshot queryDesc)) with
  | Some e => rethrow e
  | None => ret tt
  end.

(** The receive-one calls of a run, in order. *)
Fixpoint send_rows {S} (r : DestReceiver S) (rows : list TupleTableSlot) (s : S) : PG S :=
  match rows with
  | [] => ret s
  | slot :: rest =>
      do s' <- receiveSlot r slot s;
      send_rows r rest s'
  end.

(** Modelled from the spec: [ExecutorRun] is
    [execute(plan, snapshot, sink)]: the engine drives the sink through
    open, receive for each row the plan emits, and close, in strict order;
    a failure of the plan is raised after the rows emitted before it and
    the sink is then not closed.  A count of zero means all rows. *)
Definition ExecutorRun {S} (queryDesc : QueryDesc S) (direction : ScanDirection)
    (count : Z) : PG (QueryDesc S) :=
  run emit (EvExecutorRun (plannedstmt queryDesc));
  let out := ExecutePlan (plannedstmt queryDesc) (snapshot queryDesc) in
  let rows := if count =? 0 then exec_rows out else take (Z.to_nat count) (exec_rows out) in
  let d := dest queryDesc in
  do s1 <- rStartup (pub d) (self d) 1 [];
  do s2 <- send_rows (pub d) rows s1;
  run match exec_run_error out with
      | Some e => rethrow e
      | None => ret tt
      end;
  do s3 <- rShutdown (pub d) s2;
  ret (mkQueryDesc (plannedstmt queryDesc) (sourceText queryDesc) (snapshot queryDesc)
                   (crosscheck_snapshot queryDesc) (set_self s3 d)
                   (instrument_options queryDesc)).

Definition ExecutorFinish {S} (queryDesc : QueryDesc S) : PG unit :=
  emit (EvExecutorFinish (plannedstmt queryDesc)).

Definition ExecutorEnd {S} (queryDesc : QueryDesc S) : PG unit :=
  emit (EvExecutorEnd (plannedstmt queryDesc)).

Definition FreeQueryDesc {S} (queryDesc : QueryDesc S) : PG unit := ret tt.

(** Reading through a pointer: NULL takes the backend down. *)
Definition deref {A} (p : option A) (text : string) : PG A :=
  match p with
  | Some a => ret a
  | None => trap (TrapNullPointer text)
  end.

(** *** matview.c *)

(** [SetMatViewToPopulated]: indicate that the materialized view has been
    populated by its query. *)
Definition SetMatViewToPopulated (relation : RelationData) : PG unit :=
  run Assert (bool_decide (relkind (rd_rel relation) = RELKIND_MATVIEW))
             "relation->rd_rel->relkind == RELKIND_MATVIEW";
  run Assert (bool_decide (rd_ispopulated relation = false))
             "relation->rd_ispopulated == false";
  let page := PageInit BLCKSZ 0 in
  run (if RelationNeedsWAL relation
       then log_newpage (rd_node relation) MAIN_FORKNUM 0%N page
       else ret tt);
  let rd_smgr := RelationOpenSmgr relation in
  let page := PageSetChecksumInplace page 0%N in
  run smgrextend rd_smgr MAIN_FORKNUM 0%N page true;
  run smgrimmedsync rd_smgr MAIN_FORKNUM;
  RelationCacheInvalidateEntry (rd_id relation).

(** [transientrel_startup] --- executor startup.  The descriptor kept in
    [transientrel] is the one [heap_open] returned. *)
Definition transientrel_startup (myState : DR_transientrel) (operation : Z)
    (typeinfo : TupleDesc) : PG DR_transientrel :=
  do transientrel <- heap_open (transientoid myState) NoLock;
  do cid <- GetCurrentCommandId true;
  let hi := Z.lor HEAP_INSERT_SKIP_FSM HEAP_INSERT_FROZEN in
  do needed <- gets XLogIsNeeded;
  let hi := if negb needed then Z.lor hi HEAP_INSERT_SKIP_WAL else hi in
  do bi <- GetBulkInsertState;
  let myState := mkDR (transientoid myState) (Some transientrel) cid hi (Some bi) in
  run SetMatViewToPopulated transientrel;
  do targ <- RelationGetTargetBlock transientrel;
  run Assert (bool_decide (targ = None))
             "RelationGetTargetBlock(transientrel) == InvalidBlockNumber";
  ret myState.

(** [transientrel_receive] --- receive one tuple. *)
Definition transientrel_receive (slot : TupleTableSlot) (myState : DR_transientrel)
    : PG DR_transientrel :=
  let tuple := ExecMaterializeSlot slot in
  do rel <- deref (transientrel myState) "myState->transientrel";
  run heap_insert rel tuple (output_cid myState) (hi_options myState) (bistate myState);
  ret myState.

(** [transientrel_shutdown] --- executor end. *)
Definition transientrel_shutdown (myState : DR_transientrel) : PG DR_transientrel :=
  run FreeBulkInsertState (bistate myState);
  run (if negb (Z.land (hi_options myState) HEAP_INSERT_SKIP_WAL =? 0)
       then do rel <- deref (transientrel myState) "myState->transientrel";
            heap_sync rel
       else ret tt);
  do rel <- deref (transientrel myState) "myState->transientrel";
  run heap_close rel NoLock;
  ret (mkDR (transientoid myState) None (output_cid myState) (hi_options myState)
            (bistate myState)).

(** [transientrel_destroy] --- release DestReceiver object. *)
Definition transientrel_destroy (myState : DR_transientrel) : PG unit := ret tt.

(** The function pointers [CreateTransientRelDestReceiver] stores in [pub]. *)
Definition transientrel_pub : DestReceiver DR_transientrel :=
  mkDestReceiver DR_transientrel
    transientrel_receive transientrel_startup transientrel_shutdown
    transientrel_destroy DestTransientRel.

(** [CreateTransientRelDestReceiver]: [palloc0] leaves every other member
    zero. *)
Definition CreateTransientRelDestReceiver (oid : Oid) : DestReceiverObj DR_transientrel :=
  mkDest transientrel_pub (mkDR oid None 0%N 0 None).

(** [Assert(strcmp(var->alias->aliasname, "name"))] for the range-table
    entry held in the C variable [var]: the condition is only evaluated
    when assertions are compiled in, it holds when [strcmp] returns
    non-zero, and its text is the condition as written in the source. *)
Definition Assert_strcmp_alias (rte : RangeTblEntry) (var name : string) : PG unit :=
  if USE_ASSERT_CHECKING
  then do a <- deref (alias rte) (var ++ "->alias");
       Assert (negb (strcmp (aliasname a) name =? 0))
              ("strcmp(" ++ var ++ "->alias->aliasname, " ++ dq ++ name ++ dq ++ ")")
  else ret tt.

Definition set_isResultRel (b : bool) (rte : RangeTblEntry) : RangeTblEntry :=
  mkRangeTblEntry (rte_relid rte) (alias rte) b.

(** [refresh_matview_datafill] *)
Definition refresh_matview_datafill {S} (d : DestReceiverObj S) (query : Query)
    (queryString : string) : PG unit :=
  do rewritten <- QueryRewrite (copyObject query);
  (* SELECT should never rewrite to more or less than one SELECT query *)
  run (if bool_decide (length rewritten <> 1%nat)
       then elog "unexpected rewrite result for REFRESH MATERIALIZED VIEW" []
       else ret tt);
  do query <- deref (head rewritten) "linitial(rewritten)";
  (* Check for user-requested abort. *)
  run CHECK_FOR_INTERRUPTS;
  let rt := rtable query in
  do initial_rte <- deref (head rt) "linitial(rtable)";
  run Assert_strcmp_alias initial_rte "initial_rte" "new";
  let initial_rte := set_isResultRel true initial_rte in
  do second_rte <- deref (rt !! 1%nat) "lsecond(rtable)";
  run Assert_strcmp_alias second_rte "second_rte" "old";
  let second_rte := set_isResultRel true second_rte in
  let query := mkQuery (commandType query) (initial_rte :: second_rte :: drop 2 rt)
                       (jointree query) in
  (* Plan the query which will generate data for the refresh. *)
  do plan <- pg_plan_query query 0;
  (* Use a snapshot with an updated command ID *)
  do active <- GetActiveSnapshot;
  run PushCopiedSnapshot active;
  run UpdateActiveSnapshotCommandId;
  (* Create a QueryDesc, redirecting output to our tuple receiver *)
  do active <- GetActiveSnapshot;
  let queryDesc := CreateQueryDesc plan queryString active InvalidSnapshot d 0 in
  (* call ExecutorStart to prepare the plan for execution *)
  run ExecutorStart queryDesc EXEC_FLAG_WITHOUT_OIDS;
  (* run the plan *)
  do queryDesc <- ExecutorRun queryDesc ForwardScanDirection 0;
  (* and clean up *)
  run ExecutorFinish queryDesc;
  run ExecutorEnd queryDesc;
  run FreeQueryDesc queryDesc;
  PopActiveSnapshot.

(** [ExecRefreshMatView] -- execute a REFRESH MATERIALIZED VIEW command. *)
Definition ExecRefreshMatView (stmt : RefreshMatViewStmt) (queryString : string) : PG unit :=
  (* Get a lock until end of transaction. *)
  do matviewOid <- RangeVarGetRelidExtended (relation stmt) AccessExclusiveLock
                     false false RangeVarCallbackOwnsTable;
  do matviewRel <- heap_open matviewOid NoLock;
  (* Make sure it is a materialized view. *)
  run (if bool_decide (relkind (rd_rel matviewRel) <> RELKIND_MATVIEW)
       then ereport ERRCODE_FEATURE_NOT_SUPPORTED
                    (dq ++ "%s" ++ dq ++ " is not a materialized view")
                    [RelationGetRelationName matviewRel]
       else ret tt);
  (* We're not using materialized views in the system catalogs. *)
  run Assert (negb (IsSystemRelation matviewRel)) "!IsSystemRelation(matviewRel)";
  run Assert (negb (relhasoids (rd_rel matviewRel))) "!matviewRel->rd_rel->relhasoids";
  (* Check that everything is correct for a refresh. Problems at this point
     are internal errors, so elog is sufficient. *)
  do missing <- (if bool_decide (relhasrules (rd_rel matviewRel) = false)
                 then ret true
                 else do locks <- deref (rd_rules matviewRel) "matviewRel->rd_rules";
                      ret (numLocks locks <? 1));
  run (if missing
       then elog ("materialized view " ++ dq ++ "%s" ++ dq ++ " is missing rewrite information")
                 [RelationGetRelationName matviewRel]
       else ret tt);
  do locks <- deref (rd_rules matviewRel) "matviewRel->rd_rules";
  run (if numLocks locks >? 1
       then elog ("materialized view " ++ dq ++ "%s" ++ dq ++ " has too many rules")
                 [RelationGetRelationName matviewRel]
       else ret tt);
  do rule <- deref (rules locks !! 0%nat) "matviewRel->rd_rules->rules[0]";
  run (if bool_decide (event rule <> CMD_SELECT) || negb (isInstead rule)
       then elog ("the rule for materialized view " ++ dq ++ "%s" ++ dq
                  ++ " is not a SELECT INSTEAD OF rule")
                 [RelationGetRelationName matviewRel]
       else ret tt);
  let acts := actions rule in
  run (if bool_decide (length acts <> 1%nat)
       then elog ("the rule for materialized view " ++ dq ++ "%s" ++ dq
                  ++ " is not a single action")
                 [RelationGetRelationName matviewRel]
       else ret tt);
  (* The stored query was rewritten at the time of the MV definition, but
     has not been scribbled on by the planner. *)
  do dataQuery <- deref (head acts) "linitial(actions)";
  run Assert true "IsA(dataQuery, Query)";
  (* Check for active uses of the relation in the current transaction. *)
  run CheckTableNotInUse matviewRel "REFRESH MATERIALIZED VIEW";
  let tableSpace := reltablespace (rd_rel matviewRel) in
  run heap_close matviewRel NoLock;
  (* Create the transient table that will receive the regenerated data. *)
  do OIDNewHeap <- make_new_heap matviewOid tableSpace;
  let d := CreateTransientRelDestReceiver OIDNewHeap in
  run (if negb (skipData stmt)
       then refresh_matview_datafill d dataQuery queryString
       else ret tt);
  (* Swap the physical files of the target and transient tables, then
     rebuild the target's indexes and throw away the transient table. *)
  do frozenXid <- gets RecentXmin;
  do cutoffMulti <- ReadNextMultiXactId;
  run finish_heap_swap matviewOid OIDNewHeap false false true true frozenXid cutoffMulti;
  RelationCacheInvalidateEntry matviewOid.

(** ** Reasoning tools *)

Lemma new_events_app (w w' : PgWorld) (evs : list Event) :
  log w' = log w ++ evs -> new_events w w' = evs.
Proof.
  intros H. unfold new_events. rewrite H. apply drop_app_length.
Qed.

Ltac pg_monad := unfold deref, emit, elog, ereport, rethrow, trap, modify, gets, bind, ret in *.

(** Unfolding of the collaborators, which are all straight-line. *)
Ltac pg_prims :=
  unfold Assert_strcmp_alias, Assert,
    RangeVarGetRelidExtended, RangeVarCallbackOwnsTable, make_new_heap, finish_heap_swap,
    CheckTableNotInUse, RelationCacheInvalidateEntry, heap_open, heap_close,
    ReadNextMultiXactId, log_newpage, RelationOpenSmgr, smgrextend, smgrimmedsync,
    GetBulkInsertState, FreeBulkInsertState, RelationGetTargetBlock,
    heap_insert, heap_sync, QueryRewrite, CHECK_FOR_INTERRUPTS, pg_plan_query,
    GetActiveSnapshot, PushCopiedSnapshot, UpdateActiveSnapshotCommandId, PopActiveSnapshot,
    ExecutorStart, ExecutorFinish, ExecutorEnd, FreeQueryDesc, CreateQueryDesc,
    GetCurrentCommandId in *;
  pg_monad.

(** Case analysis on the innermost scrutinee the run in [H] is stuck on. *)
Ltac pg_case H :=
  match type of H with
  | context [match ?x with _ => _ end] =>
      lazymatch x with
      | context [match _ with _ => _ end] => fail
      | context [send_rows] => fail
      | bool_decide ?P =>
          let Hp := fresh "Hp" in
          destruct (bool_decide_reflect P) as [Hp|Hp];
          [ try (exfalso; done) | try (exfalso; apply Hp; done) ]
      | USE_ASSERT_CHECKING =>
          let b := fresh "b" in remember x as b eqn:? in *; destruct b
      | _ =>
          lazymatch type of x with
          | PgWorld => fail
          | _ => tryif is_var x then destruct x else destruct x eqn:?
          end
      end
  end.

(** The end of a path: the run in [H] has become a value. *)
Ltac pg_done H :=
  lazymatch type of H with
  | (_, _) = (?r, ?w') =>
      let Hr := fresh "Hr" in
      let Hw := fresh "Hw" in
      injection H as Hr Hw; subst r w'
  end.

(** Normal form of a log that grew by appending. *)
Ltac log_norm := rewrite <- ?app_assoc; cbn [app].

(** One explicit event list is a prefix of another. *)
Ltac prefix_solve :=
  repeat first [ apply prefix_nil | reflexivity | apply prefix_cons
               | apply prefix_app | apply prefix_app_r ].

(** Reading a field of a state that was built by the setters. *)
Ltac world_cbn :=
  cbn [log set_log set_smgr set_relcache set_ActiveSnapshot set_QueryCancelPending
       relcache smgr relnames in_use userid wal_level
       QueryCancelPending currentCommandId ActiveSnapshot RecentXmin nextMXact].
Ltac world_cbn_in H :=
  cbn [log set_log set_smgr set_relcache set_ActiveSnapshot set_QueryCancelPending
       relcache smgr relnames in_use userid wal_level
       QueryCancelPending currentCommandId ActiveSnapshot RecentXmin nextMXact] in H.

(** Closes a goal whose result is known both to be and not to be [Ok]. *)
Ltac not_ok :=
  match goal with
  | Hn : forall _, Ok _ <> Ok _ |- _ => destruct (Hn _ eq_refl)
  | Hn : forall _, ?r <> Ok _, Hr : ?r = Ok _ |- _ => destruct (Hn _ Hr)
  end.

(** *** The receive loop of the transient receiver, in closed form *)

Definition stored_of (st : DR_transientrel) (slot : TupleTableSlot) : StoredTuple :=
  mkStoredTuple (ExecMaterializeSlot slot) (output_cid st)
                (negb (Z.land (hi_options st) HEAP_INSERT_FROZEN =? 0)).

Definition insert_events (st : DR_transientrel) (rel : RelationData)
    (slot : TupleTableSlot) : list Event :=
  EvHeapInsert (rd_node rel) (ExecMaterializeSlot slot) (output_cid st) (hi_options st)
  :: (if (Z.land (hi_options st) HEAP_INSERT_SKIP_WAL =? 0) && RelationNeedsWAL rel
      then [EvXLogInsert (rd_node rel) (ExecMaterializeSlot slot)]
      else []).

Fixpoint received_storage (st : DR_transientrel) (rows : list TupleTableSlot)
    (s : Storage) : Storage :=
  match rows with
  | [] => s
  | slot :: rest =>
      received_storage st rest
        (mkStorage (blocks s) (tuples s ++ [stored_of st slot]) (Some 0%N) false)
  end.

Lemma received_storage_blocks st rows s :
  blocks (received_storage st rows s) = blocks s.
Proof. revert s. induction rows as [|slot rows IH]; intros s; simpl; [easy|]. now rewrite IH. Qed.

Lemma received_storage_tuples st rows s :
  tuples (received_storage st rows s) = tuples s ++ map (stored_of st) rows.
Proof.
  revert s. induction rows as [|slot rows IH]; intros s; simpl.
  - now rewrite app_nil_r.
  - rewrite IH. simpl. now rewrite <- app_assoc.
Qed.

Definition received_world (st : DR_transientrel) (rel : RelationData)
    (rows : list TupleTableSlot) (s : Storage) (w : PgWorld) : PgWorld :=
  set_log (fun l => l ++ flat_map (insert_events st rel) rows)
          (set_smgr (insert (relNode (rd_node rel)) (received_storage st rows s)) w).

Lemma send_rows_transient (rows : list TupleTableSlot) :
  forall (st : DR_transientrel) (rel : RelationData) (s : Storage) (w : PgWorld),
    transientrel st = Some rel ->
    smgr w !! relNode (rd_node rel) = Some s ->
    send_rows transientrel_pub rows st w = (Ok st, received_world st rel rows s w).
Proof.
  induction rows as [|slot rows IH]; intros st rel s w Hrel Hs.
  - simpl. unfold ret, received_world. simpl. f_equal.
    destruct w; unfold set_log, set_smgr; simpl in *. f_equal.
    + symmetry. now apply insert_id.
    + now rewrite app_nil_r.
  - simpl. unfold bind at 1, transientrel_receive at 1. rewrite Hrel. simpl.
    unfold heap_insert. pg_monad. simpl. rewrite Hs. simpl.
    set (wal := (Z.land (hi_options st) HEAP_INSERT_SKIP_WAL =? 0) && RelationNeedsWAL rel).
    assert (Hw : insert_events st rel slot =
                 EvHeapInsert (rd_node rel) (ExecMaterializeSlot slot) (output_cid st) (hi_options st)
                 :: (if wal then [EvXLogInsert (rd_node rel) (ExecMaterializeSlot slot)] else []))
      by reflexivity.
    destruct wal; simpl.
    all: erewrite (IH st rel) by (try eassumption; simpl; apply lookup_insert_eq).
    all: f_equal; unfold received_world; cbn [flat_map]; rewrite Hw.
    all: destruct w; unfold set_log, set_smgr; simpl; f_equal.
    all: try (now rewrite insert_insert_eq).
    all: now rewrite <- !app_assoc.
Qed.

(** *** One run of the executor into the transient receiver *)

Definition empty_checksummed_page : Page := PageSetChecksumInplace (PageInit BLCKSZ 0) 0%N.

(** The options [transientrel_startup] selects in state [w]. *)
Definition started_options (w : PgWorld) : Z :=
  if negb (XLogIsNeeded w)
  then Z.lor (Z.lor HEAP_INSERT_SKIP_FSM HEAP_INSERT_FROZEN) HEAP_INSERT_SKIP_WAL
  else Z.lor HEAP_INSERT_SKIP_FSM HEAP_INSERT_FROZEN.

(** The receiver state [transientrel_startup] leaves when it succeeds. *)
Definition started_sink (oid : Oid) (rel : RelationData) (w : PgWorld) : DR_transientrel :=
  mkDR oid (Some rel) (currentCommandId w) (started_options w) (Some (mkBulkInsertState 0)).

Lemma started_sink_same (oid : Oid) (rel : RelationData) (w1 w : PgWorld) :
  currentCommandId w1 = currentCommandId w ->
  wal_level w1 = wal_level w ->
  started_sink oid rel w1 = started_sink oid rel w.
Proof.
  intros Hc Hl. unfold started_sink, started_options, XLogIsNeeded. now rewrite Hc, Hl.
Qed.

Definition sink_open_events (oid : Oid) (rel : RelationData) : list Event :=
  [EvHeapOpen oid; EvGetBulkInsertState]
  ++ (if RelationNeedsWAL rel
      then [EvLogNewPage (rd_node rel) MAIN_FORKNUM 0%N (PageInit BLCKSZ 0)]
      else [])
  ++ [EvSmgrExtend (rd_node rel) MAIN_FORKNUM 0%N empty_checksummed_page true;
      EvSmgrImmedSync (rd_node rel) MAIN_FORKNUM;
      EvRelationCacheInvalidate (rd_id rel)].

Definition sink_close_events (st : DR_transientrel) (rel : RelationData) : list Event :=
  [EvFreeBulkInsertState]
  ++ (if negb (Z.land (hi_options st) HEAP_INSERT_SKIP_WAL =? 0)
      then [EvHeapSync (rd_node rel)]
      else [])
  ++ [EvHeapClose (rd_id rel)].

(** Everything a complete open / receive / close sequence records. *)
Definition sink_events (st : DR_transientrel) (rel : RelationData)
    (rows : list TupleTableSlot) : list Event :=
  sink_open_events (transientoid st) rel
  ++ flat_map (insert_events st rel) rows
  ++ sink_close_events st rel.

(** The storage a complete sequence leaves, from storage [s]. *)
Definition sink_final_storage (st : DR_transientrel) (rows : list TupleTableSlot)
    (s : Storage) : Storage :=
  let opened := mkStorage (write_block 0 empty_checksummed_page (blocks s))
                          (tuples s) (smgr_targblock s) true in
  let filled := received_storage st rows opened in
  if negb (Z.land (hi_options st) HEAP_INSERT_SKIP_WAL =? 0)
  then mkStorage (blocks filled) (tuples filled) (smgr_targblock filled) true
  else filled.

(** Session state that no part of the refresh writes. *)
Definition same_session (w w' : PgWorld) : Prop :=
  relnames w' = relnames w /\ in_use w' = in_use w /\ userid w' = userid w
  /\ wal_level w' = wal_level w /\ currentCommandId w' = currentCommandId w
  /\ RecentXmin w' = RecentXmin w /\ nextMXact w' = nextMXact w.

(** Relations and storage other than relation [oid] and storage [node]
    are as they were; of relation [oid] at most [rd_ispopulated] changed. *)
Definition storage_frame (oid node : N) (w w' : PgWorld) : Prop :=
  (forall o, o <> oid -> relcache w' !! o = relcache w !! o)
  /\ match relcache w !! oid with
     | Some r0 => exists b, relcache w' !! oid = Some (set_rd_ispopulated b r0)
     | None => relcache w' !! oid = None
     end
  /\ (forall n, n <> node -> smgr w' !! n = smgr w !! n).

Lemma set_rd_ispopulated_id (r : RelationData) :
  set_rd_ispopulated (rd_ispopulated r) r = r.
Proof. now destruct r. Qed.

Lemma same_session_refl w : same_session w w.
Proof. repeat split. Qed.

Lemma storage_frame_refl oid node w : storage_frame oid node w w.
Proof.
  repeat split. destruct (relcache w !! oid) as [r0|] eqn:E; [|easy].
  exists (rd_ispopulated r0). now rewrite set_rd_ispopulated_id.
Qed.

Ltac neq_solve := first [ assumption | apply not_eq_sym; assumption | congruence ].

Ltac lookup_ne :=
  repeat first [ rewrite lookup_alter_ne by (neq_solve)
               | rewrite lookup_insert_ne by (neq_solve)
               | rewrite lookup_delete_ne by (neq_solve) ].

Ltac frame_solve :=
  lazymatch goal with
  | |- same_session _ _ => repeat split
  | |- storage_frame _ _ _ _ =>
      unfold storage_frame;
      cbn [relcache smgr set_log set_smgr set_relcache set_ActiveSnapshot
           set_QueryCancelPending];
      split; [|split];
      [ intros; lookup_ne; reflexivity
      | match goal with
        | |- match ?x with _ => _ end =>
            let E := fresh "E" in
            destruct x as [?r|] eqn:E;
            [ first [ eexists; rewrite lookup_alter_eq, E; reflexivity
                    | eexists; rewrite set_rd_ispopulated_id; reflexivity ]
            | first [ reflexivity | rewrite lookup_alter_eq, E; reflexivity ] ]
        end
      | intros; lookup_ne; reflexivity ]
  end.

Lemma ExecutorRun_transient_spec (oid : Oid) (plan : PlannedStmt) (text : string)
    (snap : SnapshotData) (cross : option SnapshotData) (instr : Z) (w : PgWorld)
    (r : Result (QueryDesc DR_transientrel)) (w' : PgWorld) :
  let out := ExecutePlan plan snap in
  ExecutorRun (mkQueryDesc plan text snap cross (CreateTransientRelDestReceiver oid) instr)
              ForwardScanDirection 0 w = (r, w') ->
  exists evs,
    log w' = log w ++ EvExecutorRun plan :: evs
    /\ same_session w w'
    /\ ActiveSnapshot w' = ActiveSnapshot w
    /\ QueryCancelPending w' = QueryCancelPending w
    /\ match relcache w !! oid with
       | None => evs = [] /\ relcache w' = relcache w /\ smgr w' = smgr w
                 /\ forall a, r <> Ok a
       | Some rel =>
           let st := started_sink oid rel w in
           evs `prefix_of` sink_events st rel (exec_rows out)
           /\ storage_frame (rd_id rel) (relNode (rd_node rel)) w w'
           /\ forall a, r = Ok a ->
                plannedstmt a = plan
                /\ evs = sink_events st rel (exec_rows out)
                /\ exec_run_error out = None
                /\ exists s, smgr w !! relNode (rd_node rel) = Some s
                     /\ smgr w' !! relNode (rd_node rel)
                        = Some (sink_final_storage st (exec_rows out) s)
       end.
Proof.
  intros out H.
  unfold ExecutorRun, CreateTransientRelDestReceiver in H.
  cbn [dest pub self plannedstmt snapshot rStartup rShutdown transientrel_pub Z.eqb] in H.
  fold out in H.
  unfold transientrel_startup, transientrel_shutdown, SetMatViewToPopulated in H.
  pg_prims. cbn [transientoid] in H.
  cbn -[send_rows] in H.
  unfold XLogIsNeeded in *.
  repeat (first [ progress rewrite ?lookup_alter_eq, ?lookup_insert_eq in H
                | erewrite send_rows_transient in H
                    by (cbn; rewrite ?lookup_alter_eq, ?lookup_insert_eq; cbn; reflexivity)
                | pg_case H ];
          cbn -[send_rows] in H).
  all: try pg_done H.
  all: try solve [ match goal with
                   | E : negb (Z.land _ _ =? 0) = _ |- _ => vm_compute in E; discriminate
                   end ].
  all: unfold received_world, sink_events, sink_open_events, sink_close_events,
         sink_final_storage, started_sink, started_options, empty_checksummed_page,
         XLogIsNeeded;
       cbn [log set_log set_smgr set_relcache relcache smgr relnames in_use userid wal_level
            QueryCancelPending currentCommandId ActiveSnapshot RecentXmin nextMXact
            transientoid hi_options N.to_nat].
  all: repeat match goal with
         | E : ?x = true |- context [?x] => rewrite E
         | E : ?x = false |- context [?x] => rewrite E
         end.
  all: cbn [negb app].
  all: eexists; split; [log_norm; reflexivity|].
  all: split; [repeat split|].
  all: split; [reflexivity|].
  all: split; [reflexivity|].
  all: try (split; [reflexivity|split; [reflexivity|split; [reflexivity|intros ? [=]]]]).
  all: split; [solve [prefix_solve]|].
  all: split; [frame_solve|].
  all: intros a0 Ha; try discriminate Ha; injection Ha as <-.
  all: split; [reflexivity|].
  all: split; [reflexivity|split; [reflexivity|eexists; split; [reflexivity|]]].
  all: rewrite ?lookup_alter_eq, ?lookup_insert_eq; cbn; reflexivity.
Qed.

(** *** One data fill into the transient receiver *)

(** The rewritten query as the planner gets it: its first two range-table
    entries flagged as result relations. *)
Definition mark_result_rels (q0 : Query) (r1 r2 : RangeTblEntry) : Query :=
  mkQuery (commandType q0)
          (set_isResultRel true r1 :: set_isResultRel true r2 :: drop 2 (rtable q0))
          (jointree q0).

Definition datafill_head (q q' : Query) : list Event :=
  [EvQueryRewrite q; EvCheckForInterrupts; EvPlanQuery q'].

Definition pushed_snapshot (s : SnapshotData) (w : PgWorld) : SnapshotData :=
  mkSnapshot (xmin s) (xmax s) (currentCommandId w).

Definition datafill_push (s : SnapshotData) (w : PgWorld) (plan : PlannedStmt) : list Event :=
  [EvPushSnapshot s; EvUpdateSnapshotCommandId (currentCommandId w);
   EvExecutorStart plan (pushed_snapshot s w)].

Definition datafill_tail (plan : PlannedStmt) : list Event :=
  [EvExecutorFinish plan; EvExecutorEnd plan; EvPopSnapshot].

(** What a data fill started in [w] can record, by how far it got. *)
Inductive datafill_trace (oid : Oid) (w : PgWorld) (q : Query)
  : Result unit -> list Event -> Prop :=
| DT_rewrite r :
    (forall a, r <> Ok a) ->
    length (QueryRewrite_result q) <> 1%nat ->
    r = Raised (mkErrorData ERROR ERRCODE_INTERNAL_ERROR
                  "unexpected rewrite result for REFRESH MATERIALIZED VIEW" []) ->
    datafill_trace oid w q r [EvQueryRewrite q]
| DT_interrupt r q0 :
    (forall a, r <> Ok a) ->
    QueryRewrite_result q = [q0] ->
    datafill_trace oid w q r [EvQueryRewrite q; EvCheckForInterrupts]
| DT_plan r q0 r1 r2 :
    (forall a, r <> Ok a) ->
    QueryRewrite_result q = [q0] ->
    head (rtable q0) = Some r1 ->
    rtable q0 !! 1%nat = Some r2 ->
    datafill_trace oid w q r (datafill_head q (mark_result_rels q0 r1 r2))
| DT_start r q0 r1 r2 s plan :
    (forall a, r <> Ok a) ->
    QueryRewrite_result q = [q0] ->
    head (rtable q0) = Some r1 ->
    rtable q0 !! 1%nat = Some r2 ->
    pg_plan_query_result (mark_result_rels q0 r1 r2) = inr plan ->
    head (ActiveSnapshot w) = Some s ->
    datafill_trace oid w q r
      (datafill_head q (mark_result_rels q0 r1 r2) ++ datafill_push s w plan)
| DT_run r q0 r1 r2 s plan sevs :
    (forall a, r <> Ok a) ->
    QueryRewrite_result q = [q0] ->
    head (rtable q0) = Some r1 ->
    rtable q0 !! 1%nat = Some r2 ->
    pg_plan_query_result (mark_result_rels q0 r1 r2) = inr plan ->
    head (ActiveSnapshot w) = Some s ->
    match relcache w !! oid with
    | None => sevs = []
    | Some rel =>
        sevs `prefix_of`
          sink_events (started_sink oid rel w) rel
                      (exec_rows (ExecutePlan plan (pushed_snapshot s w)))
    end ->
    datafill_trace oid w q r
      (datafill_head q (mark_result_rels q0 r1 r2) ++ datafill_push s w plan
       ++ EvExecutorRun plan :: sevs)
| DT_done q0 r1 r2 s plan rel :
    QueryRewrite_result q = [q0] ->
    head (rtable q0) = Some r1 ->
    rtable q0 !! 1%nat = Some r2 ->
    pg_plan_query_result (mark_result_rels q0 r1 r2) = inr plan ->
    head (ActiveSnapshot w) = Some s ->
    relcache w !! oid = Some rel ->
    datafill_trace oid w q (Ok tt)
      (datafill_head q (mark_result_rels q0 r1 r2) ++ datafill_push s w plan
       ++ EvExecutorRun plan
          :: sink_events (started_sink oid rel w) rel
                         (exec_rows (ExecutePlan plan (pushed_snapshot s w)))
       ++ datafill_tail plan).

Ltac fold_datafill :=
  repeat match goal with
    | |- context [mkQuery (commandType ?q0)
                    (set_isResultRel true ?a :: set_isResultRel true ?b :: drop 2 (rtable ?q0))
                    (jointree ?q0)] =>
        change (mkQuery (commandType q0)
                  (set_isResultRel true a :: set_isResultRel true b :: drop 2 (rtable q0))
                  (jointree q0))
          with (mark_result_rels q0 a b) in *
    | |- context [mkSnapshot (xmin ?s) (xmax ?s) (currentCommandId ?w)] =>
        change (mkSnapshot (xmin s) (xmax s) (currentCommandId w))
          with (pushed_snapshot s w) in *
    end.

Lemma length_one {A} (l : list A) : length l = 1%nat -> exists x, l = [x].
Proof. destruct l as [|x [|y l]]; simpl; try discriminate. eauto. Qed.

Lemma refresh_matview_datafill_spec (oid : Oid) (q : Query) (qs : string)
    (w : PgWorld) (r : Result unit) (w' : PgWorld) :
  refresh_matview_datafill (CreateTransientRelDestReceiver oid) q qs w = (r, w') ->
  exists evs,
    log w' = log w ++ evs
    /\ same_session w w'
    /\ datafill_trace oid w q r evs
    /\ match relcache w !! oid with
       | None => relcache w' = relcache w /\ smgr w' = smgr w /\ forall a, r <> Ok a
       | Some rel =>
           storage_frame (rd_id rel) (relNode (rd_node rel)) w w'
           /\ forall a, r = Ok a ->
                ActiveSnapshot w' = ActiveSnapshot w
                /\ QueryCancelPending w' = QueryCancelPending w
                /\ exists s0 plan snap,
                     In (EvExecutorStart plan snap) evs
                     /\ exec_start_error (ExecutePlan plan snap) = None
                     /\ exec_run_error (ExecutePlan plan snap) = None
                     /\ smgr w !! relNode (rd_node rel) = Some s0
                     /\ smgr w' !! relNode (rd_node rel)
                        = Some (sink_final_storage (started_sink oid rel w)
                                  (exec_rows (ExecutePlan plan snap)) s0)
       end.
Proof.
  intros H.
  destruct (relcache w !! oid) as [rel|] eqn:Hoid.
  all: unfold refresh_matview_datafill in H; pg_prims; unfold copyObject in H.
  all: destruct (QueryRewrite_result q) as [|q0 [|q1 ql]] eqn:Hrw.
  all: cbn -[ExecutorRun] in H.
  all: repeat (first
            [ match goal with
              | Hs : ActiveSnapshot ?w2 = _ |- _ => progress rewrite Hs in H
              end
            | match type of H with
              | context [ExecutorRun ?qd ?d ?c ?w1] =>
                  let Hrun := fresh "Hrun" in
                  destruct (ExecutorRun qd d c w1) as [?r ?w2] eqn:Hrun;
                  apply ExecutorRun_transient_spec in Hrun;
                  destruct Hrun as (sevs & Hlog & Hsess & Hsnap & Hqcp & Hrel);
                  unfold same_session in Hsess;
                  world_cbn_in Hlog; world_cbn_in Hsess; world_cbn_in Hsnap;
                  world_cbn_in Hqcp; world_cbn_in Hrel;
                  rewrite Hoid in Hrel;
                  try rewrite (started_sink_same oid rel w1 w) in Hrel by reflexivity
              end
            | pg_case H ];
          cbn -[ExecutorRun] in H).
  all: try pg_done H.
  all: world_cbn.
  all: try rewrite Hlog.
  all: eexists; split; [log_norm; reflexivity|].
  all: split; [first [ solve [repeat split]
                     | destruct Hsess as (?&?&?&?&?&?&?);
                       unfold same_session; world_cbn; repeat split; congruence ]|].
  all: try (destruct Hrel as (-> & Hrc & Hsm & Hnok)).
  all: try (destruct Hrel as (Hpre & Hframe & Hok)).
  all: try solve [exfalso; eapply Hnok; reflexivity].
  all: try (destruct (Hok _ eq_refl) as (Hplan & -> & Hnoerr & s0 & Hs0 & Hfinal);
            clear Hok; rewrite Hplan).
  all: fold_datafill.
  all: split;
       [ solve [ econstructor;
                 first [ eassumption | (intros ? ?; discriminate)
                       | reflexivity
                       | (rewrite Hrw; cbn; discriminate)
                       | rewrite Hoid; first [eassumption | reflexivity]
                       | match goal with
                         | Hs : ActiveSnapshot _ = _ :: _ |- _ =>
                             world_cbn_in Hs; rewrite Hs; reflexivity
                         end ] ] |].
  all: try solve [ split; [frame_solve | intros ? [=]] ].
  all: try solve [ split; [reflexivity | split; [reflexivity | intros ? ?; discriminate]] ].
  all: try solve [ world_cbn; split; [exact Hrc | split; [exact Hsm | intros ? ?; discriminate]] ].
  all: split; [unfold storage_frame in *; world_cbn; world_cbn_in Hframe; exact Hframe|].
  all: intros ? Hx; try discriminate Hx.
  all: split; [reflexivity|split; [congruence|]].
  all: exists s0, p, (pushed_snapshot s w).
  all: split; [do 5 right; left; reflexivity|].
  all: split; [assumption|split; [assumption|split; [assumption|exact Hfinal]]].
Qed.

(** *** The whole refresh *)

Lemma used_ids_oid (w : PgWorld) (oid : Oid) (rel : RelationData) :
  relcache w !! oid = Some rel -> oid ∈ used_ids w.
Proof.
  intros H. unfold used_ids. apply elem_of_union_l, elem_of_union_l, elem_of_union_r.
  apply elem_of_dom. eauto.
Qed.

Lemma used_ids_node (w : PgWorld) (oid : Oid) (rel : RelationData) :
  relcache w !! oid = Some rel -> relNode (rd_node rel) ∈ used_ids w.
Proof.
  intros H. unfold used_ids. apply elem_of_union_r.
  apply elem_of_map_img. exists oid. rewrite lookup_fmap, H. reflexivity.
Qed.


Lemma fresh_not_used (w : PgWorld) : fresh (used_ids w) ∉ used_ids w.
Proof. apply is_fresh. Qed.

Lemma fresh_oid_neq (w : PgWorld) (oid : Oid) (rel : RelationData) :
  relcache w !! oid = Some rel ->
  fresh (used_ids w) <> oid /\ fresh (used_ids w) <> relNode (rd_node rel).
Proof.
  intros H. pose proof (fresh_not_used w) as Hf. split; intros E; apply Hf; rewrite E.
  - eapply used_ids_oid; eauto.
  - eapply used_ids_node; eauto.
Qed.



Lemma fresh_neq_oid (w : PgWorld) (oid : Oid) (rel : RelationData) :
  relcache w !! oid = Some rel -> fresh (used_ids w) <> oid.
Proof. intros H. now apply (fresh_oid_neq w oid rel). Qed.

Lemma fresh_neq_node (w : PgWorld) (oid : Oid) (rel : RelationData) :
  relcache w !! oid = Some rel -> fresh (used_ids w) <> relNode (rd_node rel).
Proof. intros H. now apply (fresh_oid_neq w oid rel). Qed.

Lemma used_ids_set_log (f : list Event -> list Event) (w : PgWorld) :
  used_ids (set_log f w) = used_ids w.
Proof. reflexivity. Qed.

Ltac fresh_neq :=
  first [ assumption | apply not_eq_sym; assumption
        | eapply fresh_neq_oid; eassumption
        | apply not_eq_sym; eapply fresh_neq_oid; eassumption
        | eapply fresh_neq_node; eassumption
        | apply not_eq_sym; eapply fresh_neq_node; eassumption ].

Ltac lookup_solve :=
  world_cbn;
  repeat first [ rewrite lookup_alter_eq | rewrite lookup_delete_eq | rewrite lookup_insert_eq
               | rewrite lookup_alter_ne by (fresh_neq)
               | rewrite lookup_delete_ne by (fresh_neq)
               | rewrite lookup_insert_ne by (fresh_neq) ].

Definition refresh_prefix (oid : Oid) (rel : RelationData) (new : Oid) : list Event :=
  [EvLockRelation oid AccessExclusiveLock; EvHeapOpen oid; EvHeapClose (rd_id rel);
   EvHeapOpen oid; EvMakeNewHeap oid new (reltablespace (rd_rel rel));
   EvHeapClose (rd_id rel)].

Definition refresh_suffix (oid new : Oid) (w : PgWorld) : list Event :=
  [EvFinishHeapSwap oid new (RecentXmin w) (nextMXact w);
   EvRelationCacheInvalidate oid].

(** The state [w1] in which the data fill starts: [w] with the transient
    heap [heap] made under the OID [new]. *)
Definition fill_start (w : PgWorld) (new : Oid) (heap : RelationData) (w1 : PgWorld) : Prop :=
  currentCommandId w1 = currentCommandId w
  /\ wal_level w1 = wal_level w
  /\ ActiveSnapshot w1 = ActiveSnapshot w
  /\ relcache w1 !! new = Some heap
  /\ smgr w1 !! new = Some empty_storage.

(** What the view's storage holds after a refresh that ran plan [rows]. *)
Definition refreshed_view (rel heap : RelationData) (filled : Storage) : RelationData :=
  set_rd_ispopulated (storage_is_populated (relkind (rd_rel rel)) (Some filled))
                     (set_rd_node (rd_node heap) rel).

(** The query a refresh of [rel] runs: the only action of the only rule,
    a SELECT INSTEAD rule, as the validation reads them off the
    descriptor. *)
Definition refresh_query (rel : RelationData) (q : Query) : Prop :=
  relhasrules (rd_rel rel) = true
  /\ exists locks rule,
       rd_rules rel = Some locks
       /\ numLocks locks = 1
       /\ rules locks !! 0%nat = Some rule
       /\ event rule = CMD_SELECT /\ isInstead rule = true
       /\ actions rule = [q].

Lemma refresh_query_intro (rel : RelationData) (locks : RuleLock)
    (rule : RewriteRule) (q : Query) :
  relhasrules (rd_rel rel) <> false ->
  rd_rules rel = Some locks ->
  (numLocks locks <? 1) = false ->
  (numLocks locks >? 1) = false ->
  rules locks !! 0%nat = Some rule ->
  bool_decide (event rule <> CMD_SELECT) || negb (isInstead rule) = false ->
  ~ length (actions rule) <> 1%nat ->
  head (actions rule) = Some q ->
  refresh_query rel q.
Proof.
  intros Hhas Hrules Hlt Hgt Hrule Hsel Hlen Hq.
  split; [now destruct (relhasrules (rd_rel rel))|].
  exists locks, rule.
  apply Z.ltb_ge in Hlt. rewrite Z.gtb_ltb in Hgt. apply Z.ltb_ge in Hgt.
  apply orb_false_elim in Hsel as [Hev Hins].
  apply bool_decide_eq_false in Hev. apply negb_false_iff in Hins.
  repeat split; try assumption.
  - lia.
  - destruct (decide (event rule = CMD_SELECT)); [assumption | contradiction].
  - destruct (actions rule) as [|a [|b l]]; cbn in *;
      [discriminate | congruence | exfalso; apply Hlen; discriminate].
Qed.

(** The ways a refresh started in [w] can end. *)
Inductive refresh_outcome (stmt : RefreshMatViewStmt) (w : PgWorld)
  : Result unit -> PgWorld -> list Event -> Prop :=
| RO_rejected r w' evs oid :
    (forall a, r <> Ok a) ->
    relcache w' = relcache w -> smgr w' = smgr w ->
    ActiveSnapshot w' = ActiveSnapshot w ->
    QueryCancelPending w' = QueryCancelPending w ->
    evs `prefix_of` [EvLockRelation oid AccessExclusiveLock; EvHeapOpen oid] ->
    refresh_outcome stmt w r w' evs
| RO_aborted r w' oid rel q w1 devs :
    let new := fresh (used_ids w) in
    let ts := reltablespace (rd_rel rel) in
    (forall a, r <> Ok a) ->
    skipData stmt = false ->
    relnames w !! rv_relname (relation stmt) = Some oid ->
    relcache w !! oid = Some rel ->
    rd_id rel ∉ in_use w ->
    fill_start w new (new_heap_of rel oid new ts) w1 ->
    datafill_trace new w1 q r devs ->
    (forall o, o <> new -> relcache w' !! o = relcache w !! o) ->
    (forall n, n <> new -> smgr w' !! n = smgr w !! n) ->
    refresh_query rel q ->
    refresh_outcome stmt w r w' (refresh_prefix oid rel new ++ devs)
| RO_refreshed w' oid rel q w1 devs filled :
    let new := fresh (used_ids w) in
    let ts := reltablespace (rd_rel rel) in
    let heap := new_heap_of rel oid new ts in
    relnames w !! rv_relname (relation stmt) = Some oid ->
    relcache w !! oid = Some rel ->
    relkind (rd_rel rel) = RELKIND_MATVIEW ->
    rd_id rel ∉ in_use w ->
    fill_start w new heap w1 ->
    (if skipData stmt
     then devs = [] /\ filled = empty_storage
     else datafill_trace new w1 q (Ok tt) devs
          /\ exists plan snap,
               In (EvExecutorStart plan snap) devs
               /\ exec_start_error (ExecutePlan plan snap) = None
               /\ exec_run_error (ExecutePlan plan snap) = None
               /\ filled = sink_final_storage (started_sink new heap w)
                             (exec_rows (ExecutePlan plan snap)) empty_storage) ->
    relcache w' !! oid = Some (refreshed_view rel heap filled) ->
    relcache w' !! new = None ->
    (forall o, o <> oid -> o <> new -> relcache w' !! o = relcache w !! o) ->
    smgr w' !! new = Some filled ->
    smgr w' !! relNode (rd_node rel) = None ->
    (forall n, n <> new -> n <> relNode (rd_node rel) -> smgr w' !! n = smgr w !! n) ->
    ActiveSnapshot w' = ActiveSnapshot w ->
    QueryCancelPending w' = QueryCancelPending w ->
    refresh_query rel q ->
    refresh_outcome stmt w (Ok tt) w' (refresh_prefix oid rel new ++ devs ++ refresh_suffix oid new w).

Lemma ExecRefreshMatView_spec (stmt : RefreshMatViewStmt) (qs : string)
    (w : PgWorld) (r : Result unit) (w' : PgWorld) :
  ExecRefreshMatView stmt qs w = (r, w') ->
  exists evs,
    log w' = log w ++ evs /\ same_session w w' /\ refresh_outcome stmt w r w' evs.
Proof.
  intros H.
  unfold ExecRefreshMatView in H. pg_prims.
  cbn -[refresh_matview_datafill used_ids new_heap_of] in H.
  destruct (skipData stmt) eqn:Hskip.
  all: cbn -[refresh_matview_datafill used_ids new_heap_of] in H.
  all: repeat (first
            [ match goal with
              | E : Some ?a = Some ?b |- _ =>
                  injection E as E; first [subst a | subst b]
              end
            | progress rewrite ?used_ids_set_log in H
            | progress rewrite ?lookup_insert_eq in H
            | rewrite lookup_insert_ne in H by (eapply fresh_neq_oid; eassumption)
            | match goal with
              | E : relcache _ !! _ = Some _ |- _ => progress rewrite E in H
              end
            | match type of H with
              | context [refresh_matview_datafill ?d ?q ?s ?w1] =>
                  let Hfill := fresh "Hfill" in
                  destruct (refresh_matview_datafill d q s w1) as [?r ?w2] eqn:Hfill;
                  apply refresh_matview_datafill_spec in Hfill;
                  destruct Hfill as (devs & Hlog & Hsess & Htrace & Hrel);
                  unfold same_session in Hsess;
                  world_cbn_in Hlog; world_cbn_in Hsess; world_cbn_in Hrel;
                  rewrite lookup_insert_eq in Hrel;
                  cbn [rd_id rd_node new_heap_of relNode] in Hrel;
                  destruct Hrel as (Hframe & Hok);
                  unfold storage_frame in Hframe; world_cbn_in Hframe;
                  rewrite lookup_insert_eq in Hframe;
                  destruct Hframe as (Hfo & (b & Hfn) & Hfs);
                  match goal with
                  | Hrc : relcache ?w0 !! ?n = Some ?rel |- _ =>
                      constr_eq w0 w;
                      assert (Hn2 : relcache w2 !! n = Some rel)
                        by (rewrite Hfo by (apply not_eq_sym; eapply fresh_neq_oid; eassumption);
                            rewrite lookup_insert_ne by (eapply fresh_neq_oid; eassumption);
                            assumption)
                  end
              end
            | pg_case H ];
          cbn -[refresh_matview_datafill used_ids new_heap_of] in H).
  all: try pg_done H.
  all: world_cbn; try rewrite Hlog.
  all: eexists; split; [first [log_norm; reflexivity | symmetry; apply app_nil_r]|].
  all: split; [first [ solve [repeat split]
                     | destruct Hsess as (?&?&?&?&?&?&?);
                       unfold same_session; world_cbn; repeat split; congruence ]|].
  all: try solve [ match goal with
                   | Hn : relnames _ !! _ = Some ?n |- _ => eapply (RO_rejected stmt w _ _ _ n)
                   | _ => eapply (RO_rejected stmt w _ _ _ 0%N)
                   end;
                   [ intros ? ?; discriminate | reflexivity | reflexivity | reflexivity
                   | reflexivity | prefix_solve ] ].
  (* the refresh that failed inside the data fill *)
  3, 4: match goal with
        | Hrc : relcache ?w0 !! ?n = Some ?rel |- _ =>
            constr_eq w0 w;
            match type of Htrace with
            | datafill_trace _ ?w1 ?q _ _ => eapply (RO_aborted stmt w _ _ n rel q w1 devs)
            end
        end;
        [ intros ? ?; discriminate | assumption | assumption | assumption | assumption
        | unfold fill_start; world_cbn; rewrite !lookup_insert_eq; repeat split
        | exact Htrace
        | intros o Ho; rewrite Hfo by assumption;
          apply lookup_insert_ne, not_eq_sym, Ho
        | intros o Ho; rewrite Hfs by assumption;
          apply lookup_insert_ne, not_eq_sym, Ho
        | eapply refresh_query_intro; eassumption ].
  (* the refresh with no data *)
  1: { match goal with
       | Hrc : relcache ?w0 !! ?n = Some ?rel, Hq : head _ = Some ?q |- _ =>
           constr_eq w0 w;
           eapply (RO_refreshed stmt w _ n rel q
                     (set_relcache
                        (insert (fresh (used_ids w))
                           (new_heap_of rel n (fresh (used_ids w)) (reltablespace (rd_rel rel))))
                        (set_smgr (insert (fresh (used_ids w)) empty_storage) w))
                     [] empty_storage)
       end.
       - assumption.
       - assumption.
       - match goal with |- ?a = ?b => destruct (decide (a = b)) as [|Hne]; [assumption|] end.
         exfalso; eauto.
       - assumption.
       - unfold fill_start; world_cbn; rewrite !lookup_insert_eq; repeat split.
       - rewrite Hskip. split; reflexivity.
       - lookup_solve. cbn. lookup_solve. reflexivity.
       - lookup_solve. reflexivity.
       - intros o Ho Ho'. lookup_solve. reflexivity.
       - lookup_solve. reflexivity.
       - lookup_solve. reflexivity.
       - intros o Ho Ho'. lookup_solve. reflexivity.
       - reflexivity.
       - reflexivity.
       - eapply refresh_query_intro; eassumption. }
  (* the refresh with data *)
  destruct (Hok _ eq_refl) as (Hsn & Hqc & s0 & plan & snap & Hin & Hse & Hre & Hs0 & Hfin).
  clear Hok.
  world_cbn_in Hs0. rewrite lookup_insert_eq in Hs0. injection Hs0 as <-.
  world_cbn_in Hsn. world_cbn_in Hqc.
  rewrite (started_sink_same _ _ _ w) in Hfin by reflexivity.
  destruct Hsess as (?&?&?&?&?&Hx&Hm). rewrite Hx, Hm.
  match type of Htrace with datafill_trace _ _ _ (Ok ?x) _ => destruct x end.
  match goal with
  | Hrc : relcache ?w0 !! ?n = Some ?rel |- _ =>
      constr_eq w0 w;
      match type of Htrace with
      | datafill_trace _ ?w1 ?q _ _ =>
          eapply (RO_refreshed stmt w _ n rel q w1 devs
                    (sink_final_storage
                       (started_sink (fresh (used_ids w))
                          (new_heap_of rel n (fresh (used_ids w)) (reltablespace (rd_rel rel)))
                          w)
                       (exec_rows (ExecutePlan plan snap)) empty_storage))
      end
  end.
  - assumption.
  - assumption.
  - match goal with |- ?a = ?b => destruct (decide (a = b)) as [|Hne]; [assumption|] end.
    exfalso; eauto.
  - assumption.
  - unfold fill_start; world_cbn; rewrite !lookup_insert_eq; repeat split.
  - rewrite Hskip. split; [exact Htrace|]. exists plan, snap. repeat split; assumption.
  - lookup_solve. cbn. lookup_solve. rewrite Hfin. reflexivity.
  - lookup_solve. reflexivity.
  - intros o Ho Ho'. lookup_solve. rewrite Hfo by assumption. lookup_solve. reflexivity.
  - lookup_solve. exact Hfin.
  - lookup_solve. reflexivity.
  - intros o Ho Ho'. lookup_solve. rewrite Hfs by assumption. lookup_solve. reflexivity.
  - world_cbn. exact Hsn.
  - world_cbn. exact Hqc.
  - eapply refresh_query_intro; eassumption.
Qed.

(** ** The claims *)

(** *** Populated-state transition *)

(** C4.  On a materialized-view storage object that is currently
    unpopulated, [SetMatViewToPopulated] succeeds and does exactly this, in
    this order: it logs the new page when the relation needs WAL (before
    the page is written), writes one initialized, checksummed page without
    line pointers as block 0, syncs the file, and invalidates the relation
    cache entry.  Afterwards the storage consists of that single page, it
    is synced, and the cached descriptor says populated. *)
Theorem SetMatViewToPopulated_transition (rel : RelationData) (w : PgWorld) (st : Storage) :
  relkind (rd_rel rel) = RELKIND_MATVIEW ->
  rd_ispopulated rel = false ->
  relcache w !! rd_id rel = Some rel ->
  smgr w !! relNode (rd_node rel) = Some st ->
  blocks st = [] ->
  exists w',
    SetMatViewToPopulated rel w = (Ok tt, w')
    /\ new_events w w' =
         (if RelationNeedsWAL rel
          then [EvLogNewPage (rd_node rel) MAIN_FORKNUM 0%N (PageInit BLCKSZ 0)]
          else [])
         ++ [EvSmgrExtend (rd_node rel) MAIN_FORKNUM 0%N empty_checksummed_page true;
             EvSmgrImmedSync (rd_node rel) MAIN_FORKNUM;
             EvRelationCacheInvalidate (rd_id rel)]
    /\ smgr w' !! relNode (rd_node rel)
       = Some (mkStorage [empty_checksummed_page] (tuples st) (smgr_targblock st) true)
    /\ pd_linp empty_checksummed_page = []
    /\ pd_lower empty_checksummed_page = SizeOfPageHeaderData
    /\ pd_upper empty_checksummed_page = BLCKSZ
    /\ pd_checksum empty_checksummed_page = pg_checksum_page (PageInit BLCKSZ 0) 0%N
    /\ relcache w' !! rd_id rel = Some (set_rd_ispopulated true rel).
Proof.
  intros Hkind Hpop Hrc Hst Hblk.
  unfold SetMatViewToPopulated, Assert, smgrextend, smgrimmedsync, log_newpage,
    RelationCacheInvalidateEntry, RelationOpenSmgr.
  rewrite Hkind, Hpop. simpl. rewrite !andb_false_r.
  pg_monad.
  destruct (RelationNeedsWAL rel) eqn:Hwal; simpl; rewrite Hst; simpl.
  all: eexists; split; [reflexivity|]; simpl.
  all: rewrite !lookup_alter_eq, !lookup_insert_eq, Hrc; simpl.
  all: rewrite Hkind; unfold storage_is_populated; simpl.
  all: repeat split; try reflexivity.
  all: try (apply new_events_app; simpl; rewrite <- ?app_assoc; reflexivity).
  all: try (rewrite Hblk; reflexivity).
  all: rewrite lookup_alter_eq, lookup_insert_eq; reflexivity.
Qed.

(** *** Close-time durability compensation *)

(** The storage [SetMatViewToPopulated] leaves, from storage [s]. *)
Definition opened_storage (s : Storage) : Storage :=
  mkStorage (write_block 0 empty_checksummed_page (blocks s)) (tuples s)
            (smgr_targblock s) true.

Lemma transientrel_startup_ok (myState : DR_transientrel) (operation : Z)
    (typeinfo : TupleDesc) (w : PgWorld) (st1 : DR_transientrel) (w1 : PgWorld) :
  transientrel_startup myState operation typeinfo w = (Ok st1, w1) ->
  exists rel s,
    relcache w !! transientoid myState = Some rel
    /\ smgr w !! relNode (rd_node rel) = Some s
    /\ st1 = started_sink (transientoid myState) rel w
    /\ smgr w1 !! relNode (rd_node rel) = Some (opened_storage s)
    /\ log w1 = log w ++ sink_open_events (transientoid myState) rel.
Proof.
  intros H.
  unfold transientrel_startup, SetMatViewToPopulated in H. pg_prims.
  unfold XLogIsNeeded in *.
  cbn in H.
  repeat (first [ progress rewrite ?lookup_alter_eq, ?lookup_insert_eq in H
                | pg_case H ];
          cbn in H).
  all: try discriminate H.
  all: injection H as <- <-.
  all: eexists _, _.
  all: split; [reflexivity|split; [eassumption|]].
  all: unfold started_sink, started_options, sink_open_events, XLogIsNeeded.
  all: repeat match goal with
         | E : ?x = true |- context [?x] => rewrite E
         | E : ?x = false |- context [?x] => rewrite E
         end.
  all: split; [reflexivity|].
  all: world_cbn; rewrite ?lookup_alter_eq, ?lookup_insert_eq.
  all: split; [reflexivity|].
  all: log_norm; reflexivity.
Qed.

Lemma started_options_skip_wal (w : PgWorld) :
  (Z.land (started_options w) HEAP_INSERT_SKIP_WAL =? 0) = XLogIsNeeded w.
Proof. unfold started_options. now destruct (XLogIsNeeded w). Qed.

(** C2.  After a successful open, the receiver has the skip-WAL option set
    exactly when WAL is not needed for archiving or replication.  Its
    close releases the bulk-insert state and then, exactly when that option
    is set, syncs the transient relation (so that every row received is in
    synced storage when close returns); when the option is not set, close
    performs no sync: it only releases the state and closes the relation. *)
Theorem transientrel_shutdown_flush (myState : DR_transientrel) (operation : Z)
    (typeinfo : TupleDesc) (rows : list TupleTableSlot)
    (w : PgWorld) (st1 : DR_transientrel) (w1 : PgWorld) :
  transientrel_startup myState operation typeinfo w = (Ok st1, w1) ->
  exists rel s1 w2 st3 w3,
    transientrel st1 = Some rel
    /\ (Z.land (hi_options st1) HEAP_INSERT_SKIP_WAL <> 0 <-> XLogIsNeeded w = false)
    /\ smgr w1 !! relNode (rd_node rel) = Some s1
    /\ send_rows transientrel_pub rows st1 w1 = (Ok st1, w2)
    /\ transientrel_shutdown st1 w2 = (Ok st3, w3)
    /\ new_events w2 w3
       = [EvFreeBulkInsertState]
         ++ (if XLogIsNeeded w then [] else [EvHeapSync (rd_node rel)])
         ++ [EvHeapClose (rd_id rel)]
    /\ exists s3,
         smgr w3 !! relNode (rd_node rel) = Some s3
         /\ tuples s3 = tuples s1 ++ map (stored_of st1) rows
         /\ (XLogIsNeeded w = false -> synced s3 = true).
Proof.
  intros H.
  apply transientrel_startup_ok in H as (rel & s & Hrel & Hs & -> & Hs1 & Hlog).
  set (st1 := started_sink (transientoid myState) rel w).
  exists rel, (opened_storage s), (received_world st1 rel rows (opened_storage s) w1).
  pose proof (started_options_skip_wal w) as Hopt.
  assert (Hrun : send_rows transientrel_pub rows st1 w1
                 = (Ok st1, received_world st1 rel rows (opened_storage s) w1))
    by (apply send_rows_transient; [reflexivity | exact Hs1]).
  unfold transientrel_shutdown. pg_prims.
  cbn [bistate transientrel hi_options st1 started_sink].
  rewrite Hopt.
  destruct (XLogIsNeeded w) eqn:Hx; cbn -[new_events received_world].
  all: eexists _, _.
  all: split; [reflexivity|].
  all: split; [split; [intros Hz | intros Hf];
               first [ reflexivity | discriminate
                     | exfalso; apply Hz; apply Z.eqb_eq; exact Hopt
                     | intros Hz; apply Z.eqb_eq in Hz; congruence ]|].
  all: split; [exact Hs1|].
  all: split; [exact Hrun|].
  all: split; [reflexivity|].
  all: split; [apply new_events_app; world_cbn; log_norm; reflexivity|].
  all: unfold received_world; world_cbn.
  all: rewrite ?lookup_alter_eq, ?lookup_insert_eq; cbn.
  all: eexists; split; [reflexivity|]; cbn.
  all: split; [rewrite received_storage_tuples; reflexivity
              | try reflexivity; intros [=]].
Qed.

(** *** Classifying the recorded events *)

(** The events the transient receiver records in open, receive and close. *)
Definition is_sink_event (e : Event) : bool :=
  match e with
  | EvHeapOpen _ | EvGetBulkInsertState | EvLogNewPage _ _ _ _
  | EvSmgrExtend _ _ _ _ _ | EvSmgrImmedSync _ _ | EvRelationCacheInvalidate _
  | EvHeapInsert _ _ _ _ | EvXLogInsert _ _ | EvFreeBulkInsertState
  | EvHeapSync _ | EvHeapClose _ => true
  | _ => false
  end.

(** The events of the data fill and of the receiver: rewriting, planning,
    executing, bulk inserts, page writes, WAL records and syncs. *)
Definition is_fill_event (e : Event) : bool :=
  match e with
  | EvLockRelation _ _ | EvHeapOpen _ | EvHeapClose _ | EvMakeNewHeap _ _ _
  | EvFinishHeapSwap _ _ _ _ | EvRelationCacheInvalidate _ => false
  | _ => true
  end.

Lemma sink_events_are_sink (st : DR_transientrel) (rel : RelationData)
    (rows : list TupleTableSlot) :
  Forall (fun e => is_sink_event e = true) (sink_events st rel rows).
Proof.
  unfold sink_events, sink_open_events, sink_close_events.
  repeat first [ apply Forall_app; split | apply Forall_cons; split
               | apply Forall_nil | reflexivity ].
  - destruct (RelationNeedsWAL rel); repeat constructor.
  - apply Forall_flat_map, Forall_forall. intros slot _. unfold insert_events.
    destruct (_ && _); repeat constructor.
  - destruct (negb _); repeat constructor.
Qed.

Lemma Forall_prefix_of {A} (P : A -> Prop) (l k : list A) :
  l `prefix_of` k -> Forall P k -> Forall P l.
Proof. intros [t ->] H. now apply Forall_app in H. Qed.

Lemma omap_all_none {A B} (f : A -> option B) (l : list A) :
  Forall (fun a => f a = None) l -> omap f l = [].
Proof. induction 1 as [|a l Ha _ IH]; simpl; [easy|]. now rewrite Ha. Qed.

(** Every prefix of what the receiver records satisfies what all receiver
    events satisfy. *)
Lemma sink_prefix_Forall (P : Event -> Prop) (st : DR_transientrel)
    (rel : RelationData) (rows : list TupleTableSlot) (sevs : list Event) :
  (forall e, is_sink_event e = true -> P e) ->
  sevs `prefix_of` sink_events st rel rows ->
  Forall P sevs.
Proof.
  intros HP Hpre. eapply Forall_prefix_of; [exact Hpre|].
  eapply Forall_impl; [apply sink_events_are_sink|]. exact HP.
Qed.

(** *** No-data refresh and the snapshot stack *)

Definition touches_snapshot_or_interrupt (e : Event) : bool :=
  match e with
  | EvCheckForInterrupts | EvPushSnapshot _ | EvUpdateSnapshotCommandId _
  | EvPopSnapshot => true
  | _ => false
  end.

(** C10.  A refresh with [skipData] set records no interrupt check and no
    push, command-id update or pop of the snapshot stack, whatever its
    outcome, and it leaves the active-snapshot stack and the pending-cancel
    flag as they were. *)
Theorem nodata_refresh_snapshot_untouched (stmt : RefreshMatViewStmt)
    (queryString : string) (w : PgWorld) (r : Result unit) (w' : PgWorld) :
  skipData stmt = true ->
  ExecRefreshMatView stmt queryString w = (r, w') ->
  Forall (fun e => touches_snapshot_or_interrupt e = false) (new_events w w')
  /\ ActiveSnapshot w' = ActiveSnapshot w
  /\ QueryCancelPending w' = QueryCancelPending w.
Proof.
  intros Hskip H.
  apply ExecRefreshMatView_spec in H as (evs & Hlog & _ & Hout).
  rewrite (new_events_app _ _ _ Hlog).
  inversion Hout; subst.
  - split; [|easy]. eapply Forall_prefix_of; [eassumption|]. repeat constructor.
  - congruence.
  - rewrite Hskip in *.
    match goal with Hd : _ = [] /\ _ |- _ => destruct Hd as [-> ->] end.
    split; [|easy]. repeat constructor.
Qed.

(** *** The snapshot context of a data fill *)

(** The steps of planning, snapshot handling and execution. *)
Inductive Phase : Set :=
| PhPlan | PhPush | PhUpdateCid | PhStart | PhRun | PhFinish | PhEnd | PhPop.

Definition phase_of (e : Event) : option Phase :=
  match e with
  | EvPlanQuery _ => Some PhPlan
  | EvPushSnapshot _ => Some PhPush
  | EvUpdateSnapshotCommandId _ => Some PhUpdateCid
  | EvExecutorStart _ _ => Some PhStart
  | EvExecutorRun _ => Some PhRun
  | EvExecutorFinish _ => Some PhFinish
  | EvExecutorEnd _ => Some PhEnd
  | EvPopSnapshot => Some PhPop
  | _ => None
  end.

(** The order of the steps in [refresh_matview_datafill]. *)
Definition datafill_phases : list Phase :=
  [PhPlan; PhPush; PhUpdateCid; PhStart; PhRun; PhFinish; PhEnd; PhPop].

(** The ordering as the specification words it: a snapshot has been pushed
    before each planning step. *)
Definition snapshot_pushed_before_planning (evs : list Event) : Prop :=
  forall (i : nat) (q : Query),
    evs !! i = Some (EvPlanQuery q) ->
    exists (j : nat) (s : SnapshotData),
      (j < i)%nat /\ evs !! j = Some (EvPushSnapshot s).

Lemma sink_prefix_no_phase (st : DR_transientrel) (rel : RelationData)
    (rows : list TupleTableSlot) (sevs : list Event) :
  sevs `prefix_of` sink_events st rel rows -> omap phase_of sevs = [].
Proof.
  intros Hpre. apply omap_all_none.
  eapply sink_prefix_Forall; [|exact Hpre]. now intros [].
Qed.

Lemma prefix_of_take {A} (n : nat) (l : list A) : take n l `prefix_of` l.
Proof. exists (drop n l). symmetry. apply take_drop. Qed.

(** What a data fill records, step by step, and the snapshot it runs under. *)
Lemma datafill_trace_phases (oid : Oid) (w : PgWorld) (q : Query)
    (r : Result unit) (evs : list Event) :
  datafill_trace oid w q r evs ->
  omap phase_of evs `prefix_of` datafill_phases
  /\ (forall plan snap, In (EvExecutorStart plan snap) evs ->
        exists s, head (ActiveSnapshot w) = Some s
                  /\ In (EvPushSnapshot s) evs
                  /\ snap = mkSnapshot (xmin s) (xmax s) (currentCommandId w))
  /\ (forall a, r = Ok a -> omap phase_of evs = datafill_phases).
Proof.
  assert (Hsink : forall st rel rows sevs,
             sevs `prefix_of` sink_events st rel rows ->
             forall plan snap, ~ In (EvExecutorStart plan snap) sevs).
  { intros st rel rows sevs Hpre plan snap Hin.
    assert (HF : Forall (fun e => is_sink_event e = true) sevs)
      by (eapply sink_prefix_Forall; [|exact Hpre]; auto).
    rewrite Forall_forall in HF. apply list_elem_of_In, HF in Hin. discriminate Hin. }
  intros Ht. inversion Ht; subst.
  all: unfold datafill_head, datafill_push, datafill_tail.
  all: repeat match goal with
         | Hm : match relcache ?w0 !! ?o with _ => _ end |- _ =>
             destruct (relcache w0 !! o) eqn:?
         | Hp : ?sevs `prefix_of` sink_events _ _ _ |- _ =>
             pose proof (sink_prefix_no_phase _ _ _ _ Hp);
             pose proof (Hsink _ _ _ _ Hp); clear Hp
         | Hp : ?sevs = [] |- _ => subst sevs
         end.
  all: try match goal with
         | |- context [sink_events ?st ?rel ?rows] =>
             pose proof (sink_prefix_no_phase st rel rows _ (reflexivity _));
             pose proof (Hsink st rel rows _ (reflexivity _))
         end.
  all: repeat first
         [ rewrite omap_app
         | progress cbn [omap list_omap phase_of app]
         | match goal with
           | Ho : omap phase_of _ = [] |- _ => rewrite Ho
           end ].
  all: split;
       [ first [ exact (prefix_of_take 0 datafill_phases)
               | exact (prefix_of_take 1 datafill_phases)
               | exact (prefix_of_take 4 datafill_phases)
               | exact (prefix_of_take 5 datafill_phases)
               | exact (prefix_of_take 8 datafill_phases) ] |].
  all: split;
       [| intros a Ha;
          first [ reflexivity
                | match goal with
                  | Hn : forall _, _ <> Ok _ |- _ => destruct (Hn _ Ha)
                  end ] ].
  all: intros plan' snap' Hin; cbn [In app] in Hin.
  all: rewrite ?in_app_iff in Hin; cbn [In] in Hin.
  all: repeat match goal with
         | Hin : _ \/ _ |- _ => destruct Hin as [Hin|Hin]
         | Hin : False |- _ => destruct Hin
         | Hin : _ = EvExecutorStart _ _ |- _ =>
             first [ discriminate Hin | injection Hin as <- <- ]
         | Hin : In (EvExecutorStart _ _) _, Hn : forall _ _, ~ In _ _ |- _ =>
             exfalso; exact (Hn _ _ Hin)
         | Hin : In (EvExecutorStart _ _) _, Hn : ~ In _ _ |- _ =>
             exfalso; exact (Hn Hin)
         end.
  all: eexists; split; [eassumption|]; split; [|reflexivity].
  all: cbn [In app]; auto 10.
Qed.

(** C5, in the order the code has.  In a refresh with [skipData] false the defining
    query is planned first, under the caller's snapshot; the copy of the
    active snapshot with the current command id is pushed after planning
    and before the executor starts, the executor starts, runs, finishes
    and ends under that copy with no other push or pop in between, and
    the copy is popped right after the executor ends.  A refresh that
    fails stops somewhere along this order; one that succeeds went through
    all of it and leaves the snapshot stack as it found it. *)
Theorem datafill_snapshot_after_planning (stmt : RefreshMatViewStmt)
    (queryString : string) (w : PgWorld) (r : Result unit) (w' : PgWorld) :
  skipData stmt = false ->
  ExecRefreshMatView stmt queryString w = (r, w') ->
  omap phase_of (new_events w w') `prefix_of` datafill_phases
  /\ (forall plan snap,
        In (EvExecutorStart plan snap) (new_events w w') ->
        exists s, head (ActiveSnapshot w) = Some s
                  /\ In (EvPushSnapshot s) (new_events w w')
                  /\ snap = mkSnapshot (xmin s) (xmax s) (currentCommandId w))
  /\ (r = Ok tt ->
      omap phase_of (new_events w w') = datafill_phases
      /\ ActiveSnapshot w' = ActiveSnapshot w).
Proof.
  intros Hskip H.
  apply ExecRefreshMatView_spec in H as (evs & Hlog & _ & Hout).
  rewrite (new_events_app _ _ _ Hlog).
  inversion Hout; subst.
  - assert (HF : Forall (fun e => phase_of e = None
                                  /\ forall plan snap, e <> EvExecutorStart plan snap) evs).
    { eapply Forall_prefix_of; [eassumption|]. repeat constructor; discriminate. }
    split; [|split].
    + rewrite omap_all_none; [apply prefix_nil|].
      eapply Forall_impl; [exact HF|]. now intros e [He _].
    + intros plan snap Hin. rewrite Forall_forall in HF.
      apply list_elem_of_In, HF in Hin.
      destruct Hin as [_ Hne]. destruct (Hne _ _ eq_refl).
    + intros ->. not_ok.
  - match goal with
    | Ht : datafill_trace _ _ _ _ _, Hf : fill_start _ _ _ _ |- _ =>
        apply datafill_trace_phases in Ht as (Hpre & Hsnap & Hall);
        destruct Hf as (Hcid & _ & Hact & _)
    end.
    rewrite Hcid, Hact in Hsnap.
    rewrite omap_app. cbn [refresh_prefix omap list_omap phase_of app].
    split; [exact Hpre|]. split.
    + intros plan snap Hin. cbn [In] in Hin.
      repeat (destruct Hin as [Hin|Hin]; [discriminate Hin|]).
      destruct (Hsnap _ _ Hin) as (s & Hs & Hp & ->).
      exists s. cbn [In]. auto 10.
    + intros ->. not_ok.
  - rewrite Hskip in *.
    match goal with
    | Ht : datafill_trace _ _ _ _ _ /\ _, Hf : fill_start _ _ _ _ |- _ =>
        destruct Ht as [Ht _];
        apply datafill_trace_phases in Ht as (Hpre & Hsnap & Hall);
        destruct Hf as (Hcid & _ & Hact & _)
    end.
    rewrite Hcid, Hact in Hsnap.
    rewrite !omap_app, (Hall tt eq_refl).
    cbn [refresh_prefix refresh_suffix omap list_omap phase_of app].
    rewrite app_nil_r.
    split; [reflexivity|]. split; [|now intros _].
    intros plan snap Hin. cbn [In] in Hin.
    repeat (destruct Hin as [Hin|Hin]; [discriminate Hin|]).
    apply in_app_iff in Hin as [Hin|Hin].
    + destruct (Hsnap _ _ Hin) as (s & Hs & Hp & ->).
      exists s. cbn [In]. rewrite in_app_iff. auto 10.
    + cbn [In] in Hin.
      repeat (destruct Hin as [Hin|Hin]; [discriminate Hin|]). destruct Hin.
Qed.

(** *** Population and row writes, in the order recorded *)

(** What is done to a storage object: its first page is written (the
    populated-state transition), or a row is inserted into it. *)
Inductive StorageStep : Set :=
| Populate (node : RelFileNode)
| InsertRow (node : RelFileNode).

Definition storage_step_of (e : Event) : option StorageStep :=
  match e with
  | EvSmgrExtend node _ _ _ _ => Some (Populate node)
  | EvHeapInsert node _ _ _ => Some (InsertRow node)
  | _ => None
  end.

Definition storage_steps (evs : list Event) : list StorageStep :=
  omap storage_step_of evs.

(** One transition on [node], then [k] rows into [node]. *)
Definition populate_then_rows (node : RelFileNode) (k : nat) : list StorageStep :=
  Populate node :: replicate k (InsertRow node).

Lemma omap_prefix_of {A B} (f : A -> option B) (l k : list A) :
  l `prefix_of` k -> omap f l `prefix_of` omap f k.
Proof. intros [t ->]. rewrite omap_app. now exists (omap f t). Qed.

Lemma insert_events_steps (st : DR_transientrel) (rel : RelationData)
    (rows : list TupleTableSlot) :
  storage_steps (flat_map (insert_events st rel) rows)
  = replicate (length rows) (InsertRow (rd_node rel)).
Proof.
  unfold storage_steps. induction rows as [|slot rows IH]; [reflexivity|].
  cbn [flat_map length replicate]. rewrite omap_app, IH. unfold insert_events.
  now destruct (_ && _).
Qed.

Lemma sink_events_steps (st : DR_transientrel) (rel : RelationData)
    (rows : list TupleTableSlot) :
  storage_steps (sink_events st rel rows)
  = populate_then_rows (rd_node rel) (length rows).
Proof.
  unfold sink_events, storage_steps. rewrite !omap_app.
  fold (storage_steps (flat_map (insert_events st rel) rows)).
  rewrite insert_events_steps.
  unfold sink_open_events, sink_close_events, populate_then_rows.
  destruct (RelationNeedsWAL rel), (negb _); cbn; now rewrite app_nil_r.
Qed.

(** The storage steps of a data fill into relation [rel]. *)
Lemma datafill_trace_steps (oid : Oid) (w : PgWorld) (q : Query)
    (r : Result unit) (evs : list Event) (rel : RelationData) :
  relcache w !! oid = Some rel ->
  datafill_trace oid w q r evs ->
  exists k,
    storage_steps evs `prefix_of` populate_then_rows (rd_node rel) k
    /\ forall a, r = Ok a -> storage_steps evs = populate_then_rows (rd_node rel) k.
Proof.
  intros Hrel Ht. inversion Ht; subst.
  all: unfold datafill_head, datafill_push, datafill_tail, storage_steps.
  all: repeat first [ rewrite omap_app
                    | progress cbn [omap list_omap storage_step_of app] ].
  all: try match goal with
         | Hm : match relcache ?w0 !! ?o with _ => _ end |- _ =>
             rewrite Hrel in Hm;
             apply (omap_prefix_of storage_step_of) in Hm;
             fold (storage_steps (sink_events (started_sink o rel w0) rel
                                     (exec_rows (ExecutePlan plan (pushed_snapshot s w0))))) in Hm;
             rewrite sink_events_steps in Hm
         end.
  all: try match goal with
         | |- context [omap storage_step_of (sink_events ?st ?rl ?rows)] =>
             fold (storage_steps (sink_events st rl rows));
             rewrite sink_events_steps
         end.
  all: try (eexists; split; [eassumption | intros; not_ok]).
  all: try (exists 0%nat; split; [apply prefix_nil | intros; not_ok]).
  rewrite app_nil_r.
  match goal with
  | H1 : relcache w !! oid = Some ?r1 |- _ =>
      assert (r1 = rel) as -> by congruence
  end.
  eexists; split; [reflexivity | now intros].
Qed.

(** C3.  In a refresh that fills data, the steps done to storage objects
    are, in the order recorded: one populated-state transition on the
    transient relation's storage, then the row inserts, all into that same
    storage.  A refresh that fails stops somewhere along this sequence; one
    that succeeds made the transition exactly once.  So no row is inserted
    before the transition, and none into any other storage. *)
Theorem populated_before_any_row (stmt : RefreshMatViewStmt)
    (queryString : string) (w : PgWorld) (r : Result unit) (w' : PgWorld) :
  skipData stmt = false ->
  ExecRefreshMatView stmt queryString w = (r, w') ->
  exists node k,
    relNode node = fresh (used_ids w)
    /\ storage_steps (new_events w w') `prefix_of` populate_then_rows node k
    /\ (r = Ok tt -> storage_steps (new_events w w') = populate_then_rows node k).
Proof.
  intros Hskip H.
  apply ExecRefreshMatView_spec in H as (evs & Hlog & _ & Hout).
  rewrite (new_events_app _ _ _ Hlog).
  inversion Hout; subst.
  - exists (mkRelFileNode 0%N (fresh (used_ids w))), 0%nat.
    split; [reflexivity|]. split; [|intros ->; not_ok].
    unfold storage_steps. rewrite omap_all_none; [apply prefix_nil|].
    eapply Forall_prefix_of; [eassumption|]. repeat constructor.
  - match goal with
    | Ht : datafill_trace _ _ _ _ _, Hf : fill_start _ _ _ _ |- _ =>
        destruct Hf as (_ & _ & _ & Hheap & _);
        destruct (datafill_trace_steps _ _ _ _ _ _ Hheap Ht) as (k & Hpre & _)
    end.
    eexists _, k. split; [|split; [exact Hpre | intros ->; not_ok]]. reflexivity.
  - rewrite Hskip in *.
    match goal with
    | Ht : datafill_trace _ _ _ _ _ /\ _, Hf : fill_start _ _ _ _ |- _ =>
        destruct Ht as [Ht _];
        destruct Hf as (_ & _ & _ & Hheap & _);
        destruct (datafill_trace_steps _ _ _ _ _ _ Hheap Ht) as (k & _ & Hall)
    end.
    exists (rd_node heap), k. split; [reflexivity|].
    unfold storage_steps in *. rewrite !omap_app, (Hall tt eq_refl).
    cbn. rewrite app_nil_r. split; [reflexivity | now intros _].
Qed.

(** *** All-or-nothing refresh *)

Definition is_swap (e : Event) : bool :=
  match e with
  | EvFinishHeapSwap _ _ _ _ => true
  | _ => false
  end.

Lemma sink_final_storage_empty (st : DR_transientrel) (rows : list TupleTableSlot) :
  blocks (sink_final_storage st rows empty_storage) = [empty_checksummed_page]
  /\ map st_tuple (tuples (sink_final_storage st rows empty_storage))
     = map ExecMaterializeSlot rows.
Proof.
  unfold sink_final_storage.
  destruct (negb _); cbn [blocks tuples];
    rewrite received_storage_blocks, received_storage_tuples; cbn;
    (split; [reflexivity|]); rewrite map_map; reflexivity.
Qed.

Lemma datafill_trace_no_swap (oid : Oid) (w : PgWorld) (q : Query)
    (r : Result unit) (evs : list Event) :
  datafill_trace oid w q r evs -> Forall (fun e => is_swap e = false) evs.
Proof.
  assert (Hsink : forall st rel rows sevs,
             sevs `prefix_of` sink_events st rel rows ->
             Forall (fun e => is_swap e = false) sevs).
  { intros st rel rows sevs Hpre.
    eapply sink_prefix_Forall; [|exact Hpre]. now intros []. }
  intros Ht. inversion Ht; subst.
  all: unfold datafill_head, datafill_push, datafill_tail.
  all: repeat match goal with
         | Hm : match relcache ?w0 !! ?o with _ => _ end |- _ =>
             destruct (relcache w0 !! o) eqn:?
         | Hp : ?sevs `prefix_of` sink_events _ _ _ |- _ =>
             apply Hsink in Hp
         | Hp : ?sevs = [] |- _ => subst sevs
         end.
  all: repeat first [ assumption | solve [eapply Hsink; reflexivity]
                    | apply Forall_app; split | apply Forall_cons; split
                    | apply Forall_nil | reflexivity ].
Qed.

(** What a data fill rewrites, plans and starts. *)
Lemma datafill_trace_single_query (oid : Oid) (w : PgWorld) (q : Query)
    (r : Result unit) (evs : list Event) :
  datafill_trace oid w q r evs ->
  head evs = Some (EvQueryRewrite q)
  /\ (forall q', In (EvPlanQuery q') evs ->
        exists q0 r1 r2,
          QueryRewrite_result q = [q0]
          /\ head (rtable q0) = Some r1 /\ rtable q0 !! 1%nat = Some r2
          /\ q' = mark_result_rels q0 r1 r2)
  /\ (forall plan snap, In (EvExecutorStart plan snap) evs ->
        exists q0 r1 r2,
          QueryRewrite_result q = [q0]
          /\ head (rtable q0) = Some r1 /\ rtable q0 !! 1%nat = Some r2
          /\ pg_plan_query_result (mark_result_rels q0 r1 r2) = inr plan)
  /\ (forall q', In (EvQueryRewrite q') evs -> q' = q).
Proof.
  assert (Hsink : forall st rel rows sevs,
             sevs `prefix_of` sink_events st rel rows ->
             forall e, In e sevs -> is_sink_event e = true).
  { intros st rel rows sevs Hpre e Hin.
    assert (HF : Forall (fun e => is_sink_event e = true) sevs)
      by (eapply sink_prefix_Forall; [|exact Hpre]; auto).
    rewrite Forall_forall in HF. now apply HF, list_elem_of_In. }
  intros Ht. inversion Ht; subst.
  all: unfold datafill_head, datafill_push, datafill_tail.
  all: repeat match goal with
         | Hm : match relcache ?w0 !! ?o with _ => _ end |- _ =>
             destruct (relcache w0 !! o) eqn:?
         | Hp : ?sevs `prefix_of` sink_events _ _ _ |- _ =>
             pose proof (Hsink _ _ _ _ Hp); clear Hp
         | Hp : ?sevs = [] |- _ => subst sevs
         end.
  all: try match goal with
         | |- context [sink_events ?st ?rel ?rows] =>
             pose proof (Hsink st rel rows _ (reflexivity _))
         end.
  all: split; [reflexivity|].
  all: split; [intros q' Hin | split; [intros plan' snap' Hin | intros q' Hin]].
  all: cbn [In app] in Hin; rewrite ?in_app_iff in Hin; cbn [In] in Hin.
  all: repeat match goal with
         | Hin : _ \/ _ |- _ => destruct Hin as [Hin|Hin]
         | Hin : False |- _ => destruct Hin
         | Hin : _ = EvExecutorStart _ _ |- _ =>
             first [ discriminate Hin | injection Hin as <- <- ]
         | Hin : _ = EvPlanQuery _ |- _ =>
             first [ discriminate Hin | injection Hin as <- ]
         | Hin : _ = EvQueryRewrite _ |- _ =>
             first [ discriminate Hin | injection Hin as <- ]
         | Hin : In ?e _, Hs : forall e, In e _ -> is_sink_event e = true |- _ =>
             apply Hs in Hin; discriminate Hin
         end.
  all: eauto 10.
Qed.

(** C1.  A refresh that raises an error has not swapped, and it leaves
    every relation that existed before (so the materialized view too) with
    its cache entry (storage identity and populated state included) and
    its storage contents as they were.  A refresh that returns has swapped:
    the view keeps its OID, catalog row and rules, takes over the
    transient relation's storage, and that storage holds exactly the rows
    produced by the plan of the view's defining query (the single action
    of its single rule, rewritten to one query) in data mode, or nothing
    at all in no-data mode; the storage it had before is gone. *)
Theorem refresh_all_or_nothing (stmt : RefreshMatViewStmt)
    (queryString : string) (w : PgWorld) (r : Result unit) (w' : PgWorld) :
  ExecRefreshMatView stmt queryString w = (r, w') ->
  ((forall a, r <> Ok a) ->
     Forall (fun e => is_swap e = false) (new_events w w')
     /\ forall oid rel,
          relcache w !! oid = Some rel ->
          relcache w' !! oid = Some rel
          /\ smgr w' !! relNode (rd_node rel) = smgr w !! relNode (rd_node rel))
  /\ (r = Ok tt ->
      exists oid rel view filled,
        relnames w !! rv_relname (relation stmt) = Some oid
        /\ relcache w !! oid = Some rel
        /\ In (EvFinishHeapSwap oid (fresh (used_ids w)) (RecentXmin w) (nextMXact w))
              (new_events w w')
        /\ relcache w' !! oid = Some view
        /\ rd_id view = rd_id rel /\ rd_rel view = rd_rel rel
        /\ rd_rules view = rd_rules rel
        /\ relNode (rd_node view) = fresh (used_ids w)
        /\ relNode (rd_node view) <> relNode (rd_node rel)
        /\ smgr w' !! relNode (rd_node view) = Some filled
        /\ smgr w' !! relNode (rd_node rel) = None
        /\ rd_ispopulated view = negb (skipData stmt)
        /\ if skipData stmt
           then blocks filled = [] /\ tuples filled = []
           else blocks filled = [empty_checksummed_page]
                /\ exists q q0 r1 r2 plan snap,
                     refresh_query rel q
                     /\ QueryRewrite_result q = [q0]
                     /\ head (rtable q0) = Some r1 /\ rtable q0 !! 1%nat = Some r2
                     /\ pg_plan_query_result (mark_result_rels q0 r1 r2) = inr plan
                     /\ In (EvExecutorStart plan snap) (new_events w w')
                     /\ map st_tuple (tuples filled)
                        = map ExecMaterializeSlot (exec_rows (ExecutePlan plan snap))).
Proof.
  intros H.
  apply ExecRefreshMatView_spec in H as (evs & Hlog & _ & Hout).
  rewrite (new_events_app _ _ _ Hlog).
  inversion Hout; subst.
  - split; [intros _ | intros ->; not_ok]. split.
    + eapply Forall_prefix_of; [eassumption|]. repeat constructor.
    + intros o rl Ho. split; congruence.
  - split; [intros _ | intros ->; not_ok]. split.
    + apply Forall_app. split; [repeat constructor|].
      eapply datafill_trace_no_swap; eassumption.
    + intros o rl Ho.
      match goal with
      | Hrc : forall o, o <> new -> relcache w' !! o = _,
        Hsm : forall n, n <> new -> smgr w' !! n = _ |- _ =>
          rewrite Hrc, Hsm by (apply not_eq_sym; fresh_neq)
      end.
      now split.
  - split; [intros Hn; not_ok | intros _].
    exists oid, rel, (refreshed_view rel heap filled), filled.
    assert (Hnode : relNode (rd_node (refreshed_view rel heap filled)) = new)
      by reflexivity.
    rewrite Hnode.
    repeat match goal with |- _ /\ _ => split end; try assumption; try reflexivity.
    + rewrite !in_app_iff. right. right. left. reflexivity.
    + fresh_neq.
    + unfold refreshed_view, storage_is_populated. cbn [rd_ispopulated set_rd_ispopulated].
      destruct (decide _) as [_|Hk]; [|contradiction].
      destruct (skipData stmt).
      * match goal with Hd : _ = [] /\ _ |- _ => destruct Hd as [_ ->] end.
        reflexivity.
      * match goal with
        | Hd : _ /\ _ |- _ => destruct Hd as (_ & plan & snap & _ & _ & _ & ->)
        end.
        now rewrite (proj1 (sink_final_storage_empty _ _)).
    + destruct (skipData stmt).
      * match goal with Hd : _ = [] /\ _ |- _ => destruct Hd as [_ ->] end.
        now split.
      * match goal with
        | Hd : _ /\ _ |- _ => destruct Hd as (Ht & plan & snap & Hin & _ & _ & ->)
        end.
        split; [apply sink_final_storage_empty|].
        destruct (datafill_trace_single_query _ _ _ _ _ Ht) as (_ & _ & Hstart & _).
        destruct (Hstart _ _ Hin) as (q0 & r1 & r2 & Hrw & Hr1 & Hr2 & Hplan).
        exists q, q0, r1, r2, plan, snap.
        repeat match goal with |- _ /\ _ => split end; try assumption.
        -- rewrite !in_app_iff. auto.
        -- apply sink_final_storage_empty.
Qed.

(** *** The rewrite of the defining query *)

Definition unexpected_rewrite_result : ErrorData :=
  mkErrorData ERROR ERRCODE_INTERNAL_ERROR
              "unexpected rewrite result for REFRESH MATERIALIZED VIEW" [].

(** Whatever the receiver, a rewrite to no query or to several stops the
    data fill right after the rewrite. *)
Lemma datafill_rewrite_fault {S : Type} (d : DestReceiverObj S) (q : Query)
    (qs : string) (w : PgWorld) :
  length (QueryRewrite_result q) <> 1%nat ->
  refresh_matview_datafill d q qs w
  = (Raised unexpected_rewrite_result,
     set_log (fun l => l ++ [EvQueryRewrite q]) w).
Proof.
  intros Hlen. unfold refresh_matview_datafill. pg_prims. unfold copyObject.
  destruct (QueryRewrite_result q) as [|q0 [|q1 ql]]; cbn in *;
    [reflexivity | congruence | reflexivity].
Qed.

Lemma datafill_trace_fault (oid : Oid) (w : PgWorld) (q : Query)
    (r : Result unit) (evs : list Event) :
  datafill_trace oid w q r evs ->
  length (QueryRewrite_result q) <> 1%nat ->
  r = Raised unexpected_rewrite_result /\ evs = [EvQueryRewrite q].
Proof.
  intros Ht Hlen. inversion Ht; subst.
  1: now split.
  all: exfalso; apply Hlen;
    match goal with Hrw : QueryRewrite_result _ = [_] |- _ => now rewrite Hrw end.
Qed.

(** C9.  A data-filling refresh that gets as far as making the transient
    relation (so every one that returns) rewrites the defining query of
    the view: the single action of its single rule, and no other query.
    If that rewrite gives no query or more than one, the refresh fails
    with the internal error [unexpected_rewrite_result], having planned,
    pushed and executed nothing.  Whatever is planned is the single query
    the defining query was rewritten to (its first two range-table
    entries flagged), and whatever the executor starts is the plan of
    that query. *)
Theorem rewrite_cardinality_contract (stmt : RefreshMatViewStmt)
    (queryString : string) (w : PgWorld) (r : Result unit) (w' : PgWorld) :
  skipData stmt = false ->
  ExecRefreshMatView stmt queryString w = (r, w') ->
  (r = Ok tt -> exists q, In (EvQueryRewrite q) (new_events w w'))
  /\ (forall o n ts, In (EvMakeNewHeap o n ts) (new_events w w') ->
        exists q, In (EvQueryRewrite q) (new_events w w'))
  /\ (forall q, In (EvQueryRewrite q) (new_events w w') ->
        (exists oid rel,
           relnames w !! rv_relname (relation stmt) = Some oid
           /\ relcache w !! oid = Some rel
           /\ refresh_query rel q)
        /\ (length (QueryRewrite_result q) <> 1%nat ->
            r = Raised unexpected_rewrite_result
            /\ Forall (fun e => phase_of e = None) (new_events w w')))
  /\ (forall q', In (EvPlanQuery q') (new_events w w') ->
        exists q q0 r1 r2,
          In (EvQueryRewrite q) (new_events w w')
          /\ QueryRewrite_result q = [q0]
          /\ head (rtable q0) = Some r1 /\ rtable q0 !! 1%nat = Some r2
          /\ q' = mark_result_rels q0 r1 r2)
  /\ (forall plan snap, In (EvExecutorStart plan snap) (new_events w w') ->
        exists q q0 r1 r2,
          In (EvQueryRewrite q) (new_events w w')
          /\ QueryRewrite_result q = [q0]
          /\ head (rtable q0) = Some r1 /\ rtable q0 !! 1%nat = Some r2
          /\ pg_plan_query_result (mark_result_rels q0 r1 r2) = inr plan).
Proof.
  intros Hskip H.
  apply ExecRefreshMatView_spec in H as (evs & Hlog & _ & Hout).
  rewrite (new_events_app _ _ _ Hlog).
  (* what holds of a run whose events are those of a fill on [q] between
     events that rewrite, plan and start nothing *)
  assert (Hfill : forall oid rel new w1 q rr devs pre post,
             relnames w !! rv_relname (relation stmt) = Some oid ->
             relcache w !! oid = Some rel ->
             refresh_query rel q ->
             datafill_trace new w1 q rr devs ->
             (rr = Ok tt \/ post = []) ->
             Forall (fun e => is_fill_event e = false) pre ->
             Forall (fun e => is_fill_event e = false) post ->
             (exists q1, In (EvQueryRewrite q1) (pre ++ devs ++ post))
             /\ (forall q1, In (EvQueryRewrite q1) (pre ++ devs ++ post) ->
                   (exists oid rel,
                      relnames w !! rv_relname (relation stmt) = Some oid
                      /\ relcache w !! oid = Some rel
                      /\ refresh_query rel q1)
                   /\ (length (QueryRewrite_result q1) <> 1%nat ->
                       rr = Raised unexpected_rewrite_result
                       /\ Forall (fun e => phase_of e = None) (pre ++ devs ++ post)))
             /\ (forall q', In (EvPlanQuery q') (pre ++ devs ++ post) ->
                   exists q1 q0 r1 r2,
                     In (EvQueryRewrite q1) (pre ++ devs ++ post)
                     /\ QueryRewrite_result q1 = [q0]
                     /\ head (rtable q0) = Some r1 /\ rtable q0 !! 1%nat = Some r2
                     /\ q' = mark_result_rels q0 r1 r2)
             /\ (forall plan snap, In (EvExecutorStart plan snap) (pre ++ devs ++ post) ->
                   exists q1 q0 r1 r2,
                     In (EvQueryRewrite q1) (pre ++ devs ++ post)
                     /\ QueryRewrite_result q1 = [q0]
                     /\ head (rtable q0) = Some r1 /\ rtable q0 !! 1%nat = Some r2
                     /\ pg_plan_query_result (mark_result_rels q0 r1 r2) = inr plan)).
  { intros oid rel new w1 q rr devs pre post Hn Hr Hq Ht Hpost Hpre Hsuf.
    destruct (datafill_trace_single_query _ _ _ _ _ Ht) as (Hhd & Hplan & Hstart & Hrw).
    assert (Hq_in : In (EvQueryRewrite q) (pre ++ devs ++ post)).
    { rewrite !in_app_iff. right. left. destruct devs; [discriminate Hhd|].
      injection Hhd as ->. now left. }
    assert (Hmid : forall e, is_fill_event e = true ->
                             In e (pre ++ devs ++ post) -> In e devs).
    { intros e He Hin. rewrite Forall_forall in Hpre, Hsuf.
      rewrite !in_app_iff in Hin. destruct Hin as [Hin | [Hin | Hin]]; [|exact Hin|].
      - apply list_elem_of_In, Hpre in Hin. congruence.
      - apply list_elem_of_In, Hsuf in Hin. congruence. }
    split; [eauto|]. split; [|split].
    - intros q1 Hin. apply Hmid in Hin; [|reflexivity]. apply Hrw in Hin. subst q1.
      split; [eauto|]. intros Hlen.
      destruct (datafill_trace_fault _ _ _ _ _ Ht Hlen) as [-> ->].
      split; [reflexivity|].
      destruct Hpost as [Hc | ->]; [discriminate Hc|].
      rewrite app_nil_r. apply Forall_app. split; [|repeat constructor].
      eapply Forall_impl; [exact Hpre|]. now intros [].
    - intros q' Hin. apply Hmid in Hin; [|reflexivity]. apply Hplan in Hin.
      destruct Hin as (q0 & r1 & r2 & ?). exists q, q0, r1, r2. tauto.
    - intros plan snap Hin. apply Hmid in Hin; [|reflexivity]. apply Hstart in Hin.
      destruct Hin as (q0 & r1 & r2 & ?). exists q, q0, r1, r2. tauto. }
  inversion Hout; subst.
  - assert (Hno : forall e, In e evs ->
                            exists o, e = EvLockRelation o AccessExclusiveLock
                                      \/ e = EvHeapOpen o).
    { intros e Hin.
      match goal with
      | Hp : evs `prefix_of` [EvLockRelation ?o _; _] |- _ =>
          destruct Hp as [t Hp]; exists o;
          assert (Hin' : In e [EvLockRelation o AccessExclusiveLock; EvHeapOpen o])
            by (rewrite Hp; apply in_app_iff; now left)
      end.
      cbn in Hin'. intuition congruence. }
    split; [intros ->; not_ok|].
    repeat split; intros; exfalso;
      match goal with
      | Hin : In _ evs |- _ => destruct (Hno _ Hin) as (? & [Hc|Hc]); discriminate Hc
      end.
  - match goal with
    | Ht : datafill_trace _ _ _ _ _ |- _ =>
        destruct (Hfill oid rel _ _ _ _ _ (refresh_prefix oid rel new) []
                    ltac:(eassumption) ltac:(eassumption) ltac:(eassumption) Ht
                    (or_intror eq_refl) ltac:(repeat constructor) ltac:(constructor))
          as (Hex & Hrw & Hplan & Hstart)
    end.
    rewrite app_nil_r in *.
    split; [intros ->; not_ok|]. split; [intros; exact Hex|].
    split; [exact Hrw|]. split; [exact Hplan | exact Hstart].
  - rewrite Hskip in *.
    match goal with
    | Hd : datafill_trace _ _ _ _ _ /\ _ |- _ => destruct Hd as [Ht _]
    end.
    destruct (Hfill oid rel _ _ _ _ _ (refresh_prefix oid rel new)
                (refresh_suffix oid new w)
                ltac:(eassumption) ltac:(eassumption) ltac:(eassumption) Ht
                (or_introl eq_refl) ltac:(repeat constructor) ltac:(repeat constructor))
      as (Hex & Hrw & Hplan & Hstart).
    split; [intros _; exact Hex|]. split; [intros; exact Hex|].
    split; [exact Hrw|]. split; [exact Hplan | exact Hstart].
Qed.

(** *** Validation of the view *)

(** A materialized view as the refresh expects it: of the right kind,
    outside the system catalogs, without OIDs, and with exactly one rule,
    a SELECT INSTEAD rule whose only action is [q]. *)
Definition valid_matview (rel : RelationData) (q : Query) : Prop :=
  relkind (rd_rel rel) = RELKIND_MATVIEW
  /\ IsSystemRelation rel = false
  /\ relhasoids (rd_rel rel) = false
  /\ relhasrules (rd_rel rel) = true
  /\ exists rule,
       rd_rules rel = Some (mkRuleLock 1 [rule])
       /\ event rule = CMD_SELECT /\ isInstead rule = true
       /\ actions rule = [q].

(** The relation [name] resolves to for its owner. *)
Definition resolves_to (w : PgWorld) (name : string) (oid : Oid) (rel : RelationData) : Prop :=
  relnames w !! name = Some oid
  /\ relcache w !! oid = Some rel
  /\ relowner (rd_rel rel) = userid w.

Definition is_make_new_heap (e : Event) : bool :=
  match e with
  | EvMakeNewHeap _ _ _ => true
  | _ => false
  end.

Ltac pg_forward :=
  repeat first
    [ progress cbn -[refresh_matview_datafill used_ids new_heap_of]
    | rewrite andb_false_r
    | match goal with
      | E : relnames _ !! _ = Some _ |- _ => rewrite E
      | E : relcache _ !! _ = Some _ |- _ => rewrite E
      | E : rd_rules _ = Some _ |- _ => rewrite E
      | E : relkind _ = _ |- _ => rewrite E
      | E : relhasrules _ = _ |- _ => rewrite E
      | E : relhasoids _ = _ |- _ => rewrite E
      | E : IsSystemRelation _ = _ |- _ => rewrite E
      | E : event _ = _ |- _ => rewrite E
      | E : isInstead _ = _ |- _ => rewrite E
      | E : actions _ = _ |- _ => rewrite E
      | E : (_ <? _) = _ |- _ => rewrite E
      | E : (_ >? _) = _ |- _ => rewrite E
      | E : bool_decide _ = _ |- _ => rewrite E
      | |- context [bool_decide ?P] =>
          first [ rewrite (bool_decide_eq_true_2 P)
                    by (first [reflexivity | assumption | discriminate | congruence])
                | rewrite (bool_decide_eq_false_2 P)
                    by (first [ discriminate | congruence
                              | (let HH := fresh in intros HH; apply HH; reflexivity) ]) ]
      end ].

(** C8.  A refresh of a valid view that is in active use in the current
    transaction fails with the object-in-use error.  By then it has only
    locked and opened the view: no transient relation has been made, and
    the relation cache and the storage are as they were. *)
Theorem active_use_guard_before_transient (stmt : RefreshMatViewStmt)
    (queryString : string) (w : PgWorld) (oid : Oid) (rel : RelationData)
    (q : Query) :
  resolves_to w (rv_relname (relation stmt)) oid rel ->
  valid_matview rel q ->
  rd_id rel ∈ in_use w ->
  exists e w',
    ExecRefreshMatView stmt queryString w = (Raised e, w')
    /\ elevel e = ERROR /\ sqlerrcode e = ERRCODE_OBJECT_IN_USE
    /\ new_events w w' = [EvLockRelation oid AccessExclusiveLock; EvHeapOpen oid]
    /\ Forall (fun ev => is_make_new_heap ev = false) (new_events w w')
    /\ relcache w' = relcache w /\ smgr w' = smgr w.
Proof.
  intros (Hname & Hrel & Hown) (Hkind & Hsys & Hoids & Hhas & rule & Hrules & Hev & Hins & Hact) Hbusy.
  assert (Hown' : bool_decide (relowner (rd_rel rel) = userid w) = true)
    by now apply bool_decide_eq_true_2.
  assert (Hbusy' : bool_decide (rd_id rel ∈ in_use w) = true)
    by now apply bool_decide_eq_true_2.
  eexists _, _. split.
  { unfold ExecRefreshMatView. pg_prims. unfold CheckTableNotInUse. pg_monad.
    pg_forward. reflexivity. }
  cbn [elevel sqlerrcode].
  assert (Hev' : forall w0 e1 e2,
             new_events w0 (set_log (fun l => l ++ [e2]) (set_log (fun l => l ++ [e1]) w0))
             = [e1; e2])
    by (intros; apply new_events_app; world_cbn; log_norm; reflexivity).
  rewrite Hev'. repeat split. repeat constructor.
Qed.

(** The shapes of rewrite information the refresh does not accept: no
    rule, several rules, a rule that is not SELECT INSTEAD, or a rule
    without exactly one action. *)
Inductive bad_rule_shape (rel : RelationData) : Prop :=
| BS_no_rules :
    relhasrules (rd_rel rel) = false ->
    bad_rule_shape rel
| BS_zero_rules locks :
    relhasrules (rd_rel rel) = true -> rd_rules rel = Some locks ->
    numLocks locks < 1 ->
    bad_rule_shape rel
| BS_many_rules locks :
    relhasrules (rd_rel rel) = true -> rd_rules rel = Some locks ->
    numLocks locks > 1 ->
    bad_rule_shape rel
| BS_not_select_instead locks rule :
    relhasrules (rd_rel rel) = true -> rd_rules rel = Some locks ->
    numLocks locks = 1 -> rules locks !! 0%nat = Some rule ->
    event rule <> CMD_SELECT \/ isInstead rule = false ->
    bad_rule_shape rel
| BS_not_single_action locks rule :
    relhasrules (rd_rel rel) = true -> rd_rules rel = Some locks ->
    numLocks locks = 1 -> rules locks !! 0%nat = Some rule ->
    event rule = CMD_SELECT -> isInstead rule = true ->
    length (actions rule) <> 1%nat ->
    bad_rule_shape rel.

(** The shapes the validation catches.  A refresh of a materialized view
    whose rewrite information has one of the bad shapes above fails with
    an error of code [ERRCODE_INTERNAL_ERROR], raised by [elog] and so not
    a user-facing error.  By then it has only locked and opened the view:
    it has used no rule and no action, made no transient relation, and
    changed neither the relation cache nor the storage.  The shapes above
    all have a rule lock to read [numLocks] from whenever [relhasrules]
    is set; the one that has none is [refresh_reads_missing_rule_lock]
    below. *)
Theorem rule_shape_enforced (stmt : RefreshMatViewStmt)
    (queryString : string) (w : PgWorld) (oid : Oid) (rel : RelationData) :
  resolves_to w (rv_relname (relation stmt)) oid rel ->
  relkind (rd_rel rel) = RELKIND_MATVIEW ->
  IsSystemRelation rel = false ->
  relhasoids (rd_rel rel) = false ->
  bad_rule_shape rel ->
  exists e w',
    ExecRefreshMatView stmt queryString w = (Raised e, w')
    /\ elevel e = ERROR /\ sqlerrcode e = ERRCODE_INTERNAL_ERROR
    /\ new_events w w' = [EvLockRelation oid AccessExclusiveLock; EvHeapOpen oid]
    /\ relcache w' = relcache w /\ smgr w' = smgr w.
Proof.
  intros (Hname & Hrel & Hown) Hkind Hsys Hoids Hbad.
  assert (Hown' : bool_decide (relowner (rd_rel rel) = userid w) = true)
    by now apply bool_decide_eq_true_2.
  assert (Hev' : forall w0 e1 e2,
             new_events w0 (set_log (fun l => l ++ [e2]) (set_log (fun l => l ++ [e1]) w0))
             = [e1; e2])
    by (intros; apply new_events_app; world_cbn; log_norm; reflexivity).
  destruct Hbad as [Hhas | locks Hhas Hrules Hnum | locks Hhas Hrules Hnum
                   | locks rule Hhas Hrules Hnum Hrule Hor
                   | locks rule Hhas Hrules Hnum Hrule Hevt Hins Hlen].
  all: try (assert (Hlt : (numLocks locks <? 1) = true) by (apply Z.ltb_lt; lia)).
  all: try (assert (Hlt : (numLocks locks <? 1) = false) by (apply Z.ltb_ge; lia)).
  all: try (assert (Hgt : (numLocks locks >? 1) = true)
              by (rewrite Z.gtb_ltb; apply Z.ltb_lt; lia)).
  all: try (assert (Hgt : (numLocks locks >? 1) = false)
              by (rewrite Z.gtb_ltb; apply Z.ltb_ge; lia)).
  4: destruct Hor as [Hne | Hni];
     [ assert (Hevt : bool_decide (event rule <> CMD_SELECT) = true)
         by now apply bool_decide_eq_true_2
     | destruct (bool_decide (event rule <> CMD_SELECT)) eqn:Hevt ].
  all: eexists _, _.
  all: (split;
        [ unfold ExecRefreshMatView; pg_prims; pg_forward;
          rewrite ?Hrule; pg_forward; rewrite ?Hevt, ?Hni; pg_forward;
          reflexivity |]).
  all: cbn [elevel sqlerrcode]; rewrite Hev'; repeat split.
Qed.

(** The shape the validation misses: the catalog row says the view has
    rules ([relhasrules] is set) while the descriptor holds no rule lock
    ([rd_rules] is NULL), which is how the relation cache presents a view
    with zero rules and a stale flag.  The test
    [relhasrules == false || rd_rules->numLocks < 1] then reads through
    the NULL pointer: the refresh does not raise the internal error of the
    other shapes but takes the backend down, with assertions or without. *)
Lemma refresh_reads_missing_rule_lock (stmt : RefreshMatViewStmt)
    (queryString : string) (w : PgWorld) (oid : Oid) (rel : RelationData) :
  resolves_to w (rv_relname (relation stmt)) oid rel ->
  relkind (rd_rel rel) = RELKIND_MATVIEW ->
  IsSystemRelation rel = false ->
  relhasoids (rd_rel rel) = false ->
  relhasrules (rd_rel rel) = true ->
  rd_rules rel = None ->
  exists w',
    ExecRefreshMatView stmt queryString w
    = (Trapped (TrapNullPointer "matviewRel->rd_rules"), w')
    /\ new_events w w' = [EvLockRelation oid AccessExclusiveLock; EvHeapOpen oid].
Proof.
  intros (Hname & Hrel & Hown) Hkind Hsys Hoids Hhas Hnull.
  assert (Hown' : bool_decide (relowner (rd_rel rel) = userid w) = true)
    by now apply bool_decide_eq_true_2.
  eexists. split.
  { unfold ExecRefreshMatView. pg_prims. pg_forward. rewrite Hnull. reflexivity. }
  apply new_events_app. world_cbn. log_norm. reflexivity.
Qed.

(** *** Refreshing with no data, repeatedly *)

(** The view after a refresh with no data that started in [w]: on the
    storage of the transient relation, and not populated. *)
Definition emptied_view (w : PgWorld) (rel : RelationData) : RelationData :=
  set_rd_ispopulated false
    (set_rd_node (mkRelFileNode (reltablespace (rd_rel rel)) (fresh (used_ids w))) rel).

Lemma nodata_refresh_returns (stmt : RefreshMatViewStmt) (queryString : string)
    (w : PgWorld) (oid : Oid) (rel : RelationData) (q : Query) :
  skipData stmt = true ->
  resolves_to w (rv_relname (relation stmt)) oid rel ->
  valid_matview rel q ->
  rd_id rel ∉ in_use w ->
  exists w', ExecRefreshMatView stmt queryString w = (Ok tt, w').
Proof.
  intros Hskip (Hname & Hrel & Hown)
         (Hkind & Hsys & Hoids & Hhas & rule & Hrules & Hev & Hins & Hact) Hfree.
  assert (Hown' : bool_decide (relowner (rd_rel rel) = userid w) = true)
    by now apply bool_decide_eq_true_2.
  assert (Hfree' : bool_decide (rd_id rel ∈ in_use w) = false)
    by now apply bool_decide_eq_false_2.
  eexists.
  unfold ExecRefreshMatView. pg_prims. unfold CheckTableNotInUse. pg_monad.
  rewrite Hskip.
  repeat first [ progress pg_forward
               | rewrite used_ids_set_log
               | rewrite lookup_insert_eq
               | rewrite lookup_insert_ne by fresh_neq ].
  reflexivity.
Qed.

(** One refresh with no data of a valid view that is not in use. *)
Lemma nodata_refresh_step (stmt : RefreshMatViewStmt) (queryString : string)
    (w : PgWorld) (oid : Oid) (rel : RelationData) (q : Query) :
  skipData stmt = true ->
  resolves_to w (rv_relname (relation stmt)) oid rel ->
  valid_matview rel q ->
  rd_id rel ∉ in_use w ->
  exists w',
    ExecRefreshMatView stmt queryString w = (Ok tt, w')
    /\ resolves_to w' (rv_relname (relation stmt)) oid (emptied_view w rel)
    /\ in_use w' = in_use w
    /\ smgr w' !! fresh (used_ids w) = Some empty_storage
    /\ fresh (used_ids w) <> relNode (rd_node rel).
Proof.
  intros Hskip Hres Hvalid Hfree.
  destruct (nodata_refresh_returns _ queryString _ _ _ _ Hskip Hres Hvalid Hfree)
    as [w' Hrun].
  exists w'. split; [exact Hrun|].
  destruct Hres as (Hname & Hrel & Hown).
  apply ExecRefreshMatView_spec in Hrun as (evs & _ & Hsess & Hout).
  destruct Hsess as (Hnames & Huse & Huid & _).
  inversion Hout; subst; try not_ok.
  rewrite Hskip in *.
  match goal with Hd : _ = [] /\ _ |- _ => destruct Hd as [_ ->] end.
  assert (oid0 = oid) as -> by congruence.
  assert (rel0 = rel) as -> by congruence.
  destruct Hvalid as (Hkind & _).
  split; [|split; [exact Huse | split; [assumption | fresh_neq]]].
  unfold resolves_to. rewrite Hnames, Huid. split; [exact Hname|].
  split; [|exact Hown].
  match goal with Hv : relcache w' !! oid = Some _ |- _ => rewrite Hv end.
  unfold refreshed_view, emptied_view, storage_is_populated.
  rewrite Hkind. reflexivity.
Qed.

Lemma valid_matview_emptied (w : PgWorld) (rel : RelationData) (q : Query) :
  valid_matview rel q -> valid_matview (emptied_view w rel) q.
Proof. now destruct rel. Qed.

(** Two refreshes with no data in a row, of the view [oid] that is [rel]
    in [w]: both return; after each the view has the OID, catalog row and
    rules it had, its populated flag is [populated], its storage is new and
    holds no page and no row. *)
Definition nodata_twice (populated : bool) (stmt : RefreshMatViewStmt)
    (queryString : string) (w : PgWorld) (oid : Oid) (rel : RelationData) : Prop :=
  exists w1 w2 v1 v2,
    ExecRefreshMatView stmt queryString w = (Ok tt, w1)
    /\ ExecRefreshMatView stmt queryString w1 = (Ok tt, w2)
    /\ relcache w1 !! oid = Some v1 /\ relcache w2 !! oid = Some v2
    /\ (rd_id v1 = rd_id rel /\ rd_rel v1 = rd_rel rel /\ rd_rules v1 = rd_rules rel)
    /\ (rd_id v2 = rd_id rel /\ rd_rel v2 = rd_rel rel /\ rd_rules v2 = rd_rules rel)
    /\ rd_ispopulated v1 = populated /\ rd_ispopulated v2 = populated
    /\ smgr w1 !! relNode (rd_node v1) = Some empty_storage
    /\ smgr w2 !! relNode (rd_node v2) = Some empty_storage
    /\ relNode (rd_node v1) <> relNode (rd_node rel)
    /\ relNode (rd_node v2) <> relNode (rd_node v1).

(** C6, with the populated state the code leaves.  Refreshing a valid
    materialized view with no data twice in a row succeeds both times and
    yields an empty view that is NOT populated both times, on a new storage
    identity each time, while the view's own OID, catalog row and rules are
    unchanged. *)
Theorem nodata_refresh_twice_unpopulated (stmt : RefreshMatViewStmt)
    (queryString : string) (w : PgWorld) (oid : Oid) (rel : RelationData)
    (q : Query) :
  skipData stmt = true ->
  resolves_to w (rv_relname (relation stmt)) oid rel ->
  valid_matview rel q ->
  rd_id rel ∉ in_use w ->
  nodata_twice false stmt queryString w oid rel.
Proof.
  intros Hskip Hres Hvalid Hfree.
  destruct (nodata_refresh_step _ queryString _ _ _ _ Hskip Hres Hvalid Hfree)
    as (w1 & Hrun1 & Hres1 & Huse1 & Hsm1 & Hne1).
  assert (Hfree1 : rd_id (emptied_view w rel) ∉ in_use w1) by now rewrite Huse1.
  destruct (nodata_refresh_step _ queryString _ _ _ _ Hskip Hres1
              (valid_matview_emptied w rel q Hvalid) Hfree1)
    as (w2 & Hrun2 & Hres2 & _ & Hsm2 & Hne2).
  exists w1, w2, (emptied_view w rel), (emptied_view w1 (emptied_view w rel)).
  destruct Hres1 as (_ & Hv1 & _). destruct Hres2 as (_ & Hv2 & _).
  repeat match goal with |- _ /\ _ => split end;
    try assumption; try reflexivity.
Qed.

(** ** Further properties of the refresh *)

(** *** What is checked before anything is made *)

Lemma two_new_events (w : PgWorld) (e1 e2 : Event) :
  new_events w (set_log (fun l => l ++ [e2]) (set_log (fun l => l ++ [e1]) w))
  = [e1; e2].
Proof. apply new_events_app. world_cbn. log_norm. reflexivity. Qed.

(** X1.  A relation that [heap_open] accepts but that is no materialized view
    (a table, a view, a sequence, ...) is refused with the
    feature-not-supported error naming it, once it is locked and opened;
    its rewrite information and its use by other queries are not looked
    at. *)
Theorem refresh_refuses_other_relations (stmt : RefreshMatViewStmt)
    (queryString : string) (w : PgWorld) (oid : Oid) (rel : RelationData) :
  resolves_to w (rv_relname (relation stmt)) oid rel ->
  relkind (rd_rel rel) <> RELKIND_MATVIEW ->
  relkind (rd_rel rel) <> RELKIND_INDEX ->
  relkind (rd_rel rel) <> RELKIND_COMPOSITE_TYPE ->
  exists w',
    ExecRefreshMatView stmt queryString w
    = (Raised (mkErrorData ERROR ERRCODE_FEATURE_NOT_SUPPORTED
                 (dq ++ "%s" ++ dq ++ " is not a materialized view")
                 [relname (rd_rel rel)]),
       w')
    /\ new_events w w' = [EvLockRelation oid AccessExclusiveLock; EvHeapOpen oid]
    /\ relcache w' = relcache w /\ smgr w' = smgr w.
Proof.
  intros (Hname & Hrel & Hown) Hmv Hix Hct.
  assert (Hown' : bool_decide (relowner (rd_rel rel) = userid w) = true)
    by now apply bool_decide_eq_true_2.
  eexists. split.
  { unfold ExecRefreshMatView. pg_prims. pg_forward. reflexivity. }
  rewrite two_new_events. repeat split.
Qed.

(** X2.  With assertions compiled in, a materialized view that lies in a system
    namespace, or that has OIDs, stops the backend on the corresponding
    assertion, before its rules are looked at. *)
Theorem refresh_asserts_plain_matview (stmt : RefreshMatViewStmt)
    (queryString : string) (w : PgWorld) (oid : Oid) (rel : RelationData) :
  USE_ASSERT_CHECKING = true ->
  resolves_to w (rv_relname (relation stmt)) oid rel ->
  relkind (rd_rel rel) = RELKIND_MATVIEW ->
  IsSystemRelation rel = true \/ relhasoids (rd_rel rel) = true ->
  exists w',
    ExecRefreshMatView stmt queryString w
    = (Trapped (TrapFailedAssertion
                  (if IsSystemRelation rel then "!IsSystemRelation(matviewRel)"
                   else "!matviewRel->rd_rel->relhasoids")),
       w')
    /\ new_events w w' = [EvLockRelation oid AccessExclusiveLock; EvHeapOpen oid]
    /\ relcache w' = relcache w /\ smgr w' = smgr w.
Proof.
  intros Hua (Hname & Hrel & Hown) Hkind Hbad.
  assert (Hown' : bool_decide (relowner (rd_rel rel) = userid w) = true)
    by now apply bool_decide_eq_true_2.
  eexists. split.
  { unfold ExecRefreshMatView. pg_prims. rewrite Hua. pg_forward.
    destruct (IsSystemRelation rel) eqn:Hsys; pg_forward; [reflexivity|].
    destruct Hbad as [Hbad|Hbad]; [discriminate Hbad|].
    pg_forward. reflexivity. }
  rewrite two_new_events. repeat split.
Qed.

(** *** What a refresh with no data leaves out *)

(** X3.  With [skipData] set the defining query is neither rewritten, planned
    nor executed and nothing is written: whatever the outcome, the refresh
    records no event of the data fill or of the receiver, and when it
    returns it has recorded exactly the validation, the making of the
    transient relation, the swap and the invalidation. *)
Theorem nodata_refresh_runs_no_query (stmt : RefreshMatViewStmt)
    (queryString : string) (w : PgWorld) (r : Result unit) (w' : PgWorld) :
  skipData stmt = true ->
  ExecRefreshMatView stmt queryString w = (r, w') ->
  Forall (fun e => is_fill_event e = false) (new_events w w')
  /\ (r = Ok tt ->
      exists oid rel,
        relnames w !! rv_relname (relation stmt) = Some oid
        /\ relcache w !! oid = Some rel
        /\ new_events w w'
           = refresh_prefix oid rel (fresh (used_ids w))
             ++ refresh_suffix oid (fresh (used_ids w)) w).
Proof.
  intros Hskip H.
  apply ExecRefreshMatView_spec in H as (evs & Hlog & _ & Hout).
  rewrite (new_events_app _ _ _ Hlog).
  inversion Hout; subst.
  - split; [|intros ->; not_ok].
    eapply Forall_prefix_of; [eassumption|]. repeat constructor.
  - congruence.
  - rewrite Hskip in *.
    match goal with Hd : _ = [] /\ _ |- _ => destruct Hd as [-> ->] end.
    split; [repeat constructor|]. intros _. exists oid, rel. auto.
Qed.

(** *** What a refresh that returns has touched *)


(** *** What a data fill leaves in the view *)

Lemma sink_final_storage_tuples (st : DR_transientrel) (rows : list TupleTableSlot)
    (s : Storage) :
  tuples (sink_final_storage st rows s) = tuples s ++ map (stored_of st) rows.
Proof.
  unfold sink_final_storage.
  destruct (negb _); cbn [tuples]; now rewrite received_storage_tuples.
Qed.

Lemma started_options_frozen (w : PgWorld) :
  (Z.land (started_options w) HEAP_INSERT_FROZEN =? 0) = false.
Proof. unfold started_options. now destruct (XLogIsNeeded w). Qed.

(** X5.  Every row the receiver is given after it has been opened is
    stored, in the order given, frozen and with as its cmin the command
    id that was current when the receiver was opened (the state in which
    [transientrel_startup] ran), whatever the WAL level. *)
Theorem received_rows_frozen_and_stamped (myState : DR_transientrel)
    (operation : Z) (typeinfo : TupleDesc) (rows : list TupleTableSlot)
    (w : PgWorld) (st1 : DR_transientrel) (w1 : PgWorld) :
  transientrel_startup myState operation typeinfo w = (Ok st1, w1) ->
  exists rel s1 w2 s2 added,
    transientrel st1 = Some rel
    /\ smgr w1 !! relNode (rd_node rel) = Some s1
    /\ send_rows transientrel_pub rows st1 w1 = (Ok st1, w2)
    /\ smgr w2 !! relNode (rd_node rel) = Some s2
    /\ tuples s2 = tuples s1 ++ added
    /\ map st_tuple added = map ExecMaterializeSlot rows
    /\ Forall (fun t => st_frozen t = true /\ st_cmin t = currentCommandId w) added.
Proof.
  intros H.
  apply transientrel_startup_ok in H as (rel & s & Hrel & Hs & -> & Hs1 & Hlog).
  set (st1 := started_sink (transientoid myState) rel w).
  exists rel, (opened_storage s),
         (received_world st1 rel rows (opened_storage s) w1),
         (received_storage st1 rows (opened_storage s)),
         (map (stored_of st1) rows).
  split; [reflexivity|]. split; [exact Hs1|].
  split; [apply send_rows_transient; [reflexivity | exact Hs1]|].
  split; [unfold received_world; world_cbn; apply lookup_insert_eq|].
  split; [apply received_storage_tuples|].
  split; [rewrite map_map; reflexivity|].
  apply Forall_map, Forall_forall. intros slot _.
  unfold stored_of, st1. cbn [st_frozen st_cmin hi_options output_cid started_sink].
  now rewrite started_options_frozen.
Qed.

Definition is_heap_sync (e : Event) : bool :=
  match e with EvHeapSync _ => true | _ => false end.

Definition is_xlog_insert (e : Event) : bool :=
  match e with EvXLogInsert _ _ => true | _ => false end.

(** What the receiver records about durability, by whether it skips WAL. *)
Lemma sink_events_durability (st : DR_transientrel) (rel : RelationData)
    (rows : list TupleTableSlot) :
  if Z.land (hi_options st) HEAP_INSERT_SKIP_WAL =? 0
  then Forall (fun e => is_heap_sync e = false) (sink_events st rel rows)
  else Forall (fun e => is_xlog_insert e = false) (sink_events st rel rows)
       /\ In (EvHeapSync (rd_node rel)) (sink_events st rel rows).
Proof.
  unfold sink_events, sink_open_events, sink_close_events.
  destruct (Z.land _ _ =? 0) eqn:Ho; cbn [negb andb].
  - repeat first [ apply Forall_app; split | apply Forall_cons; split
                 | apply Forall_nil | reflexivity ].
    + destruct (RelationNeedsWAL rel); repeat constructor.
    + apply Forall_flat_map, Forall_forall. intros slot _. unfold insert_events.
      destruct (_ && _); repeat constructor.
  - split.
    + repeat first [ apply Forall_app; split | apply Forall_cons; split
                   | apply Forall_nil | reflexivity ].
      * destruct (RelationNeedsWAL rel); repeat constructor.
      * apply Forall_flat_map, Forall_forall. intros slot _. unfold insert_events.
        rewrite Ho. repeat constructor.
    + rewrite !in_app_iff. right. right. cbn. auto.
Qed.

Lemma datafill_done_durability (oid : Oid) (w : PgWorld) (q : Query)
    (evs : list Event) (rel : RelationData) :
  relcache w !! oid = Some rel ->
  datafill_trace oid w q (Ok tt) evs ->
  if XLogIsNeeded w
  then Forall (fun e => is_heap_sync e = false) evs
  else Forall (fun e => is_xlog_insert e = false) evs
       /\ In (EvHeapSync (rd_node rel)) evs.
Proof.
  intros Hrel Ht. inversion Ht; subst; try not_ok.
  match goal with
  | H1 : relcache w !! oid = Some ?r1 |- _ => assert (r1 = rel) as -> by congruence
  end.
  match goal with
  | |- context [sink_events ?st ?rl ?rows] =>
      pose proof (sink_events_durability st rl rows) as Hd
  end.
  cbn [hi_options started_sink] in Hd. rewrite started_options_skip_wal in Hd.
  unfold datafill_head, datafill_push, datafill_tail.
  destruct (XLogIsNeeded w).
  - repeat first [ assumption | apply Forall_app; split | apply Forall_cons; split
                 | apply Forall_nil | reflexivity ].
  - destruct Hd as [Hx Hs]. split.
    + repeat first [ assumption | apply Forall_app; split | apply Forall_cons; split
                   | apply Forall_nil | reflexivity ].
    + cbn [app In]. do 7 right. apply in_app_iff. left. exact Hs.
Qed.

(** X6.  A data-filling refresh that returns has made the new contents durable
    in one of two ways.  When WAL is needed for archiving or replication it
    never calls [heap_sync].  When it is not, no row insert is WAL-logged;
    instead the transient relation is synced once the rows are in, and the
    storage the view ends up on is synced. *)
Theorem refresh_syncs_when_wal_skipped (stmt : RefreshMatViewStmt)
    (queryString : string) (w : PgWorld) (w' : PgWorld) :
  skipData stmt = false ->
  ExecRefreshMatView stmt queryString w = (Ok tt, w') ->
  if XLogIsNeeded w
  then Forall (fun e => is_heap_sync e = false) (new_events w w')
  else Forall (fun e => is_xlog_insert e = false) (new_events w w')
       /\ exists node filled,
            relNode node = fresh (used_ids w)
            /\ In (EvHeapSync node) (new_events w w')
            /\ smgr w' !! relNode node = Some filled
            /\ synced filled = true.
Proof.
  intros Hskip H.
  apply ExecRefreshMatView_spec in H as (evs & Hlog & _ & Hout).
  rewrite (new_events_app _ _ _ Hlog).
  inversion Hout; subst; try not_ok.
  rewrite Hskip in *.
  match goal with
  | Hd : _ /\ _, Hf : fill_start _ _ _ _ |- _ =>
      destruct Hd as (Ht & plan & snap & _ & _ & _ & ->);
      destruct Hf as (_ & Hwal & _ & Hheap & _)
  end.
  pose proof (datafill_done_durability _ _ _ _ _ Hheap Ht) as Hd.
  assert (Hx : XLogIsNeeded w1 = XLogIsNeeded w)
    by (unfold XLogIsNeeded; now rewrite Hwal).
  rewrite Hx in Hd.
  destruct (XLogIsNeeded w) eqn:Hneed.
  - repeat first [ assumption | apply Forall_app; split | apply Forall_cons; split
                 | apply Forall_nil | reflexivity ].
  - destruct Hd as [Hnox Hsync]. split.
    + repeat first [ assumption | apply Forall_app; split | apply Forall_cons; split
                   | apply Forall_nil | reflexivity ].
    + exists (rd_node heap). eexists.
      split; [reflexivity|]. split; [|split; [eassumption|]].
      * rewrite !in_app_iff. right. left. exact Hsync.
      * unfold sink_final_storage. cbn [hi_options started_sink].
        rewrite started_options_skip_wal, Hneed. reflexivity.
Qed.

(** *** How a data fill fails *)

Definition query_canceled : ErrorData :=
  mkErrorData ERROR ERRCODE_QUERY_CANCELED "canceling statement due to user request" [].

(** The rewrite of [q] is the single query [q0], whose range table begins
    with [r1] and [r2]. *)
Definition rewrites_to (q q0 : Query) (r1 r2 : RangeTblEntry) : Prop :=
  QueryRewrite_result q = [q0]
  /\ head (rtable q0) = Some r1
  /\ rtable q0 !! 1%nat = Some r2.

(** [Assert(strcmp(rte->alias->aliasname, name))] does not fail: assertions
    are compiled out, or the entry has an alias other than [name]. *)
Definition alias_assert_passes (rte : RangeTblEntry) (name : string) : Prop :=
  USE_ASSERT_CHECKING = true ->
  exists a, alias rte = Some a /\ aliasname a <> name.

Lemma strcmp_zero (a b : string) : (strcmp a b =? 0) = bool_decide (a = b).
Proof.
  unfold strcmp. destruct (String.compare a b) eqn:E.
  - apply String.compare_eq_iff in E. now rewrite bool_decide_eq_true_2.
  - rewrite bool_decide_eq_false_2; [reflexivity|].
    intros ->. pose proof (String.compare_antisym b b) as Ha.
    rewrite E in Ha. discriminate Ha.
  - rewrite bool_decide_eq_false_2; [reflexivity|].
    intros ->. pose proof (String.compare_antisym b b) as Ha.
    rewrite E in Ha. discriminate Ha.
Qed.

Lemma Assert_strcmp_alias_passes (rte : RangeTblEntry) (var name : string)
    (w : PgWorld) :
  alias_assert_passes rte name ->
  Assert_strcmp_alias rte var name w = (Ok tt, w).
Proof.
  intros Hpass. unfold Assert_strcmp_alias, alias_assert_passes in *.
  remember USE_ASSERT_CHECKING as b eqn:Hb in *. destruct b; [|reflexivity].
  destruct (Hpass eq_refl) as (a & Ha & Hne).
  rewrite Ha. unfold Assert. pg_monad. rewrite <- Hb.
  cbn [andb negb].
  rewrite strcmp_zero, bool_decide_eq_false_2 by exact Hne. reflexivity.
Qed.

Lemma Assert_strcmp_alias_fails (rte : RangeTblEntry) (var : string) (a : Alias)
    (w : PgWorld) :
  USE_ASSERT_CHECKING = true ->
  alias rte = Some a ->
  Assert_strcmp_alias rte var (aliasname a) w
  = (Trapped (TrapFailedAssertion
                ("strcmp(" ++ var ++ "->alias->aliasname, " ++ dq ++ aliasname a ++ dq ++ ")")),
     w).
Proof.
  intros Hua Ha. unfold Assert_strcmp_alias, Assert. pg_monad.
  rewrite Hua, Ha. cbn [andb negb].
  rewrite strcmp_zero, bool_decide_eq_true_2 by reflexivity.
  reflexivity.
Qed.

(** The data fill up to the planner, with the alias assertions folded. *)
Ltac fill_forward :=
  unfold refresh_matview_datafill, QueryRewrite, CHECK_FOR_INTERRUPTS, pg_plan_query,
    GetActiveSnapshot, PushCopiedSnapshot, UpdateActiveSnapshotCommandId,
    ExecutorStart, CreateQueryDesc, copyObject, GetCurrentCommandId;
  pg_monad;
  repeat first
    [ progress cbn -[ExecutorRun Assert_strcmp_alias]
    | rewrite Assert_strcmp_alias_passes by assumption
    | match goal with
      | E : QueryRewrite_result _ = _ |- _ => rewrite E
      | E : QueryCancelPending _ = _ |- _ => rewrite E
      | E : head (rtable _) = _ |- _ => rewrite E
      | E : rtable _ !! _ = _ |- _ => rewrite E
      | E : pg_plan_query_result _ = _ |- _ => rewrite E
      | E : ActiveSnapshot _ = _ |- _ => rewrite E
      | E : exec_start_error _ = _ |- _ => rewrite E
      | |- context [bool_decide ?P] =>
          first [ rewrite (bool_decide_eq_true_2 P) by (first [reflexivity | discriminate])
                | rewrite (bool_decide_eq_false_2 P)
                    by (let HH := fresh in intros HH; apply HH; reflexivity) ]
      end ].

(** X7.  A cancel request that is pending when the data fill begins is taken
    right after the rewrite: the fill raises the query-cancelled error
    with the request consumed, having planned nothing, pushed no snapshot
    and opened no receiver. *)
Theorem datafill_takes_pending_cancel {S : Type} (d : DestReceiverObj S)
    (q : Query) (qs : string) (w : PgWorld) (q0 : Query) :
  QueryRewrite_result q = [q0] ->
  QueryCancelPending w = true ->
  exists w',
    refresh_matview_datafill d q qs w = (Raised query_canceled, w')
    /\ new_events w w' = [EvQueryRewrite q; EvCheckForInterrupts]
    /\ QueryCancelPending w' = false
    /\ ActiveSnapshot w' = ActiveSnapshot w
    /\ relcache w' = relcache w /\ smgr w' = smgr w.
Proof.
  intros Hrw Hcancel. eexists. split; [fill_forward; reflexivity|].
  split; [|repeat split].
  apply new_events_app. world_cbn. log_norm. reflexivity.
Qed.

(** X8.  An error of the planner is the error of the data fill.  It is raised
    with the snapshot stack as it was (nothing has been pushed yet), the
    executor not started and the receiver not opened. *)
Theorem datafill_planner_error {S : Type} (d : DestReceiverObj S)
    (q : Query) (qs : string) (w : PgWorld) (q0 : Query)
    (r1 r2 : RangeTblEntry) (e : ErrorData) :
  rewrites_to q q0 r1 r2 ->
  QueryCancelPending w = false ->
  alias_assert_passes r1 "new" ->
  alias_assert_passes r2 "old" ->
  pg_plan_query_result (mark_result_rels q0 r1 r2) = inl e ->
  exists w',
    refresh_matview_datafill d q qs w = (Raised e, w')
    /\ new_events w w' = datafill_head q (mark_result_rels q0 r1 r2)
    /\ ActiveSnapshot w' = ActiveSnapshot w
    /\ relcache w' = relcache w /\ smgr w' = smgr w.
Proof.
  intros (Hrw & Hr1 & Hr2) Hcancel Ha1 Ha2 Hplan.
  unfold mark_result_rels in Hplan.
  eexists. split; [fill_forward; reflexivity|].
  split; [|repeat split].
  apply new_events_app. world_cbn. log_norm. reflexivity.
Qed.

(** X9.  An error of the executor's startup is the error of the data fill.  By
    then the copy of the active snapshot with the current command id has
    been pushed, and it is still on the stack when the error is raised:
    the fill does not pop it.  The receiver has not been opened. *)
Theorem datafill_executor_start_error {S : Type} (d : DestReceiverObj S)
    (q : Query) (qs : string) (w : PgWorld) (q0 : Query)
    (r1 r2 : RangeTblEntry) (plan : PlannedStmt) (s : SnapshotData)
    (rest : list SnapshotData) (e : ErrorData) :
  rewrites_to q q0 r1 r2 ->
  QueryCancelPending w = false ->
  alias_assert_passes r1 "new" ->
  alias_assert_passes r2 "old" ->
  pg_plan_query_result (mark_result_rels q0 r1 r2) = inr plan ->
  ActiveSnapshot w = s :: rest ->
  exec_start_error (ExecutePlan plan (pushed_snapshot s w)) = Some e ->
  exists w',
    refresh_matview_datafill d q qs w = (Raised e, w')
    /\ new_events w w'
       = datafill_head q (mark_result_rels q0 r1 r2) ++ datafill_push s w plan
    /\ ActiveSnapshot w' = pushed_snapshot s w :: s :: rest
    /\ relcache w' = relcache w /\ smgr w' = smgr w.
Proof.
  intros (Hrw & Hr1 & Hr2) Hcancel Ha1 Ha2 Hplan Hsnap Hstart.
  unfold mark_result_rels in Hplan. unfold pushed_snapshot in Hstart.
  eexists. split; [fill_forward; reflexivity|].
  split; [|repeat split].
  apply new_events_app. world_cbn. log_norm. reflexivity.
Qed.

(** X10.  With assertions compiled in, the data fill stops the backend
    when the rewritten query's first range-table entry is named [new]
    (on the assertion about [initial_rte]), or, that one passing, its
    second one is named [old] (on the assertion about [second_rte]): the
    rewrite leaves the two the other way round.  This happens after the
    interrupt check and before planning. *)
Theorem datafill_asserts_placeholder_order {S : Type} (d : DestReceiverObj S)
    (q : Query) (qs : string) (w : PgWorld) (q0 : Query)
    (r1 r2 : RangeTblEntry) (a : Alias) :
  USE_ASSERT_CHECKING = true ->
  rewrites_to q q0 r1 r2 ->
  QueryCancelPending w = false ->
  (alias r1 = Some a -> aliasname a = "new" ->
   exists w',
     refresh_matview_datafill d q qs w
     = (Trapped (TrapFailedAssertion
                   ("strcmp(initial_rte->alias->aliasname, " ++ dq ++ "new" ++ dq ++ ")")),
        w')
     /\ new_events w w' = [EvQueryRewrite q; EvCheckForInterrupts]
     /\ relcache w' = relcache w /\ smgr w' = smgr w)
  /\ (alias_assert_passes r1 "new" -> alias r2 = Some a -> aliasname a = "old" ->
      exists w',
        refresh_matview_datafill d q qs w
        = (Trapped (TrapFailedAssertion
                      ("strcmp(second_rte->alias->aliasname, " ++ dq ++ "old" ++ dq ++ ")")),
           w')
        /\ new_events w w' = [EvQueryRewrite q; EvCheckForInterrupts]
        /\ relcache w' = relcache w /\ smgr w' = smgr w).
Proof.
  intros Hua (Hrw & Hr1 & Hr2) Hcancel. split.
  - intros Ha Hn. eexists. split.
    { fill_forward. rewrite <- Hn, (Assert_strcmp_alias_fails _ _ _ _ Hua Ha), Hn.
      reflexivity. }
    split; [|repeat split].
    apply new_events_app; world_cbn; log_norm; reflexivity.
  - intros Hp Ha Hn. eexists. split.
    { fill_forward. rewrite <- Hn, (Assert_strcmp_alias_fails _ _ _ _ Hua Ha), Hn.
      reflexivity. }
    split; [|repeat split].
    apply new_events_app; world_cbn; log_norm; reflexivity.
Qed.

(** *** The refresh as validation, data fill and swap *)

(** The state in which the data fill of a refresh begun in [w] starts: the
    view is locked and validated and the transient relation is made. *)
Definition transient_made (w : PgWorld) (oid : Oid) (rel : RelationData) : PgWorld :=
  let new := fresh (used_ids w) in
  set_log (fun l => l ++ refresh_prefix oid rel new)
    (set_relcache (insert new (new_heap_of rel oid new (reltablespace (rd_rel rel))))
       (set_smgr (insert new empty_storage) w)).

Lemma PgWorld_eq (a b : PgWorld) :
  relnames a = relnames b -> relcache a = relcache b -> smgr a = smgr b ->
  in_use a = in_use b -> userid a = userid b -> wal_level a = wal_level b ->
  QueryCancelPending a = QueryCancelPending b ->
  currentCommandId a = currentCommandId b ->
  ActiveSnapshot a = ActiveSnapshot b -> RecentXmin a = RecentXmin b ->
  nextMXact a = nextMXact b -> log a = log b ->
  a = b.
Proof. destruct a, b. cbn. intros. subst. reflexivity. Qed.

(** X11.  For a valid view that is not in use, a refresh with data runs the data
    fill on the single action of the view's rule, with the receiver of the
    transient relation just made, and a failure of that fill is the
    refresh's own: same error, same final state, no swap attempted. *)
Theorem refresh_fails_as_its_fill (stmt : RefreshMatViewStmt)
    (queryString : string) (w : PgWorld) (oid : Oid) (rel : RelationData)
    (q : Query) (r : Result unit) (w2 : PgWorld) :
  skipData stmt = false ->
  resolves_to w (rv_relname (relation stmt)) oid rel ->
  valid_matview rel q ->
  rd_id rel ∉ in_use w ->
  refresh_matview_datafill (CreateTransientRelDestReceiver (fresh (used_ids w)))
                           q queryString (transient_made w oid rel)
  = (r, w2) ->
  (forall a, r <> Ok a) ->
  ExecRefreshMatView stmt queryString w = (r, w2).
Proof.
  intros Hskip (Hname & Hrel & Hown)
         (Hkind & Hsys & Hoids & Hhas & rule & Hrules & Hev & Hins & Hact)
         Hfree Hfill Hfail.
  assert (Hown' : bool_decide (relowner (rd_rel rel) = userid w) = true)
    by now apply bool_decide_eq_true_2.
  assert (Hfree' : bool_decide (rd_id rel ∈ in_use w) = false)
    by now apply bool_decide_eq_false_2.
  unfold ExecRefreshMatView. pg_prims. unfold CheckTableNotInUse. pg_monad.
  rewrite Hskip.
  repeat first [ progress pg_forward
               | rewrite used_ids_set_log
               | rewrite lookup_insert_eq
               | rewrite lookup_insert_ne by fresh_neq ].
  match goal with
  | |- context [refresh_matview_datafill ?d q queryString ?W] =>
      replace W with (transient_made w oid rel)
  end.
  - rewrite Hfill. destruct r; [not_ok | reflexivity | reflexivity].
  - apply PgWorld_eq; unfold transient_made, refresh_prefix; world_cbn;
      try reflexivity.
    rewrite <- !app_assoc. reflexivity.
Qed.

(** *** The populated-state transition happens once *)

(** X12.  With assertions compiled in, the transition cannot be repeated: after
    [SetMatViewToPopulated] has run on an unpopulated materialized view,
    the descriptor the relation cache then holds says populated, and a
    second call on it stops on the second assertion, leaving the state
    alone. *)
Theorem SetMatViewToPopulated_only_once (rel : RelationData) (w : PgWorld)
    (st : Storage) :
  USE_ASSERT_CHECKING = true ->
  relkind (rd_rel rel) = RELKIND_MATVIEW ->
  rd_ispopulated rel = false ->
  relcache w !! rd_id rel = Some rel ->
  smgr w !! relNode (rd_node rel) = Some st ->
  exists w' rel',
    SetMatViewToPopulated rel w = (Ok tt, w')
    /\ relcache w' !! rd_id rel = Some rel'
    /\ rd_ispopulated rel' = true
    /\ SetMatViewToPopulated rel' w'
       = (Trapped (TrapFailedAssertion "relation->rd_ispopulated == false"), w').
Proof.
  intros Hua Hkind Hpop Hrc Hst.
  assert (Hrun : exists w',
             SetMatViewToPopulated rel w = (Ok tt, w')
             /\ relcache w' !! rd_id rel = Some (set_rd_ispopulated true rel)).
  { unfold SetMatViewToPopulated, Assert, smgrextend, smgrimmedsync, log_newpage,
      RelationCacheInvalidateEntry, RelationOpenSmgr.
    rewrite Hkind, Hpop. pg_monad.
    rewrite !bool_decide_eq_true_2 by reflexivity. cbn [andb negb].
    rewrite !andb_false_r.
    destruct (RelationNeedsWAL rel) eqn:Hwal; cbn; rewrite Hst; cbn.
    all: eexists; split; [reflexivity|].
    all: cbn; rewrite !lookup_alter_eq, ?lookup_insert_eq, Hrc; cbn.
    all: rewrite Hkind; unfold storage_is_populated; cbn.
    all: rewrite !lookup_alter_eq, ?lookup_insert_eq; reflexivity. }
  destruct Hrun as (w' & Hrun & Hrc').
  exists w', (set_rd_ispopulated true rel).
  split; [exact Hrun|]. split; [exact Hrc'|]. split; [reflexivity|].
  unfold SetMatViewToPopulated, Assert. pg_monad.
  cbn [rd_rel rd_ispopulated set_rd_ispopulated]. rewrite Hua, Hkind.
  rewrite bool_decide_eq_true_2 by reflexivity.
  rewrite bool_decide_eq_false_2 by discriminate. reflexivity.
Qed.

(** *** The order in which a refresh ends *)

(** X13.  A data-filling refresh that returns ends in this order: the receiver
    frees its bulk-insert state, syncs the transient relation if it
    skipped WAL, and closes it; the executor is finished and ended; the
    snapshot is popped; then the storage is swapped, and last the view's
    cache entry is invalidated.  So the swap sees the rows already written
    and, where WAL was skipped, already synced. *)
Theorem refresh_swaps_after_close (stmt : RefreshMatViewStmt)
    (queryString : string) (w : PgWorld) (w' : PgWorld) :
  skipData stmt = false ->
  ExecRefreshMatView stmt queryString w = (Ok tt, w') ->
  exists oid node relid plan before,
    relnames w !! rv_relname (relation stmt) = Some oid
    /\ relNode node = fresh (used_ids w) /\ relid = fresh (used_ids w)
    /\ new_events w w'
       = before
         ++ [EvFreeBulkInsertState]
         ++ (if XLogIsNeeded w then [] else [EvHeapSync node])
         ++ [EvHeapClose relid;
             EvExecutorFinish plan; EvExecutorEnd plan; EvPopSnapshot;
             EvFinishHeapSwap oid (fresh (used_ids w)) (RecentXmin w) (nextMXact w);
             EvRelationCacheInvalidate oid].
Proof.
  intros Hskip H.
  apply ExecRefreshMatView_spec in H as (evs & Hlog & _ & Hout).
  rewrite (new_events_app _ _ _ Hlog).
  inversion Hout; subst; try not_ok.
  rewrite Hskip in *.
  match goal with
  | Hd : _ /\ _, Hf : fill_start _ _ _ _ |- _ =>
      destruct Hd as (Ht & _);
      destruct Hf as (_ & Hwal & _ & Hheap & _)
  end.
  assert (Hx : XLogIsNeeded w1 = XLogIsNeeded w)
    by (unfold XLogIsNeeded; now rewrite Hwal).
  inversion Ht; subst; try not_ok.
  match goal with
  | H1 : relcache w1 !! new = Some ?r1 |- _ =>
      assert (r1 = heap) as -> by congruence
  end.
  exists oid, (rd_node heap), (rd_id heap), plan.
  exists (refresh_prefix oid rel new
          ++ datafill_head q (mark_result_rels q0 r1 r2)
          ++ datafill_push s w1 plan
          ++ EvExecutorRun plan
             :: sink_open_events new heap
             ++ flat_map (insert_events (started_sink new heap w1) heap)
                         (exec_rows (ExecutePlan plan (pushed_snapshot s w1)))).
  split; [assumption|]. split; [reflexivity|]. split; [reflexivity|].
  unfold sink_events, sink_close_events, datafill_tail, refresh_suffix.
  cbn [hi_options started_sink transientoid].
  rewrite started_options_skip_wal, Hx.
  destruct (XLogIsNeeded w); cbn [negb].
  all: repeat (rewrite <- ?app_assoc; cbn [app]).
  all: reflexivity.
Qed.

(** *** Where the transient relation is made *)

Lemma datafill_trace_makes_no_heap (oid : Oid) (w : PgWorld) (q : Query)
    (r : Result unit) (evs : list Event) :
  datafill_trace oid w q r evs -> Forall (fun e => is_make_new_heap e = false) evs.
Proof.
  assert (Hsink : forall st rel rows sevs,
             sevs `prefix_of` sink_events st rel rows ->
             Forall (fun e => is_make_new_heap e = false) sevs).
  { intros st rel rows sevs Hpre.
    eapply sink_prefix_Forall; [|exact Hpre]. now intros []. }
  intros Ht. inversion Ht; subst.
  all: unfold datafill_head, datafill_push, datafill_tail.
  all: repeat match goal with
         | Hm : match relcache ?w0 !! ?o with _ => _ end |- _ =>
             destruct (relcache w0 !! o) eqn:?
         | Hp : ?sevs `prefix_of` sink_events _ _ _ |- _ =>
             apply Hsink in Hp
         | Hp : ?sevs = [] |- _ => subst sevs
         end.
  all: repeat first [ assumption | solve [eapply Hsink; reflexivity]
                    | apply Forall_app; split | apply Forall_cons; split
                    | apply Forall_nil | reflexivity ].
Qed.

(** X14.  A refresh makes at most one transient relation, for the view it was
    asked to refresh and in the tablespace the view's catalog row names;
    a refresh that returns leaves the view's storage in that tablespace. *)
Theorem refresh_keeps_tablespace (stmt : RefreshMatViewStmt)
    (queryString : string) (w : PgWorld) (r : Result unit) (w' : PgWorld) :
  ExecRefreshMatView stmt queryString w = (r, w') ->
  (forall o n ts,
     In (EvMakeNewHeap o n ts) (new_events w w') ->
     exists rel,
       relnames w !! rv_relname (relation stmt) = Some o
       /\ relcache w !! o = Some rel
       /\ n = fresh (used_ids w)
       /\ ts = reltablespace (rd_rel rel))
  /\ (length (List.filter is_make_new_heap (new_events w w')) <= 1)%nat
  /\ (r = Ok tt ->
      exists oid rel view,
        relnames w !! rv_relname (relation stmt) = Some oid
        /\ relcache w !! oid = Some rel
        /\ relcache w' !! oid = Some view
        /\ spcNode (rd_node view) = reltablespace (rd_rel rel)).
Proof.
  intros H.
  apply ExecRefreshMatView_spec in H as (evs & Hlog & _ & Hout).
  rewrite (new_events_app _ _ _ Hlog).
  assert (Hnone : forall l, Forall (fun e => is_make_new_heap e = false) l ->
                            (forall o n ts, ~ In (EvMakeNewHeap o n ts) l)
                            /\ List.filter is_make_new_heap l = []).
  { intros l Hl. split.
    - intros o n ts Hin. rewrite Forall_forall in Hl.
      apply list_elem_of_In, Hl in Hin. discriminate Hin.
    - induction Hl as [|e l He _ IH]; [reflexivity|].
      cbn. now rewrite He. }
  inversion Hout; subst.
  - assert (HF : Forall (fun e => is_make_new_heap e = false) evs)
      by (eapply Forall_prefix_of; [eassumption|]; repeat constructor).
    destruct (Hnone _ HF) as [Hin Hflt].
    split; [intros o n tsp Hi; destruct (Hin _ _ _ Hi)|].
    split; [rewrite Hflt; cbn; lia | intros ->; not_ok].
  - match goal with
    | Ht : datafill_trace _ _ _ _ _ |- _ =>
        destruct (Hnone _ (datafill_trace_makes_no_heap _ _ _ _ _ Ht)) as [Hin Hflt]
    end.
    split; [|split; [|intros ->; not_ok]].
    + intros o n tsp Hi. cbn [refresh_prefix app In] in Hi.
      repeat (destruct Hi as [Hi|Hi];
              [first [discriminate Hi | injection Hi as <- <- <-; eauto]|]).
      destruct (Hin _ _ _ Hi).
    + rewrite List.filter_app, Hflt. cbn. lia.
  - assert (HF : Forall (fun e => is_make_new_heap e = false) devs).
    { destruct (skipData stmt).
      - match goal with Hd : _ = [] /\ _ |- _ => destruct Hd as [-> _] end.
        constructor.
      - match goal with
        | Hd : datafill_trace _ _ _ _ _ /\ _ |- _ =>
            destruct Hd as [Ht _]; eapply datafill_trace_makes_no_heap; exact Ht
        end. }
    destruct (Hnone _ HF) as [Hin Hflt].
    split; [|split].
    + intros o n tsp Hi. cbn [refresh_prefix app In] in Hi.
      repeat (destruct Hi as [Hi|Hi];
              [first [discriminate Hi | injection Hi as <- <- <-; eauto]|]).
      apply in_app_iff in Hi as [Hi|Hi]; [destruct (Hin _ _ _ Hi)|].
      cbn [refresh_suffix In] in Hi.
      repeat (destruct Hi as [Hi|Hi]; [discriminate Hi|]). destruct Hi.
    + rewrite !List.filter_app, Hflt. cbn. lia.
    + intros _. exists oid, rel, (refreshed_view rel heap filled).
      repeat split; assumption.
Qed.

(** *** How rows are inserted *)

Lemma sink_events_inserts (st : DR_transientrel) (rel : RelationData)
    (rows : list TupleTableSlot) (node : RelFileNode) (tup : HeapTuple)
    (cid : CommandId) (options : Z) :
  In (EvHeapInsert node tup cid options) (sink_events st rel rows) ->
  node = rd_node rel /\ cid = output_cid st /\ options = hi_options st
  /\ exists slot, In slot rows /\ tup = ExecMaterializeSlot slot.
Proof.
  unfold sink_events, sink_open_events, sink_close_events.
  rewrite !in_app_iff. intros [Hin | [Hin | Hin]].
  - exfalso. destruct Hin as [Hin | [Hin | Hin]].
    + cbn in Hin. intuition discriminate.
    + destruct (RelationNeedsWAL rel); cbn in Hin; intuition discriminate.
    + cbn in Hin. intuition discriminate.
  - apply in_flat_map in Hin as (slot & Hslot & Hin). unfold insert_events in Hin.
    destruct Hin as [Hin | Hin].
    + injection Hin as <- <- <- <-. eauto 10.
    + exfalso. destruct (_ && _); cbn in Hin; intuition discriminate.
  - exfalso. destruct Hin as [Hin | [Hin | Hin]].
    + cbn in Hin. intuition discriminate.
    + destruct (negb _); cbn in Hin; intuition discriminate.
    + cbn in Hin. intuition discriminate.
Qed.

Lemma datafill_trace_inserts (oid : Oid) (w : PgWorld) (q : Query)
    (r : Result unit) (evs : list Event) (rel : RelationData)
    (node : RelFileNode) (tup : HeapTuple) (cid : CommandId) (options : Z) :
  relcache w !! oid = Some rel ->
  datafill_trace oid w q r evs ->
  In (EvHeapInsert node tup cid options) evs ->
  node = rd_node rel /\ cid = currentCommandId w /\ options = started_options w.
Proof.
  intros Hrel Ht Hin.
  assert (Hsink : forall sevs rows,
             sevs `prefix_of` sink_events (started_sink oid rel w) rel rows ->
             In (EvHeapInsert node tup cid options) sevs ->
             node = rd_node rel /\ cid = currentCommandId w
             /\ options = started_options w).
  { intros sevs rows [t Ht'] Hi.
    assert (Hi' : In (EvHeapInsert node tup cid options)
                     (sink_events (started_sink oid rel w) rel rows))
      by (rewrite Ht'; apply in_app_iff; now left).
    apply sink_events_inserts in Hi' as (-> & -> & -> & _). now repeat split. }
  inversion Ht; subst.
  all: unfold datafill_head, datafill_push, datafill_tail in Hin.
  all: repeat match goal with
         | Hm : match relcache _ !! _ with _ => _ end |- _ => rewrite Hrel in Hm
         | H1 : relcache _ !! _ = Some ?r1 |- _ =>
             tryif constr_eq r1 rel then fail
             else (assert (r1 = rel) as -> by congruence)
         end.
  all: cbn [In app] in Hin; rewrite ?in_app_iff in Hin; cbn [In] in Hin.
  all: repeat match goal with
         | Hi : _ \/ _ |- _ => destruct Hi as [Hi|Hi]
         | Hi : False |- _ => destruct Hi
         | Hi : _ = EvHeapInsert _ _ _ _ |- _ => discriminate Hi
         | Hi : In _ ?sevs, Hp : ?sevs `prefix_of` _ |- _ => exact (Hsink _ _ Hp Hi)
         | Hi : In _ (sink_events _ _ _) |- _ => exact (Hsink _ _ (reflexivity _) Hi)
         end.
Qed.

(** X15.  Every row insert of a refresh, whatever its outcome, goes into the
    transient relation just made, and with one and the same options: skip
    the free space map and freeze the row always, skip WAL exactly when
    WAL is not needed for archiving or replication. *)
Theorem refresh_insert_options (stmt : RefreshMatViewStmt)
    (queryString : string) (w : PgWorld) (r : Result unit) (w' : PgWorld)
    (node : RelFileNode) (tup : HeapTuple) (cid : CommandId) (options : Z) :
  ExecRefreshMatView stmt queryString w = (r, w') ->
  In (EvHeapInsert node tup cid options) (new_events w w') ->
  relNode node = fresh (used_ids w)
  /\ Z.land options HEAP_INSERT_SKIP_FSM <> 0
  /\ Z.land options HEAP_INSERT_FROZEN <> 0
  /\ (Z.land options HEAP_INSERT_SKIP_WAL <> 0 <-> XLogIsNeeded w = false).
Proof.
  intros H Hin.
  apply ExecRefreshMatView_spec in H as (evs & Hlog & _ & Hout).
  rewrite (new_events_app _ _ _ Hlog) in Hin.
  assert (Hopts : forall w1,
             wal_level w1 = wal_level w ->
             options = started_options w1 ->
             Z.land options HEAP_INSERT_SKIP_FSM <> 0
             /\ Z.land options HEAP_INSERT_FROZEN <> 0
             /\ (Z.land options HEAP_INSERT_SKIP_WAL <> 0 <-> XLogIsNeeded w = false)).
  { intros w1 Hwal ->. unfold started_options, XLogIsNeeded. rewrite Hwal.
    destruct (bool_decide _); cbn; repeat split; try discriminate; try tauto. }
  assert (Hfill : forall w1 heap q rr devs,
             fill_start w (fresh (used_ids w)) heap w1 ->
             rd_node heap = mkRelFileNode (spcNode (rd_node heap)) (fresh (used_ids w)) ->
             datafill_trace (fresh (used_ids w)) w1 q rr devs ->
             In (EvHeapInsert node tup cid options) devs ->
             relNode node = fresh (used_ids w)
             /\ Z.land options HEAP_INSERT_SKIP_FSM <> 0
             /\ Z.land options HEAP_INSERT_FROZEN <> 0
             /\ (Z.land options HEAP_INSERT_SKIP_WAL <> 0 <-> XLogIsNeeded w = false)).
  { intros w1 heap q rr devs (Hcid & Hwal & _ & Hheap & _) Hnode Ht Hi.
    destruct (datafill_trace_inserts _ _ _ _ _ _ _ _ _ _ Hheap Ht Hi)
      as (-> & -> & Ho).
    split; [now rewrite Hnode|]. exact (Hopts w1 Hwal Ho). }
  inversion Hout; subst.
  - exfalso.
    assert (HF : Forall (fun e => storage_step_of e = None) evs)
      by (eapply Forall_prefix_of; [eassumption|]; repeat constructor).
    rewrite Forall_forall in HF. apply list_elem_of_In, HF in Hin. discriminate Hin.
  - cbn [refresh_prefix app In] in Hin.
    repeat (destruct Hin as [Hin|Hin]; [discriminate Hin|]).
    eapply Hfill; try eassumption. reflexivity.
  - cbn [refresh_prefix app In] in Hin.
    repeat (destruct Hin as [Hin|Hin]; [discriminate Hin|]).
    apply in_app_iff in Hin as [Hin|Hin].
    + destruct (skipData stmt).
      * match goal with Hd : _ = [] /\ _ |- _ => destruct Hd as [-> _] end.
        destruct Hin.
      * match goal with
        | Hd : datafill_trace _ _ _ _ _ /\ _ |- _ => destruct Hd as [Ht _]
        end.
        eapply Hfill; try eassumption. reflexivity.
    + cbn [refresh_suffix In] in Hin.
      repeat (destruct Hin as [Hin|Hin]; [discriminate Hin|]). destruct Hin.
Qed.
End Backend.

(** * A worked refresh

    The view [v] is defined as a selection from [orders]; it has never
    been filled.  The plan of its defining query produces two rows. *)

Definition scenario_rte (relid : Oid) (name : string) : RangeTblEntry :=
  mkRangeTblEntry relid (Some (mkAlias name)) false.

Definition V_query : Query :=
  mkQuery CMD_SELECT
          [scenario_rte 16384 "old"; scenario_rte 16384 "new"; scenario_rte 16400 "orders"]
          7.

Definition V_rule : RewriteRule := mkRewriteRule 16390 CMD_SELECT true [V_query].

Definition V_class (hasrules : bool) : FormData_pg_class :=
  mkPgClass "v" 2200 10 RELKIND_MATVIEW RELPERSISTENCE_PERMANENT hasrules false 0.

Definition V : RelationData :=
  mkRelation 16384 (V_class true) (mkRelFileNode 0 16384)
             (Some (mkRuleLock 1 [V_rule])) false.

(** The same view with its rewrite information lost. *)
Definition V_without_rules : RelationData :=
  mkRelation 16384 (V_class false) (mkRelFileNode 0 16384) None false.

Definition scenario_world (view : RelationData) (busy : gset N) : PgWorld :=
  mkWorld {[ "v"%string := 16384%N ]} {[ 16384%N := view ]}
          {[ 16384%N := empty_storage ]} busy 10%N WAL_LEVEL_MINIMAL false 5%N
          [mkSnapshot 100 200 3] 100%N 1%N [].

Definition world0 : PgWorld := scenario_world V ∅.

Definition orders_rows : list TupleTableSlot :=
  [mkSlot (mkHeapTuple [3; 150]%Z); mkSlot (mkHeapTuple [7; 200]%Z)].

Definition scenario_checksum (page : Page) (blk : BlockNumber) : Z := 0.
Definition scenario_rewrite (q : Query) : list Query := [q].
Definition scenario_plan (q : Query) : ErrorData + PlannedStmt := inr 1%N.
Definition scenario_exec (plan : PlannedStmt) (snap : SnapshotData) : ExecOutcome :=
  mkExecOutcome None orders_rows None.

Definition refresh_stmt (skip : bool) : RefreshMatViewStmt :=
  mkRefreshMatViewStmt skip (mkRangeVar "v").

(** REFRESH MATERIALIZED VIEW v [WITH NO DATA], assertions compiled in. *)
Definition refresh_V (skip : bool) : PG unit :=
  ExecRefreshMatView true scenario_checksum scenario_rewrite scenario_plan
                     scenario_exec (refresh_stmt skip) "REFRESH MATERIALIZED VIEW v".

Definition world_after (skip : bool) : PgWorld := snd (refresh_V skip world0).

Lemma refresh_V_returns (skip : bool) :
  refresh_V skip world0 = (Ok tt, world_after skip).
Proof. destruct skip; vm_compute; reflexivity. Defined.

Lemma V_resolves (busy : gset N) : resolves_to (scenario_world V busy) "v" 16384 V.
Proof. repeat split. Defined.

Lemma V_valid : valid_matview V V_query.
Proof. repeat split. exists V_rule. repeat split. Defined.

Lemma refresh_all_or_nothing_witness :
  refresh_V false world0 = (Ok tt, world_after false)
  /\ exists view filled,
       relcache (world_after false) !! 16384%N = Some view
       /\ rd_ispopulated view = true
       /\ smgr (world_after false) !! relNode (rd_node view) = Some filled
       /\ map st_tuple (tuples filled) = map tts_tuple orders_rows.
Proof.
  split; [apply refresh_V_returns|].
  destruct (refresh_all_or_nothing _ _ _ _ _ _ _ _ _ _ (refresh_V_returns false))
    as [_ Hok].
  destruct (Hok eq_refl)
    as (oid & rel & view & filled & Hn & _ & _ & Hv & _ & _ & _ & _ & _ & Hs & _
        & Hp & _ & q & q0 & r1 & r2 & plan & snap & _ & _ & _ & _ & _ & _ & Ht).
  injection Hn as <-.
  exists view, filled. repeat split; assumption.
Defined.

(** The receiver opened directly on [v], which is unpopulated. *)
Definition sink0 : DR_transientrel := mkDR 16384 None 0 0 None.

Definition sink_opened : Result DR_transientrel * PgWorld :=
  transientrel_startup true scenario_checksum sink0 0 [] world0.

Lemma sink_opened_ok :
  sink_opened = (Ok (started_sink 16384 V world0), snd sink_opened).
Proof. vm_compute. reflexivity. Defined.

Lemma transientrel_shutdown_flush_witness :
  sink_opened = (Ok (started_sink 16384 V world0), snd sink_opened)
  /\ exists w2 st3 w3,
       send_rows (transientrel_pub true scenario_checksum) orders_rows
                 (started_sink 16384 V world0) (snd sink_opened)
       = (Ok (started_sink 16384 V world0), w2)
       /\ transientrel_shutdown (started_sink 16384 V world0) w2 = (Ok st3, w3)
       /\ new_events w2 w3
          = [EvFreeBulkInsertState; EvHeapSync (rd_node V); EvHeapClose 16384].
Proof.
  split; [apply sink_opened_ok|].
  destruct (transientrel_shutdown_flush true scenario_checksum sink0 0 [] orders_rows
              world0 _ _ sink_opened_ok)
    as (rel & s1 & w2 & st3 & w3 & Hrel & _ & _ & Hsend & Hshut & Hev & _).
  injection Hrel as <-.
  exists w2, st3, w3. repeat split; assumption.
Defined.

Lemma populated_before_any_row_witness :
  skipData (refresh_stmt false) = false
  /\ refresh_V false world0 = (Ok tt, world_after false)
  /\ exists node k,
       relNode node = fresh (used_ids world0)
       /\ storage_steps (new_events world0 (world_after false))
          = populate_then_rows node k.
Proof.
  split; [reflexivity|]. split; [apply refresh_V_returns|].
  destruct (populated_before_any_row _ _ _ _ _ (refresh_stmt false) _ _ _ _ eq_refl
              (refresh_V_returns false))
    as (node & k & Hnode & _ & Hall).
  exists node, k. split; [exact Hnode | exact (Hall eq_refl)].
Defined.

Lemma SetMatViewToPopulated_transition_witness :
  relkind (rd_rel V) = RELKIND_MATVIEW
  /\ rd_ispopulated V = false
  /\ relcache world0 !! rd_id V = Some V
  /\ smgr world0 !! relNode (rd_node V) = Some empty_storage
  /\ blocks empty_storage = []
  /\ exists w',
       SetMatViewToPopulated true scenario_checksum V world0 = (Ok tt, w')
       /\ relcache w' !! 16384%N = Some (set_rd_ispopulated true V).
Proof.
  repeat (split; [reflexivity|]).
  destruct (SetMatViewToPopulated_transition true scenario_checksum V world0
              empty_storage eq_refl eq_refl eq_refl eq_refl eq_refl)
    as (w' & Hrun & _ & _ & _ & _ & _ & _ & Hrc).
  exists w'. split; assumption.
Defined.

(** The ordering as the specification words it (C5) fails on the worked
    refresh: the defining query is planned with no snapshot pushed yet. *)
Lemma snapshot_not_pushed_before_planning :
  ~ snapshot_pushed_before_planning (new_events world0 (world_after false)).
Proof.
  intros Hclaim.
  assert (Hplan : exists q, new_events world0 (world_after false) !! 8%nat
                            = Some (EvPlanQuery q))
    by (vm_compute; eexists; reflexivity).
  destruct Hplan as [q Hplan].
  destruct (Hclaim _ _ Hplan) as (j & s & Hlt & Hpush).
  do 8 (destruct j as [|j]; [vm_compute in Hpush; discriminate Hpush|]).
  lia.
Qed.

Lemma datafill_snapshot_after_planning_witness :
  skipData (refresh_stmt false) = false
  /\ refresh_V false world0 = (Ok tt, world_after false)
  /\ omap phase_of (new_events world0 (world_after false)) = datafill_phases
  /\ ActiveSnapshot (world_after false) = ActiveSnapshot world0.
Proof.
  split; [reflexivity|]. split; [apply refresh_V_returns|].
  destruct (datafill_snapshot_after_planning _ _ _ _ _ (refresh_stmt false) _ _ _ _ eq_refl
              (refresh_V_returns false))
    as (_ & _ & Hall).
  exact (Hall eq_refl).
Defined.

Lemma V_not_in_use : rd_id V ∉ in_use world0.
Proof. apply (bool_decide_unpack _). vm_compute. exact I. Defined.

(** Populated after a refresh with no data, as the specification has it
    (C6), fails on the worked view: the view is left unpopulated. *)
Lemma nodata_refresh_leaves_unpopulated :
  ~ nodata_twice true scenario_checksum scenario_rewrite scenario_plan scenario_exec
      true (refresh_stmt true) "REFRESH MATERIALIZED VIEW v" world0 16384 V.
Proof.
  intros (w1 & w2 & v1 & v2 & Hrun1 & _ & Hv1 & _ & _ & _ & Hpop1 & _).
  change (refresh_V true world0 = (Ok tt, w1)) in Hrun1.
  rewrite (refresh_V_returns true) in Hrun1. injection Hrun1 as <-.
  vm_compute in Hv1. injection Hv1 as <-.
  discriminate Hpop1.
Qed.

Lemma nodata_refresh_twice_unpopulated_witness :
  skipData (refresh_stmt true) = true
  /\ resolves_to world0 (rv_relname (relation (refresh_stmt true))) 16384 V
  /\ valid_matview V V_query
  /\ (rd_id V ∉ in_use world0)
  /\ nodata_twice true scenario_checksum scenario_rewrite scenario_plan scenario_exec
       false (refresh_stmt true) "REFRESH MATERIALIZED VIEW v" world0 16384 V.
Proof.
  split; [reflexivity|]. split; [apply V_resolves|]. split; [apply V_valid|].
  split; [apply V_not_in_use|].
  exact (nodata_refresh_twice_unpopulated true scenario_checksum scenario_rewrite
           scenario_plan scenario_exec (refresh_stmt true) _ world0 16384 V V_query
           eq_refl (V_resolves ∅) V_valid V_not_in_use).
Defined.

Definition world_without_rules : PgWorld := scenario_world V_without_rules ∅.

Lemma rule_shape_enforced_witness :
  resolves_to world_without_rules (rv_relname (relation (refresh_stmt false)))
              16384 V_without_rules
  /\ relkind (rd_rel V_without_rules) = RELKIND_MATVIEW
  /\ IsSystemRelation V_without_rules = false
  /\ relhasoids (rd_rel V_without_rules) = false
  /\ bad_rule_shape V_without_rules
  /\ exists e w',
       ExecRefreshMatView true scenario_checksum scenario_rewrite scenario_plan
         scenario_exec (refresh_stmt false) "REFRESH MATERIALIZED VIEW v"
         world_without_rules
       = (Raised e, w')
       /\ sqlerrcode e = ERRCODE_INTERNAL_ERROR.
Proof.
  assert (Hres : resolves_to world_without_rules "v" 16384 V_without_rules)
    by (repeat split).
  assert (Hbad : bad_rule_shape V_without_rules)
    by (apply BS_no_rules; reflexivity).
  split; [exact Hres|]. repeat (split; [reflexivity|]). split; [exact Hbad|].
  destruct (rule_shape_enforced true scenario_checksum scenario_rewrite
              scenario_plan scenario_exec (refresh_stmt false)
              "REFRESH MATERIALIZED VIEW v" world_without_rules 16384
              V_without_rules Hres eq_refl eq_refl eq_refl Hbad)
    as (e & w' & Hrun & _ & Hcode & _).
  exists e, w'. split; assumption.
Defined.

(** The view [v] with zero rules behind a stale [relhasrules] flag. *)
Definition V_stale : RelationData :=
  mkRelation 16384 (V_class true) (mkRelFileNode 0 16384) None false.

Definition world_stale : PgWorld := scenario_world V_stale ∅.

(** C7 fails on [V_stale], a view with zero rules: refreshing it does not
    raise the internal error but dereferences the NULL [rd_rules], whether
    assertions are compiled in or not. *)
Theorem refresh_of_zero_rule_view_traps (assertions skip : bool) :
  fst (ExecRefreshMatView assertions scenario_checksum scenario_rewrite scenario_plan
         scenario_exec (refresh_stmt skip) "REFRESH MATERIALIZED VIEW v" world_stale)
  = Trapped (TrapNullPointer "matviewRel->rd_rules").
Proof. destruct assertions, skip; vm_compute; reflexivity. Qed.

(** [v] with a scan open on it in the current transaction. *)
Definition world_busy : PgWorld := scenario_world V {[ 16384%N ]}.

Lemma V_in_use : rd_id V ∈ in_use world_busy.
Proof. apply (bool_decide_unpack _). vm_compute. exact I. Defined.

Lemma active_use_guard_before_transient_witness :
  resolves_to world_busy (rv_relname (relation (refresh_stmt false))) 16384 V
  /\ valid_matview V V_query
  /\ (rd_id V ∈ in_use world_busy)
  /\ exists e w',
       ExecRefreshMatView true scenario_checksum scenario_rewrite scenario_plan
         scenario_exec (refresh_stmt false) "REFRESH MATERIALIZED VIEW v" world_busy
       = (Raised e, w')
       /\ sqlerrcode e = ERRCODE_OBJECT_IN_USE
       /\ relcache w' = relcache world_busy.
Proof.
  split; [apply V_resolves|]. split; [apply V_valid|]. split; [apply V_in_use|].
  destruct (active_use_guard_before_transient true scenario_checksum
              scenario_rewrite scenario_plan scenario_exec (refresh_stmt false)
              "REFRESH MATERIALIZED VIEW v" world_busy 16384 V V_query
              (V_resolves _) V_valid V_in_use)
    as (e & w' & Hrun & _ & Hcode & _ & _ & Hrc & _).
  exists e, w'. repeat split; assumption.
Defined.

(** A rewrite system that breaks its contract: two queries for one. *)
Definition rewrite_twice (q : Query) : list Query := [q; q].

Lemma rewrite_cardinality_contract_witness :
  skipData (refresh_stmt false) = false
  /\ refresh_V false world0 = (Ok tt, world_after false)
  /\ exists q,
       In (EvQueryRewrite q) (new_events world0 (world_after false))
       /\ exists oid rel,
            relnames world0 !! "v" = Some oid
            /\ relcache world0 !! oid = Some rel
            /\ refresh_query rel q.
Proof.
  split; [reflexivity|]. split; [apply refresh_V_returns|].
  destruct (rewrite_cardinality_contract true scenario_checksum scenario_rewrite
              scenario_plan scenario_exec (refresh_stmt false)
              "REFRESH MATERIALIZED VIEW v" world0 _ _ eq_refl
              (refresh_V_returns false))
    as (Hok & _ & Hrw & _).
  destruct (Hok eq_refl) as [q Hin].
  exists q. split; [exact Hin|]. exact (proj1 (Hrw q Hin)).
Defined.

Lemma nodata_refresh_snapshot_untouched_witness :
  skipData (refresh_stmt true) = true
  /\ refresh_V true world0 = (Ok tt, world_after true)
  /\ Forall (fun e => touches_snapshot_or_interrupt e = false)
            (new_events world0 (world_after true))
  /\ ActiveSnapshot (world_after true) = ActiveSnapshot world0
  /\ QueryCancelPending (world_after true) = QueryCancelPending world0.
Proof.
  split; [reflexivity|]. split; [apply refresh_V_returns|].
  exact (nodata_refresh_snapshot_untouched true scenario_checksum scenario_rewrite
           scenario_plan scenario_exec (refresh_stmt true)
           "REFRESH MATERIALIZED VIEW v" world0 _ _
           eq_refl (refresh_V_returns true)).
Defined.

(** ** Further runs *)

(** A plain table under the name [v]. *)
Definition T_plain : RelationData :=
  mkRelation 16384
    (mkPgClass "v" 2200 10 RELKIND_RELATION RELPERSISTENCE_PERMANENT false false 0)
    (mkRelFileNode 0 16384) None true.

Definition world_table : PgWorld := scenario_world T_plain ∅.

Lemma refresh_refuses_other_relations_witness :
  resolves_to world_table (rv_relname (relation (refresh_stmt false))) 16384 T_plain
  /\ relkind (rd_rel T_plain) <> RELKIND_MATVIEW
  /\ relkind (rd_rel T_plain) <> RELKIND_INDEX
  /\ relkind (rd_rel T_plain) <> RELKIND_COMPOSITE_TYPE
  /\ exists e w',
       ExecRefreshMatView true scenario_checksum scenario_rewrite scenario_plan
         scenario_exec (refresh_stmt false) "REFRESH MATERIALIZED VIEW v" world_table
       = (Raised e, w')
       /\ sqlerrcode e = ERRCODE_FEATURE_NOT_SUPPORTED.
Proof.
  assert (Hres : resolves_to world_table "v" 16384 T_plain) by (repeat split).
  split; [exact Hres|]. repeat (split; [discriminate|]).
  destruct (refresh_refuses_other_relations true scenario_checksum scenario_rewrite
              scenario_plan scenario_exec (refresh_stmt false)
              "REFRESH MATERIALIZED VIEW v" world_table 16384 T_plain Hres
              ltac:(discriminate) ltac:(discriminate) ltac:(discriminate))
    as (w' & Hrun & _).
  eexists _, w'. split; [exact Hrun | reflexivity].
Defined.

(** The view [v] with OIDs. *)
Definition V_with_oids : RelationData :=
  mkRelation 16384
    (mkPgClass "v" 2200 10 RELKIND_MATVIEW RELPERSISTENCE_PERMANENT true true 0)
    (mkRelFileNode 0 16384) (Some (mkRuleLock 1 [V_rule])) false.

Definition world_oids : PgWorld := scenario_world V_with_oids ∅.

Lemma refresh_asserts_plain_matview_witness :
  true = true
  /\ resolves_to world_oids (rv_relname (relation (refresh_stmt false))) 16384 V_with_oids
  /\ relkind (rd_rel V_with_oids) = RELKIND_MATVIEW
  /\ (IsSystemRelation V_with_oids = true \/ relhasoids (rd_rel V_with_oids) = true)
  /\ exists w',
       ExecRefreshMatView true scenario_checksum scenario_rewrite scenario_plan
         scenario_exec (refresh_stmt false) "REFRESH MATERIALIZED VIEW v" world_oids
       = (Trapped (TrapFailedAssertion "!matviewRel->rd_rel->relhasoids"), w').
Proof.
  assert (Hres : resolves_to world_oids "v" 16384 V_with_oids) by (repeat split).
  split; [reflexivity|]. split; [exact Hres|]. split; [reflexivity|].
  split; [right; reflexivity|].
  destruct (refresh_asserts_plain_matview true scenario_checksum scenario_rewrite
              scenario_plan scenario_exec (refresh_stmt false)
              "REFRESH MATERIALIZED VIEW v" world_oids 16384 V_with_oids
              eq_refl Hres eq_refl (or_intror eq_refl))
    as (w' & Hrun & _).
  exists w'. exact Hrun.
Defined.

Lemma nodata_refresh_runs_no_query_witness :
  skipData (refresh_stmt true) = true
  /\ refresh_V true world0 = (Ok tt, world_after true)
  /\ Forall (fun e => is_fill_event e = false) (new_events world0 (world_after true)).
Proof.
  split; [reflexivity|]. split; [apply refresh_V_returns|].
  exact (proj1 (nodata_refresh_runs_no_query true scenario_checksum scenario_rewrite
                  scenario_plan scenario_exec (refresh_stmt true)
                  "REFRESH MATERIALIZED VIEW v" world0 _ _
                  eq_refl (refresh_V_returns true))).
Defined.


Lemma received_rows_frozen_and_stamped_witness :
  sink_opened = (Ok (started_sink 16384 V world0), snd sink_opened)
  /\ exists w2 s2,
       send_rows (transientrel_pub true scenario_checksum) orders_rows
                 (started_sink 16384 V world0) (snd sink_opened)
       = (Ok (started_sink 16384 V world0), w2)
       /\ smgr w2 !! 16384%N = Some s2
       /\ Forall (fun t => st_frozen t = true /\ st_cmin t = 5%N) (tuples s2).
Proof.
  split; [apply sink_opened_ok|].
  destruct (received_rows_frozen_and_stamped true scenario_checksum sink0 0 []
              orders_rows world0 _ _ sink_opened_ok)
    as (rel & s1 & w2 & s2 & added & Hrel & Hs1 & Hsend & Hs2 & Ht & _ & Hall).
  injection Hrel as <-.
  exists w2, s2. split; [exact Hsend|]. split; [exact Hs2|].
  rewrite Ht.
  assert (Hempty : tuples s1 = []).
  { vm_compute in Hs1. injection Hs1 as <-. reflexivity. }
  rewrite Hempty. exact Hall.
Defined.

Lemma refresh_syncs_when_wal_skipped_witness :
  skipData (refresh_stmt false) = false
  /\ refresh_V false world0 = (Ok tt, world_after false)
  /\ Forall (fun e => is_xlog_insert e = false) (new_events world0 (world_after false)).
Proof.
  split; [reflexivity|]. split; [apply refresh_V_returns|].
  exact (proj1 (refresh_syncs_when_wal_skipped true scenario_checksum scenario_rewrite
                  scenario_plan scenario_exec (refresh_stmt false)
                  "REFRESH MATERIALIZED VIEW v" world0 _ eq_refl
                  (refresh_V_returns false))).
Defined.

(** The receiver of a transient relation with the OID of [v]. *)
Definition scenario_dest : DestReceiverObj DR_transientrel :=
  CreateTransientRelDestReceiver true scenario_checksum 16384.

Definition world_cancel : PgWorld := set_QueryCancelPending true world0.

Lemma datafill_takes_pending_cancel_witness :
  scenario_rewrite V_query = [V_query]
  /\ QueryCancelPending world_cancel = true
  /\ exists w',
       refresh_matview_datafill true scenario_rewrite scenario_plan scenario_exec
         scenario_dest V_query "REFRESH MATERIALIZED VIEW v" world_cancel
       = (Raised query_canceled, w')
       /\ QueryCancelPending w' = false.
Proof.
  split; [reflexivity|]. split; [reflexivity|].
  destruct (datafill_takes_pending_cancel true scenario_rewrite scenario_plan
              scenario_exec scenario_dest V_query "REFRESH MATERIALIZED VIEW v"
              world_cancel V_query eq_refl eq_refl)
    as (w' & Hrun & _ & Hq & _).
  exists w'. split; assumption.
Defined.

Definition V_old : RangeTblEntry := scenario_rte 16384 "old".
Definition V_new : RangeTblEntry := scenario_rte 16384 "new".

Lemma V_query_rewrites : rewrites_to scenario_rewrite V_query V_query V_old V_new.
Proof. repeat split. Defined.

Lemma V_old_passes : alias_assert_passes true V_old "new".
Proof. intros _. exists (mkAlias "old"). split; [reflexivity | discriminate]. Defined.

Lemma V_new_passes : alias_assert_passes true V_new "old".
Proof. intros _. exists (mkAlias "new"). split; [reflexivity | discriminate]. Defined.

Definition division_by_zero : ErrorData :=
  mkErrorData ERROR (ERRCODE_OTHER 22012) "division by zero" [].

Definition plan_fails (q : Query) : ErrorData + PlannedStmt := inl division_by_zero.

Lemma datafill_planner_error_witness :
  rewrites_to scenario_rewrite V_query V_query V_old V_new
  /\ QueryCancelPending world0 = false
  /\ alias_assert_passes true V_old "new"
  /\ alias_assert_passes true V_new "old"
  /\ plan_fails (mark_result_rels V_query V_old V_new) = inl division_by_zero
  /\ exists w',
       refresh_matview_datafill true scenario_rewrite plan_fails scenario_exec
         scenario_dest V_query "REFRESH MATERIALIZED VIEW v" world0
       = (Raised division_by_zero, w')
       /\ ActiveSnapshot w' = ActiveSnapshot world0.
Proof.
  split; [apply V_query_rewrites|]. split; [reflexivity|].
  split; [apply V_old_passes|]. split; [apply V_new_passes|]. split; [reflexivity|].
  destruct (datafill_planner_error true scenario_rewrite plan_fails scenario_exec
              scenario_dest V_query "REFRESH MATERIALIZED VIEW v" world0 V_query
              V_old V_new division_by_zero V_query_rewrites eq_refl
              V_old_passes V_new_passes eq_refl)
    as (w' & Hrun & _ & Hs & _).
  exists w'. split; assumption.
Defined.

Definition exec_fails_at_start (plan : PlannedStmt) (snap : SnapshotData) : ExecOutcome :=
  mkExecOutcome (Some division_by_zero) [] None.

Lemma datafill_executor_start_error_witness :
  rewrites_to scenario_rewrite V_query V_query V_old V_new
  /\ QueryCancelPending world0 = false
  /\ alias_assert_passes true V_old "new"
  /\ alias_assert_passes true V_new "old"
  /\ scenario_plan (mark_result_rels V_query V_old V_new) = inr 1%N
  /\ ActiveSnapshot world0 = [mkSnapshot 100 200 3]
  /\ exec_start_error
       (exec_fails_at_start 1%N (pushed_snapshot (mkSnapshot 100 200 3) world0))
     = Some division_by_zero
  /\ exists w',
       refresh_matview_datafill true scenario_rewrite scenario_plan
         exec_fails_at_start scenario_dest V_query "REFRESH MATERIALIZED VIEW v" world0
       = (Raised division_by_zero, w')
       /\ ActiveSnapshot w' = [mkSnapshot 100 200 5; mkSnapshot 100 200 3].
Proof.
  split; [apply V_query_rewrites|]. split; [reflexivity|].
  split; [apply V_old_passes|]. split; [apply V_new_passes|].
  do 3 (split; [reflexivity|]).
  destruct (datafill_executor_start_error true scenario_rewrite scenario_plan
              exec_fails_at_start scenario_dest V_query "REFRESH MATERIALIZED VIEW v"
              world0 V_query V_old V_new 1%N (mkSnapshot 100 200 3) []
              division_by_zero V_query_rewrites eq_refl
              V_old_passes V_new_passes eq_refl eq_refl eq_refl)
    as (w' & Hrun & _ & Hs & _).
  exists w'. split; assumption.
Defined.

(** A rewrite that leaves the placeholders in the order [new], [old]. *)
Definition V_query_unswitched : Query :=
  mkQuery CMD_SELECT [V_new; V_old; scenario_rte 16400 "orders"] 7.

Lemma datafill_asserts_placeholder_order_witness :
  true = true
  /\ rewrites_to scenario_rewrite V_query_unswitched V_query_unswitched V_new V_old
  /\ QueryCancelPending world0 = false
  /\ alias V_new = Some (mkAlias "new")
  /\ aliasname (mkAlias "new") = "new"
  /\ exists w',
       refresh_matview_datafill true scenario_rewrite scenario_plan scenario_exec
         scenario_dest V_query_unswitched "REFRESH MATERIALIZED VIEW v" world0
       = (Trapped (TrapFailedAssertion
                     ("strcmp(initial_rte->alias->aliasname, " ++ dq ++ "new" ++ dq ++ ")")),
          w').
Proof.
  assert (Hrw : rewrites_to scenario_rewrite V_query_unswitched V_query_unswitched
                            V_new V_old) by (repeat split).
  split; [reflexivity|]. split; [exact Hrw|]. do 3 (split; [reflexivity|]).
  destruct (datafill_asserts_placeholder_order true scenario_rewrite scenario_plan
              scenario_exec scenario_dest V_query_unswitched
              "REFRESH MATERIALIZED VIEW v" world0 V_query_unswitched V_new V_old
              (mkAlias "new") eq_refl Hrw eq_refl)
    as [Hfirst _].
  destruct (Hfirst eq_refl eq_refl) as (w' & Hrun & _).
  exists w'. exact Hrun.
Defined.

Definition fill_rewritten_twice : Result unit * PgWorld :=
  refresh_matview_datafill true rewrite_twice scenario_plan scenario_exec
    (CreateTransientRelDestReceiver true scenario_checksum (fresh (used_ids world0)))
    V_query "REFRESH MATERIALIZED VIEW v" (transient_made world0 16384 V).

Lemma fill_rewritten_twice_fails :
  fill_rewritten_twice = (Raised unexpected_rewrite_result, snd fill_rewritten_twice).
Proof. vm_compute. reflexivity. Defined.

Lemma refresh_fails_as_its_fill_witness :
  skipData (refresh_stmt false) = false
  /\ resolves_to world0 (rv_relname (relation (refresh_stmt false))) 16384 V
  /\ valid_matview V V_query
  /\ (rd_id V ∉ in_use world0)
  /\ fill_rewritten_twice = (Raised unexpected_rewrite_result, snd fill_rewritten_twice)
  /\ (forall a : unit, Raised unexpected_rewrite_result <> Ok a)
  /\ ExecRefreshMatView true scenario_checksum rewrite_twice scenario_plan
       scenario_exec (refresh_stmt false) "REFRESH MATERIALIZED VIEW v" world0
     = (Raised unexpected_rewrite_result, snd fill_rewritten_twice).
Proof.
  split; [reflexivity|]. split; [apply V_resolves|]. split; [apply V_valid|].
  split; [apply V_not_in_use|]. split; [apply fill_rewritten_twice_fails|].
  split; [discriminate|].
  apply (refresh_fails_as_its_fill true scenario_checksum rewrite_twice scenario_plan
           scenario_exec (refresh_stmt false) "REFRESH MATERIALIZED VIEW v" world0
           16384 V V_query _ _ eq_refl (V_resolves ∅) V_valid V_not_in_use
           fill_rewritten_twice_fails).
  discriminate.
Defined.

Lemma SetMatViewToPopulated_only_once_witness :
  true = true
  /\ relkind (rd_rel V) = RELKIND_MATVIEW
  /\ rd_ispopulated V = false
  /\ relcache world0 !! rd_id V = Some V
  /\ smgr world0 !! relNode (rd_node V) = Some empty_storage
  /\ exists w' rel',
       SetMatViewToPopulated true scenario_checksum V world0 = (Ok tt, w')
       /\ SetMatViewToPopulated true scenario_checksum rel' w'
          = (Trapped (TrapFailedAssertion "relation->rd_ispopulated == false"), w').
Proof.
  repeat (split; [reflexivity|]).
  destruct (SetMatViewToPopulated_only_once true scenario_checksum V world0
              empty_storage eq_refl eq_refl eq_refl eq_refl eq_refl)
    as (w' & rel' & Hrun & _ & _ & Htrap).
  exists w', rel'. split; assumption.
Defined.

Lemma refresh_swaps_after_close_witness :
  skipData (refresh_stmt false) = false
  /\ refresh_V false world0 = (Ok tt, world_after false)
  /\ exists node relid plan before,
       new_events world0 (world_after false)
       = before
         ++ [EvFreeBulkInsertState]
         ++ (if XLogIsNeeded world0 then [] else [EvHeapSync node])
         ++ [EvHeapClose relid;
             EvExecutorFinish plan; EvExecutorEnd plan; EvPopSnapshot;
             EvFinishHeapSwap 16384 (fresh (used_ids world0)) (RecentXmin world0)
                              (nextMXact world0);
             EvRelationCacheInvalidate 16384].
Proof.
  split; [reflexivity|]. split; [apply refresh_V_returns|].
  destruct (refresh_swaps_after_close true scenario_checksum scenario_rewrite
              scenario_plan scenario_exec (refresh_stmt false)
              "REFRESH MATERIALIZED VIEW v" world0 _ eq_refl
              (refresh_V_returns false))
    as (oid & node & relid & plan & before & Hn & _ & _ & Hev).
  injection Hn as <-.
  exists node, relid, plan, before. exact Hev.
Defined.

Lemma refresh_keeps_tablespace_witness :
  refresh_V false world0 = (Ok tt, world_after false)
  /\ exists view,
       relcache (world_after false) !! 16384%N = Some view
       /\ spcNode (rd_node view) = 0%N.
Proof.
  split; [apply refresh_V_returns|].
  destruct (refresh_keeps_tablespace true scenario_checksum scenario_rewrite
              scenario_plan scenario_exec (refresh_stmt false)
              "REFRESH MATERIALIZED VIEW v" world0 _ _ (refresh_V_returns false))
    as (_ & _ & Hok).
  destruct (Hok eq_refl) as (oid & rel & view & Hn & Hr & Hv & Hts).
  injection Hn as <-. injection Hr as <-.
  exists view. split; assumption.
Defined.

Lemma first_row_inserted :
  In (EvHeapInsert (mkRelFileNode 0 16385) (mkHeapTuple [3; 150]%Z) 5%N 7%Z)
     (new_events world0 (world_after false)).
Proof. vm_compute. repeat (first [left; reflexivity | right]). Defined.

Lemma refresh_insert_options_witness :
  refresh_V false world0 = (Ok tt, world_after false)
  /\ In (EvHeapInsert (mkRelFileNode 0 16385) (mkHeapTuple [3; 150]%Z) 5%N 7%Z)
        (new_events world0 (world_after false))
  /\ 16385%N = fresh (used_ids world0)
  /\ Z.land 7 HEAP_INSERT_SKIP_FSM <> 0%Z
  /\ Z.land 7 HEAP_INSERT_FROZEN <> 0%Z
  /\ (Z.land 7 HEAP_INSERT_SKIP_WAL <> 0%Z <-> XLogIsNeeded world0 = false).
Proof.
  split; [apply refresh_V_returns|]. split; [apply first_row_inserted|].
  exact (refresh_insert_options true scenario_checksum scenario_rewrite scenario_plan
           scenario_exec (refresh_stmt false) "REFRESH MATERIALIZED VIEW v" world0
           _ _ _ _ _ _ (refresh_V_returns false) first_row_inserted).
Defined.
